(** * Werewolf-AI-Game: the game state machine and its resolution engine

    A shallow embedding of the engine of [src/App.tsx] (with the data
    model of [src/types.ts] and the rune table of the constants
    module), and the properties of its win evaluation, night
    resolution, day vote and rune cooldowns.

    Conventions of the embedding.
    - A JS [number] that the engine only ever uses as a small integer
      (cooldowns, vote counts, the day count) is a [Z]; an array
      [length] is a [nat].
    - [string | null] is [option string]; JS truthiness of such a value
      is [truthy] (neither [null] nor the empty string).
    - Ids of participants are opaque strings (uuids in the program);
      they are assumed not to be names of members of [Object.prototype],
      so that the knowledge map, a plain object keyed by them, behaves
      as a finite map. The ids the oracle names in its answers are
      arbitrary strings: the vote tally, a plain object keyed by them,
      is modelled with what it inherits from [Object.prototype].
    - React's functional [setState] updaters are applied in the order
      they are queued; an [await] is a sequence point and nothing else.
      The [logs] field and the narration requests are left out: [addLog]
      only ever appends to [logs].

    The later sections add the events the engine appends to the log (as
    lists of events, in the order of the [addLog] calls), the fallbacks
    of the oracle services of [src/services/geminiService.ts], and the
    component state with the buttons of the page. There a run of a
    handler or of the phase effect is one step, the updates it queues
    are rendered together, and the answers of the oracle and the random
    draws are inputs. *)

From Stdlib Require Import ZArith Lia Bool Permutation.
From stdpp Require Import gmap strings list fin_maps.

Local Open Scope string_scope.
Local Open Scope list_scope.

(** ** Data model ([src/types.ts]) *)

Inductive Role := VILLAGER | WEREWOLF | SEER | DOCTOR.

Inductive Phase :=
  | SETUP | NIGHT_INTRO | NIGHT_ACTION | DAY_INTRO
  | DAY_DISCUSSION | DAY_VOTING | GAME_OVER.

Inductive RuneType := SIGHT | SHIELD.

Inductive Winner := Villagers | Werewolves.

#[global] Instance Role_eq_dec : EqDecision Role.
Proof. solve_decision. Defined.
#[global] Instance Phase_eq_dec : EqDecision Phase.
Proof. solve_decision. Defined.
#[global] Instance RuneType_eq_dec : EqDecision RuneType.
Proof. solve_decision. Defined.
#[global] Instance Winner_eq_dec : EqDecision Winner.
Proof. solve_decision. Defined.

(** A value found in the vote tally, and from there in [votesAgainst].
    The tally is a plain object, so [voteCounts[k]] can be, besides a
    number, a function that the object inherits from [Object.prototype],
    the prototype itself (for [__proto__]), or the string that [+ 1]
    makes of any of these. None of them is a number and none is falsy;
    [NotNum] stands for them all. *)
Inductive Count := Num (n : Z) | NotNum.

Coercion Num : Z >-> Count.
Bind Scope Z_scope with Count.

#[global] Instance Count_eq_dec : EqDecision Count.
Proof. solve_decision. Defined.

Record Rune := mkRune {
  rune_id : string;
  rune_name : string;
  rune_type : RuneType;
  rune_description : string;
  cooldown : Z;
  currentCooldown : Z   (* 0 = Ready *)
}.

Record Player := mkPlayer {
  player_id : string;
  player_name : string;
  role : Role;
  isAlive : bool;
  isBot : bool;
  avatar : string;
  votesAgainst : Count;
  runes : list Rune
}.

Record Targets := mkTargets {
  werewolf : option string;
  doctor : option string;
  seer : option string
}.

Record GameState := mkGameState {
  players : list Player;
  phase : Phase;
  dayCount : Z;
  moonPhase : string;
  winner : option Winner;
  userPlayerId : string;
  targets : Targets;
  seerKnowledge : gmap string Role
}.

Record RuneAction := mkRuneAction {
  ra_playerId : string;
  ra_runeId : string;
  ra_targetId : string
}.

(** [runeActions] is read through [?.] only, so a missing array is the
    empty list. *)
Record BotNightAction := mkBotNightAction {
  werewolfKillTargetId : option string;
  doctorSaveTargetId : option string;
  seerCheckTargetId : option string;
  runeActions : list RuneAction
}.

Record BotDayAction := mkBotDayAction {
  bd_playerId : string;
  chatMessage : string;
  voteTargetId : option string
}.

(** ** JS helpers *)

(** Truthiness of a [string | null]. *)
Definition truthy (o : option string) : bool :=
  match o with
  | Some s => negb (s =? "")
  | None => false
  end.

(** [a === b] on two [string | null] values. *)
Definition opt_eqb (a b : option string) : bool :=
  match a, b with
  | Some x, Some y => x =? y
  | None, None => true
  | _, _ => false
  end.

(** [players.find(p => p.id === pid)] *)
Definition findPlayer (pid : string) (ps : list Player) : option Player :=
  List.find (fun p => player_id p =? pid) ps.

(** [runes.find(r => r.id === rid)] *)
Definition findRune (rid : string) (rs : list Rune) : option Rune :=
  List.find (fun r => rune_id r =? rid) rs.

Definition isWerewolf (r : Role) : bool := bool_decide (r = WEREWOLF).

(** ** Field updates (object spread with one field replaced) *)

Definition setCurrentCooldown (c : Z) (r : Rune) : Rune :=
  mkRune (rune_id r) (rune_name r) (rune_type r) (rune_description r)
         (cooldown r) c.

Definition setRunes (rs : list Rune) (p : Player) : Player :=
  mkPlayer (player_id p) (player_name p) (role p) (isAlive p) (isBot p)
           (avatar p) (votesAgainst p) rs.

Definition setIsAlive (b : bool) (p : Player) : Player :=
  mkPlayer (player_id p) (player_name p) (role p) b (isBot p)
           (avatar p) (votesAgainst p) (runes p).

Definition setVotesAgainst (v : Count) (p : Player) : Player :=
  mkPlayer (player_id p) (player_name p) (role p) (isAlive p) (isBot p)
           (avatar p) v (runes p).

Definition noTargets : Targets := mkTargets None None None.

(** ** Win evaluation ([checkWinCondition], [setWinner]) *)

Definition setWinner (team : Winner) (s : GameState) : GameState :=
  mkGameState (players s) GAME_OVER (dayCount s) (moonPhase s) (Some team)
              (userPlayerId s) (targets s) (seerKnowledge s).

Definition aliveWerewolvesOf (currentPlayers : list Player) : nat :=
  length (List.filter (fun p => isAlive p && isWerewolf (role p)) currentPlayers).

Definition aliveVillagersOf (currentPlayers : list Player) : nat :=
  length (List.filter (fun p => isAlive p && negb (isWerewolf (role p))) currentPlayers).

(** The function returns the boolean and, through [setWinner], queues an
    update of the session state: both are in the result. *)
Definition checkWinCondition (currentPlayers : list Player) (s : GameState)
  : bool * GameState :=
  let aliveWerewolves := aliveWerewolvesOf currentPlayers in
  let aliveVillagers := aliveVillagersOf currentPlayers in
  if (aliveWerewolves =? 0)%nat then (true, setWinner Villagers s)
  else if (aliveVillagers <=? aliveWerewolves)%nat then (true, setWinner Werewolves s)
  else (false, s).

(** ** Rune table and creation (constants module) *)

Record RuneTemplate := mkTemplate {
  t_name : string;
  t_type : RuneType;
  t_description : string;
  t_cooldown : Z
}.

Definition AVAILABLE_RUNES : list RuneTemplate :=
  [ mkTemplate "Lunar Sight" SIGHT "Reveal the true role of a target." 3;
    mkTemplate "Guardian Ward" SHIELD "Protect a target from death for one night." 3;
    mkTemplate "Shadow Veil" SHIELD "Protect yourself from death for one night." 4 ].

Definition BOT_NAMES : list string :=
  ["Silas"; "Elara"; "Gideon"; "Thorne"; "Rowan"; "Lysandra"; "Kael"; "Mara"].

Definition AVATAR_URLS : list string :=
  [ "https://picsum.photos/seed/p1/200"; "https://picsum.photos/seed/p2/200";
    "https://picsum.photos/seed/p3/200"; "https://picsum.photos/seed/p4/200";
    "https://picsum.photos/seed/p5/200"; "https://picsum.photos/seed/p6/200";
    "https://picsum.photos/seed/p7/200"; "https://picsum.photos/seed/p8/200" ].

Definition MOON_PHASES : list string :=
  [ "New Moon"; "Waxing Crescent"; "First Quarter"; "Waxing Gibbous";
    "Full Moon"; "Waning Gibbous"; "Last Quarter"; "Waning Crescent" ].

(** [getRandomRune]: [draw] is the value of
    [Math.floor(Math.random() * AVAILABLE_RUNES.length)], which ranges
    over the indices of the table, and [uuid] the fresh [uuidv4()]. *)
Definition getRandomRune (draw : nat) (uuid : string) : Rune :=
  let template :=
    nth (draw mod length AVAILABLE_RUNES) AVAILABLE_RUNES
        (mkTemplate "" SIGHT "" 0) in
  mkRune uuid (t_name template) (t_type template) (t_description template)
         (t_cooldown template) 0.

(** ** Game setup ([initialState], [startGame], [resetGame]) *)

Definition initialState : GameState :=
  mkGameState [] SETUP 0 (nth 0 MOON_PHASES "") None "" noTargets ∅.

(** What [startGame] draws from its environment: the successive results
    of [uuidv4()], the successive rune draws, and the outcome of the two
    [sort(() => Math.random() - 0.5)] calls. *)
Record SetupEntropy := mkEntropy {
  uuid : nat -> string;
  runeDraw : nat -> nat;
  shuffleRoles : list Role -> list Role;
  shufflePlayers : list Player -> list Player
}.

Definition rolesPoolOf (selectedRole : Role) : list Role :=
  [selectedRole; WEREWOLF; SEER; DOCTOR; VILLAGER; VILLAGER; VILLAGER; WEREWOLF].

Definition mkUserPlayer (e : SetupEntropy) (selectedRole : Role) : Player :=
  mkPlayer (uuid e 0) "You" selectedRole true false (nth 0 AVATAR_URLS "") 0
           [getRandomRune (runeDraw e 0) (uuid e 1)].

Definition mkBot (e : SetupEntropy) (idx : nat) (r : Role) : Player :=
  mkPlayer (uuid e (2 + 2 * idx)) (nth idx BOT_NAMES "") r true true
           (nth (idx + 1) AVATAR_URLS "") 0
           [getRandomRune (runeDraw e (idx + 1)) (uuid e (3 + 2 * idx))].

Definition startGame (e : SetupEntropy) (selectedRole : Role) : GameState :=
  let rolesPool := rolesPoolOf selectedRole in
  let botRoles := shuffleRoles e (tail rolesPool) in
  let userPlayer := mkUserPlayer e selectedRole in
  let bots := imap (mkBot e) botRoles in
  let allPlayers := shufflePlayers e (userPlayer :: bots) in
  mkGameState allPlayers NIGHT_INTRO 1 (nth 0 MOON_PHASES "") None
              (player_id userPlayer) noTargets ∅.

Definition resetGame (s : GameState) : GameState := initialState.

(** ** Rune cooldown ledger *)

(** [{ ...r, currentCooldown: Math.max(0, r.currentCooldown - 1) }] *)
Definition tickRune (r : Rune) : Rune :=
  setCurrentCooldown (Z.max 0 (currentCooldown r - 1)) r.

Definition tickPlayer (p : Player) : Player :=
  setRunes (map tickRune (runes p)) p.

(** [r.id === rid ? { ...r, currentCooldown: r.cooldown + 1 } : r] *)
Definition consumeRune (rid : string) (r : Rune) : Rune :=
  if rune_id r =? rid then setCurrentCooldown (cooldown r + 1) r else r.

Definition consumeRunesOf (rid : string) (p : Player) : Player :=
  setRunes (map (consumeRune rid) (runes p)) p.

(** ** Night intro ([runPhase], the [NIGHT_INTRO] branch) *)

(** [MOON_PHASES[i]] for a JS number [i]; a miss is the empty string. *)
Definition moonAt (i : Z) : string :=
  if (i <? 0)%Z then "" else nth (Z.to_nat i) MOON_PHASES "".

Definition tickDown (s : GameState) : GameState :=
  let moonIdx := Z.rem (dayCount s - 1) (Z.of_nat (length MOON_PHASES)) in
  let currentMoon := moonAt moonIdx in
  let nextPlayers := map tickPlayer (players s) in
  mkGameState nextPlayers (phase s) (dayCount s) currentMoon (winner s)
              (userPlayerId s) (targets s) (seerKnowledge s).

Definition setPhase (ph : Phase) (s : GameState) : GameState :=
  mkGameState (players s) ph (dayCount s) (moonPhase s) (winner s)
              (userPlayerId s) (targets s) (seerKnowledge s).

(** ** Night resolution ([confirmNightAction]) *)

Inductive ActionType := ROLE | RUNE.

(** The component state the handlers read besides the session. *)
Record UiState := mkUi {
  selectedActionTarget : option string;
  activeActionType : ActionType;
  selectedRuneId : option string
}.

(** [const userPlayer = state.players.find(p => p.id === state.userPlayerId)] *)
Definition userPlayerOf (s : GameState) : option Player :=
  findPlayer (userPlayerId s) (players s).

(** [userPlayer?.isAlive] as a condition. *)
Definition userAlive (s : GameState) : bool :=
  match userPlayerOf s with
  | Some u => isAlive u
  | None => false
  end.

(** A. Bot roles. *)
Definition botKills (b : BotNightAction) : list string :=
  match werewolfKillTargetId b with
  | Some t => if truthy (Some t) then [t] else []
  | None => []
  end.

Definition botRoleSaves (b : BotNightAction) : list string :=
  match doctorSaveTargetId b with
  | Some t => if truthy (Some t) then [t] else []
  | None => []
  end.

(** B. Bot runes: one pass of the [forEach]. *)
Definition botRuneSave (ps : list Player) (ra : RuneAction) : list string :=
  match findPlayer (ra_playerId ra) ps with
  | Some runePlayer =>
      match findRune (ra_runeId ra) (runes runePlayer) with
      | Some rune =>
          match rune_type rune with
          | SHIELD => [ra_targetId ra]
          | SIGHT => []
          end
      | None => []
      end
  | None => []
  end.

Definition botRuneSaves (ps : list Player) (b : BotNightAction) : list string :=
  flat_map (botRuneSave ps) (runeActions b).

(** C. The user's action: what it pushes on [kills], [saves], [reveals]
    and the value of [userUsedRuneId]. *)
Record UserEffect := mkUserEffect {
  u_kills : list string;
  u_saves : list string;
  u_reveals : list string;
  userUsedRuneId : option string
}.

Definition noUserEffect : UserEffect := mkUserEffect [] [] [] None.

Definition userEffect (user : Player) (ui : UiState) : UserEffect :=
  match selectedActionTarget ui with
  | Some target =>
      if isAlive user && truthy (Some target) then
        match activeActionType ui with
        | ROLE =>
            mkUserEffect
              (if bool_decide (role user = WEREWOLF) then [target] else [])
              (if bool_decide (role user = DOCTOR) then [target] else [])
              (if bool_decide (role user = SEER) then [target] else [])
              None
        | RUNE =>
            match selectedRuneId ui with
            | Some rid =>
                if truthy (Some rid) then
                  match findRune rid (runes user) with
                  | Some rune =>
                      mkUserEffect []
                        (match rune_type rune with SHIELD => [target] | SIGHT => [] end)
                        (match rune_type rune with SIGHT => [target] | SHIELD => [] end)
                        (Some (rune_id rune))
                  | None => noUserEffect
                  end
                else noUserEffect
            | None => noUserEffect
            end
        end
      else noUserEffect
  | None => noUserEffect
  end.

Definition nightKills (user : Player) (ui : UiState) (b : BotNightAction) : list string :=
  botKills b ++ u_kills (userEffect user ui).

Definition nightSaves (ps : list Player) (user : Player) (ui : UiState)
    (b : BotNightAction) : list string :=
  botRoleSaves b ++ botRuneSaves ps b ++ u_saves (userEffect user ui).

Definition nightReveals (user : Player) (ui : UiState) : list string :=
  u_reveals (userEffect user ui).

(** D. One pass of [reveals.forEach]. *)
Definition reveal (ps : list Player) (k : gmap string Role) (targetId : string)
  : gmap string Role :=
  match findPlayer targetId ps with
  | Some target => <[player_id target := role target]> k
  | None => k
  end.

Definition processKnowledge (ps : list Player) (k : gmap string Role)
    (reveals : list string) : gmap string Role :=
  fold_left (reveal ps) reveals k.

(** E. The callback of [state.players.map]: first the bot branch (the
    first rune action that names the participant), then the whole
    callback. *)
Definition botCooldown (b : BotNightAction) (p : Player) : Player :=
  match List.find (fun ba => ra_playerId ba =? player_id p) (runeActions b) with
  | Some botAction => consumeRunesOf (ra_runeId botAction) p
  | None => p
  end.

Definition updateCooldowns (user : Player) (used : option string)
    (b : BotNightAction) (p : Player) : Player :=
  match used with
  | Some rid =>
      if (player_id p =? player_id user) && truthy (Some rid)
      then consumeRunesOf rid p
      else botCooldown b p
  | None => botCooldown b p
  end.

Definition primaryWWTargetOf (kills : list string) : option string := head kills.

(** [saves.includes(primaryWWTarget || '') ? primaryWWTarget : null] *)
Definition primaryDocTargetOf (saves : list string) (ww : option string)
  : option string :=
  if existsb (fun x => x =? default "" ww) saves then ww else None.

(** The body of [confirmNightAction] once the guard is passed and
    [userPlayer] is known. *)
Definition resolveNight (s : GameState) (user : Player) (ui : UiState)
    (botActions : BotNightAction) : GameState :=
  let kills := nightKills user ui botActions in
  let saves := nightSaves (players s) user ui botActions in
  let reveals := nightReveals user ui in
  let newKnowledge := processKnowledge (players s) (seerKnowledge s) reveals in
  let nextPlayers :=
    map (updateCooldowns user (userUsedRuneId (userEffect user ui)) botActions)
        (players s) in
  let primaryWWTarget := primaryWWTargetOf kills in
  let primaryDocTarget := primaryDocTargetOf saves primaryWWTarget in
  mkGameState nextPlayers DAY_INTRO (dayCount s) (moonPhase s) (winner s)
              (userPlayerId s)
              (mkTargets primaryWWTarget primaryDocTarget None)
              newKnowledge.

(** [confirmNightAction]. [None] is the [TypeError] raised by
    [user.isAlive] when no participant carries [userPlayerId]; the early
    [return] leaves the session as it is. *)
Definition confirmNightAction (s : GameState) (ui : UiState)
    (botActions : BotNightAction) : option GameState :=
  if negb (truthy (selectedActionTarget ui)) && userAlive s then Some s
  else
    match userPlayerOf s with
    | Some user => Some (resolveNight s user ui botActions)
    | None => None
    end.

(** ** Object store

    [processNightResults] and [confirmVote] build an array of fresh
    participant objects and then assign to a field of one of them. The
    objects live in a heap addressed by position; an array is a list of
    addresses, and every holder of the array sees the assignment. *)

Abbreviation Ref := nat (only parsing).

Abbreviation Heap := (list Player) (only parsing).

(** The array made of the objects of a freshly filled heap. *)
Definition arrayOf (h : Heap) : list Ref := seq 0 (length h).

(** Reading an array through the heap. *)
Definition derefAll (h : Heap) (a : list Ref) : list Player :=
  omap (fun r => h !! r) a.

(** [arr.find(p => p.id === pid)] on an array of references. *)
Fixpoint findRef (h : Heap) (pid : string) (a : list Ref) : option Ref :=
  match a with
  | [] => None
  | r :: a' =>
      match h !! r with
      | Some p => if player_id p =? pid then Some r else findRef h pid a'
      | None => findRef h pid a'
      end
  end.

(** [const o = arr.find(p => p.id === pid); if (o) { o.isAlive = false }] *)
Definition markDead (pid : string) (a : list Ref) (h : Heap) : Heap :=
  match findRef h pid a with
  | Some r => alter (setIsAlive false) r h
  | None => h
  end.

(** ** Death application ([processNightResults]) *)

Definition setPlayers (ps : list Player) (s : GameState) : GameState :=
  mkGameState ps (phase s) (dayCount s) (moonPhase s) (winner s)
              (userPlayerId s) (targets s) (seerKnowledge s).

Definition processNightResults (s : GameState) : GameState :=
  let killedId := werewolf (targets s) in
  let savedId := doctor (targets s) in
  (* nextPlayers = state.players.map(p => ({ ...p })) *)
  let heap0 : Heap := players s in
  let nextPlayers := arrayOf heap0 in
  let heap1 :=
    if truthy killedId then
      if opt_eqb killedId savedId then heap0
      else markDead (default "" killedId) nextPlayers heap0
    else heap0 in
  let s1 := setPhase DAY_DISCUSSION (setPlayers (derefAll heap1 nextPlayers) s) in
  snd (checkWinCondition (derefAll heap1 nextPlayers) s1).

(** ** Day discussion ([runDayDiscussion]): chat only, then the vote. *)

Definition runDayDiscussion (s : GameState) : GameState := setPhase DAY_VOTING s.

(** ** Day vote ([confirmVote]) *)

(** The function-valued members of [Object.prototype] (ECMAScript with
    its Annex B), which every plain object inherits. *)
Definition PROTO_FUNCTIONS : list string :=
  [ "constructor"; "__defineGetter__"; "__defineSetter__"; "hasOwnProperty";
    "__lookupGetter__"; "__lookupSetter__"; "isPrototypeOf";
    "propertyIsEnumerable"; "toString"; "valueOf"; "toLocaleString" ].

(** [k] names a member that a plain object inherits: one of the
    functions, or the accessor [__proto__]. *)
Definition inherited (k : string) : bool :=
  existsb (String.eqb k) PROTO_FUNCTIONS || (k =? "__proto__").

(** [voteCounts]: a plain object; its own properties, kept in insertion
    order. [Object.entries] enumerates integer-like keys first, so its
    order can be another one; [pickEliminated_perm] below shows that the
    order of the entries does not matter to the scan. *)
Abbreviation VoteCounts := (list (string * Count)) (only parsing).

(** The own property [k] of [voteCounts], if there is one. *)
Fixpoint ownCount (k : string) (vc : VoteCounts) : option Count :=
  match vc with
  | [] => None
  | (k', c) :: rest => if k' =? k then Some c else ownCount k rest
  end.

(** [voteCounts[k] || 0]: the own property; without one, the inherited
    member (a function or an object, which [||] keeps); without either,
    [undefined || 0]. *)
Definition countOf (k : string) (vc : VoteCounts) : Count :=
  match ownCount k vc with
  | Some c => c
  | None => if inherited k then NotNum else 0
  end.

(** [v + 1]: the sum for a number, a string for anything else. *)
Definition plusOne (v : Count) : Count :=
  match v with
  | Num n => (n + 1)%Z
  | NotNum => NotNum
  end.

(** [voteCounts[k] = v] for a key other than [__proto__]: the own
    property is updated, or created after the others. *)
Fixpoint setCount (k : string) (v : Count) (vc : VoteCounts) : VoteCounts :=
  match vc with
  | [] => [(k, v)]
  | (k', c) :: rest =>
      if k' =? k then (k', v) :: rest else (k', c) :: setCount k v rest
  end.

(** [voteCounts[k] = (voteCounts[k] || 0) + 1]. For [__proto__] the
    assignment goes to the setter of [Object.prototype], which ignores a
    value that is neither an object nor [null]: the vote leaves no
    trace. *)
Definition castVote (k : string) (vc : VoteCounts) : VoteCounts :=
  if k =? "__proto__" then vc else setCount k (plusOne (countOf k vc)) vc.

(** One pass of [botActions.forEach]. *)
Definition castBotVote (vc : VoteCounts) (action : BotDayAction) : VoteCounts :=
  match voteTargetId action with
  | Some t => if truthy (Some t) then castVote t vc else vc
  | None => vc
  end.

Definition tallyVotes (s : GameState) (sel : option string)
    (botActions : list BotDayAction) : VoteCounts :=
  let voteCounts := fold_left castBotVote botActions [] in
  match sel with
  | Some t => if userAlive s && truthy (Some t) then castVote t voteCounts else voteCounts
  | None => voteCounts
  end.

(** One pass of [Object.entries(voteCounts).forEach] over the pair
    [(eliminatedId, maxVotes)]. *)
Definition pickStep (acc : option string * Z) (entry : string * Count)
  : option string * Z :=
  let '(eliminatedId, maxVotes) := acc in
  let '(id, count) := entry in
  match count with
  | Num n =>
      if (maxVotes <? n)%Z then (Some id, n)
      else if (n =? maxVotes)%Z then (None, maxVotes)
      else (eliminatedId, maxVotes)
  | NotNum =>
      (* [count > maxVotes] and [count === maxVotes] are both false of a
         value that is no number *)
      (eliminatedId, maxVotes)
  end.

Definition pickEliminated (entries : list (string * Count)) : option string :=
  fst (fold_left pickStep entries (None, 0%Z)).

Definition confirmVote (s : GameState) (sel : option string)
    (botActions : list BotDayAction) : GameState :=
  if negb (truthy sel) && userAlive s then s
  else
    let voteCounts := tallyVotes s sel botActions in
    let eliminatedId := pickEliminated voteCounts in
    (* nextPlayers = state.players.map(p => ({ ...p, votesAgainst: ... })) *)
    let heap0 : Heap :=
      map (fun p => setVotesAgainst (countOf (player_id p) voteCounts) p) (players s) in
    let nextPlayers := arrayOf heap0 in
    (* setState(prev => ({ ...prev, players: nextPlayers })): from here on
       the session holds the array [nextPlayers] *)
    let committed := nextPlayers in
    let heap1 :=
      if truthy eliminatedId then markDead (default "" eliminatedId) nextPlayers heap0
      else heap0 in
    (* nextPlayers = nextPlayers.map(p => ({ ...p, votesAgainst: 0 })): new
       objects, in a new array *)
    let nextPlayers' := map (setVotesAgainst 0) (derefAll heap1 nextPlayers) in
    let s1 := setPlayers (derefAll heap1 committed) s in
    let '(win, s2) := checkWinCondition nextPlayers' s1 in
    if win then s2
    else
      mkGameState nextPlayers' NIGHT_INTRO (dayCount s2 + 1)%Z (moonPhase s2)
                  (winner s2) (userPlayerId s2) noTargets (seerKnowledge s2).

(** ** The session as a transition system *)

(** A [sort] with a random comparator returns its input in some order. *)
Definition fairShuffles (e : SetupEntropy) : Prop :=
  (forall l, Permutation (shuffleRoles e l) l) /\
  (forall l, Permutation (shufflePlayers e l) l).

(** [uuidv4()] never repeats among the sixteen ids of a setup. *)
Definition freshUuids (e : SetupEntropy) : Prop :=
  NoDup (map (uuid e) (seq 0 16)).

(** A transition of a running game: a click of the user or a run of the
    phase effect. The timer of the night intro and its cooldown tick are
    two transitions; the oracle's answers and the component state are
    arbitrary. *)
Inductive playStep : GameState -> GameState -> Prop :=
  | play_tick s :
      phase s = NIGHT_INTRO -> playStep s (tickDown s)
  | play_night_timer s :
      phase s = NIGHT_INTRO -> playStep s (setPhase NIGHT_ACTION s)
  | play_night s ui botActions s' :
      phase s = NIGHT_ACTION ->
      confirmNightAction s ui botActions = Some s' -> playStep s s'
  | play_day_intro s :
      phase s = DAY_INTRO -> playStep s (processNightResults s)
  | play_discussion s :
      phase s = DAY_DISCUSSION -> playStep s (runDayDiscussion s)
  | play_vote s sel botActions :
      phase s = DAY_VOTING -> playStep s (confirmVote s sel botActions).

(** Any transition: a (re)start of the game, or a transition of the
    running game. *)
Inductive step : GameState -> GameState -> Prop :=
  | step_start e selectedRole s :
      phase s = SETUP -> fairShuffles e -> step s (startGame e selectedRole)
  | step_reset s :
      step s (resetGame s)
  | step_play s s' :
      playStep s s' -> step s s'.

(** The states of a run of the program. *)
Inductive reachable : GameState -> Prop :=
  | reachable_init : reachable initialState
  | reachable_step s s' : reachable s -> step s s' -> reachable s'.

(** ** Auxiliary notions used in the statements *)

(** The roster with the first participant of id [pid] marked dead. *)
Fixpoint killFirst (pid : string) (ps : list Player) : list Player :=
  match ps with
  | [] => []
  | p :: rest =>
      if player_id p =? pid then setIsAlive false p :: rest
      else p :: killFirst pid rest
  end.

(** No alive participant carries the id [t]: [t] is absent from the
    roster, or names a dead participant. *)
Definition invalidTarget (t : string) (ps : list Player) : Prop :=
  forall p, In p ps -> player_id p = t -> isAlive p = false.

(** How many participants have role [r]. *)
Definition roleCount (r : Role) (ps : list Player) : nat :=
  length (filter (fun p => role p = r) ps).

(** A participant as [startGame] creates it: exactly one rune, ready. *)
Definition oneReadyRune (p : Player) : Prop :=
  exists r, runes p = [r] /\ currentCooldown r = 0%Z.

(** Every rune of every participant satisfies [P]. *)
Definition allRunes (P : Rune -> Prop) (ps : list Player) : Prop :=
  Forall (fun p => Forall P (runes p)) ps.

(** The roster of [confirmVote] with the tally written in
    [votesAgainst] (the first [map]). *)
Definition talliedRoster (s : GameState) (sel : option string)
    (b : list BotDayAction) : list Player :=
  map (fun p => setVotesAgainst (countOf (player_id p) (tallyVotes s sel b)) p)
      (players s).

(** The same roster once the elimination is applied to it. *)
Definition votedRoster (s : GameState) (sel : option string)
    (b : list BotDayAction) : list Player :=
  if truthy (pickEliminated (tallyVotes s sel b))
  then killFirst (default "" (pickEliminated (tallyVotes s sel b)))
                 (talliedRoster s sel b)
  else talliedRoster s sel b.

(** [p'] is [p] up to [isAlive] and [votesAgainst]. *)
Definition sameButAliveVotes (p p' : Player) : Prop :=
  setIsAlive (isAlive p) (setVotesAgainst (votesAgainst p) p') = p.

(** A well-formed tally: one entry per target id, every number in it at
    least 1. *)
Definition wfTally (l : list (string * Count)) : Prop :=
  NoDup (map fst l) /\ Forall (fun e => forall n, snd e = Num n -> (1 <= n)%Z) l.

(** The keys the tally can hold: never empty, never [__proto__], and
    the name of an inherited member exactly where the value is no
    number. *)
Definition keyOk (e : string * Count) : Prop :=
  fst e <> "" /\ fst e <> "__proto__" /\ (snd e = NotNum <-> inherited (fst e) = true).

(** What the scan of the entries has established after the entries [l]:
    [m] is the largest number seen (0 before any), and the id is set
    exactly when a single entry holds [m]. *)
Definition pickInv (l : list (string * Count)) (acc : option string * Z) : Prop :=
  (0 <= snd acc)%Z /\
  (forall k c, In (k, Num c) l -> (c <= snd acc)%Z) /\
  ((forall k c, ~ In (k, Num c) l) -> snd acc = 0%Z) /\
  match fst acc with
  | Some id =>
      In (id, Num (snd acc)) l /\
      forall k c, In (k, Num c) l -> k <> id -> (c < snd acc)%Z
  | None =>
      (forall k c, ~ In (k, Num c) l) \/
      exists k1 k2, k1 <> k2 /\ In (k1, Num (snd acc)) l /\ In (k2, Num (snd acc)) l
  end.

(** The bounds of a rune's remaining cooldown in a running game. *)
Definition runeBound (r : Rune) : Prop :=
  (0 <= currentCooldown r <= cooldown r + 1)%Z.

(** The rune id whose use the cooldown pass of the night finalizes for
    participant [p]: the user's selected rune, or the rune named by the
    first oracle rune action of [p]. *)
Definition finalizedRune (user : Player) (used : option string)
    (b : BotNightAction) (p : Player) : option string :=
  if (player_id p =? player_id user) && truthy used then used
  else ra_runeId <$> List.find (fun ba => ra_playerId ba =? player_id p) (runeActions b).

(** [p'] has the id and the role of [p]. *)
Definition sameIdRole (p p' : Player) : Prop :=
  player_id p' = player_id p /\ role p' = role p.

(** Every entry of the knowledge map is the role of the participant
    that carries the id. *)
Definition knowledgeOk (s : GameState) : Prop :=
  forall pid r,
    seerKnowledge s !! pid = Some r ->
    role <$> findPlayer pid (players s) = Some r.

(** Some alive participant carries the id [t]. *)
Definition validTargetb (t : string) (ps : list Player) : bool :=
  existsb (fun p => (player_id p =? t) && isAlive p) ps.

(** ** A concrete game used to exercise the statements

    The entropy of the demonstration game: the uuids are the letters
    ["a"], ["b"], ..., the rune draws are 0, 1, 2, ... and neither
    shuffle moves anything. *)
Definition demoEntropy : SetupEntropy :=
  mkEntropy (fun n => String (Ascii.ascii_of_nat (97 + n)) EmptyString)
            (fun n => n) (fun l => l) (fun l => l).

(** The first night of a game the user plays as a werewolf (participant
    ["a"]; the bots are ["c"], ["e"], ..., ["o"] with roles Werewolf,
    Seer, Doctor, Villager, Villager, Villager, Werewolf). *)
Definition demoNight : GameState :=
  setPhase NIGHT_ACTION (tickDown (startGame demoEntropy WEREWOLF)).

Definition demoUser : Player := mkUserPlayer demoEntropy WEREWOLF.

(** The user picks the villager ["i"] with the role action. *)
Definition demoUi : UiState := mkUi (Some "i") ROLE None.

(** The oracle proposes no kill and a save of the seer ["e"]. *)
Definition demoBot : BotNightAction := mkBotNightAction None (Some "e") None [].

(** The state the day intro finds after that night. *)
Definition demoDawn : GameState := resolveNight demoNight demoUser demoUi demoBot.

(** The first vote: the villager ["i"] died in the night. *)
Definition demoDay : GameState := runDayDiscussion (processNightResults demoDawn).

(** The werewolf ["c"] and the doctor ["g"] vote for the seer ["e"], the
    seer votes for ["c"], the others abstain. *)
Definition demoVotes : list BotDayAction :=
  [ mkBotDayAction "c" "It must be the seer." (Some "e");
    mkBotDayAction "e" "I saw something." (Some "c");
    mkBotDayAction "g" "I agree." (Some "e");
    mkBotDayAction "k" "I do not know." None ].

(** The same night, the user casting the rune ["b"] (Lunar Sight, period
    3) on ["i"] instead. *)
Definition demoRuneUi : UiState := mkUi (Some "i") RUNE (Some "b").

Definition demoRuneDawn : GameState :=
  resolveNight demoNight demoUser demoRuneUi demoBot.

(** The oracle's answer [demoBot] with a kill target, ["zz"], that nobody
    carries. *)
Definition ghostBot : BotNightAction := mkBotNightAction (Some "zz") (Some "e") None [].

(** Votes of the bots for the same absent id, and the same votes with
    those proposals dropped. *)
Definition ghostVotes : list BotDayAction :=
  [ mkBotDayAction "c" "Someone is hiding." (Some "zz");
    mkBotDayAction "g" "I agree." (Some "zz");
    mkBotDayAction "k" "I do not know." None ].


Definition ghostVotesDropped : list BotDayAction :=
  [ mkBotDayAction "c" "Someone is hiding." None;
    mkBotDayAction "g" "I agree." None;
    mkBotDayAction "k" "I do not know." None ].

(** The degenerate roster: a werewolf and a villager, both dead. *)
Definition allDeadRoster : list Player :=
  [ mkPlayer "a" "A" WEREWOLF false true "" 0 [];
    mkPlayer "b" "B" VILLAGER false true "" 0 [] ].

(** ** Log events ([addLog] and its callers)

    The session's [logs] only ever grow by [addLog]; what a handler
    appends is the list of its [addLog] calls, each with its text, its
    type and its source. *)

Inductive LogType := narrative | chat | system | action.

Record LogEvent := mkLog {
  log_text : string;
  log_type : LogType;
  log_source : option string
}.

(** The string value of a [Role]. *)
Definition roleName (r : Role) : string :=
  match r with
  | VILLAGER => "Villager"
  | WEREWOLF => "Werewolf"
  | SEER => "Seer"
  | DOCTOR => "Doctor"
  end.



(** [runDayDiscussion]: one chat event per move whose actor is found and
    alive. *)
Definition discussionLog (s : GameState) (move : BotDayAction) : list LogEvent :=
  match findPlayer (bd_playerId move) (players s) with
  | Some player =>
      if isAlive player
      then [mkLog (chatMessage move) chat (Some (player_name player))]
      else []
  | None => []
  end.

Definition discussionLogs (s : GameState) (botMoves : list BotDayAction)
  : list LogEvent :=
  flat_map (discussionLog s) botMoves.

(** [confirmVote]: the event of the user's own vote; a target that no
    participant carries is named [undefined]. *)
Definition userVoteLogs (s : GameState) (sel : option string) : list LogEvent :=
  match sel with
  | Some t =>
      if userAlive s && truthy (Some t)
      then [mkLog ("You voted for "
                   +:+ default "undefined" (player_name <$> findPlayer t (players s)))
                  action (Some "You")]
      else []
  | None => []
  end.

(** [confirmVote]: the events that tell the outcome of the vote (the
    [find] is over the roster that carries the tally). *)
Definition verdictLogs (s : GameState) (sel : option string)
    (botActions : list BotDayAction) : list LogEvent :=
  let eliminatedId := pickEliminated (tallyVotes s sel botActions) in
  if truthy eliminatedId then
    match findPlayer (default "" eliminatedId) (talliedRoster s sel botActions) with
    | Some eliminated =>
        [ mkLog (player_name eliminated +:+ " was voted out by the village.") system None;
          mkLog ("The village has spoken. " +:+ player_name eliminated
                 +:+ " is executed. They were a " +:+ roleName (role eliminated) +:+ ".")
                narrative None ]
    | None => []
    end
  else
    [ mkLog "The village could not agree on who to execute." system None;
      mkLog "The sun sets without an execution. The village trembles." narrative None ].

(** ** The oracle services ([generateBotDayActions],
    [generateBotNightActions])

    The answer of the model is an input: [None] stands for a failed
    request (an exception, or an empty text). *)

(** [generateBotDayActions]: no request at all when no bot is alive. *)
Definition generateBotDayActions (players : list Player)
    (response : option (list BotDayAction)) : list BotDayAction :=
  let aliveBots := List.filter (fun p => isAlive p && isBot p) players in
  if (length aliveBots =? 0)%nat then []
  else default [] response.

(** [alivePlayers[Math.floor(Math.random() * alivePlayers.length)]?.id || null];
    [draw] stands for the random index, which ranges over the indices of
    [alivePlayers] (and is 0 when there are none). *)
Definition randomId (alivePlayers : list Player) (draw : nat) : option string :=
  match nth_error alivePlayers (draw mod length alivePlayers) with
  | Some p => if truthy (Some (player_id p)) then Some (player_id p) else None
  | None => None
  end.

(** The fallback of [generateBotNightActions]. *)
Definition fallbackNightActions (players : list Player) (d1 d2 d3 : nat)
  : BotNightAction :=
  let alivePlayers := List.filter (fun p => isAlive p) players in
  mkBotNightAction (randomId alivePlayers d1) (randomId alivePlayers d2)
                   (randomId alivePlayers d3) [].

Definition generateBotNightActions (players : list Player)
    (response : option BotNightAction) (d1 d2 d3 : nat) : BotNightAction :=
  match response with
  | Some r => r
  | None => fallbackNightActions players d1 d2 d3
  end.

(** ** The component state and its handlers ([toggleRuneMode],
    [handleNightAction], [handleVote], the buttons of the render) *)

(** What the night intro, and the "Role" button, set. *)
Definition resetUi : UiState := mkUi None ROLE None.

Definition toggleRuneMode (rune : Rune) (ui : UiState) : UiState :=
  if (0 <? currentCooldown rune)%Z then ui
  else if opt_eqb (selectedRuneId ui) (Some (rune_id rune))
       then mkUi None ROLE None
       else mkUi None RUNE (Some (rune_id rune)).

(** [handleNightAction] and [handleVote]. *)
Definition selectTarget (targetId : string) (ui : UiState) : UiState :=
  mkUi (Some targetId) (activeActionType ui) (selectedRuneId ui).

(** [setSelectedActionTarget(null); setSelectedRuneId(null)], at the end
    of [confirmNightAction]. *)
Definition afterNightUi (ui : UiState) : UiState :=
  mkUi None (activeActionType ui) None.

(** [setSelectedActionTarget(null)], in the branch of [confirmVote]
    where nobody has won. *)
Definition clearTarget (ui : UiState) : UiState :=
  mkUi None (activeActionType ui) (selectedRuneId ui).

(** [canAct] of the render, for one participant's card. *)
Definition canAct (s : GameState) (ui : UiState) (player : Player) : bool :=
  match userPlayerOf s with
  | Some userPlayer =>
      (if bool_decide (phase s = NIGHT_ACTION) && isAlive userPlayer then
         match activeActionType ui with
         | ROLE =>
             (bool_decide (role userPlayer = WEREWOLF)
              && negb (bool_decide (role player = WEREWOLF)) && isAlive player)
             || (bool_decide (role userPlayer = DOCTOR) && isAlive player)
             || (bool_decide (role userPlayer = SEER) && isAlive player
                 && negb (player_id player =? player_id userPlayer))
         | RUNE =>
             if truthy (selectedRuneId ui) then
               match findRune (default "" (selectedRuneId ui)) (runes userPlayer) with
               | Some rune =>
                   if isAlive player then
                     match rune_type rune with
                     | SHIELD => true
                     | SIGHT => negb (player_id player =? player_id userPlayer)
                     end
                   else false
               | None => false
               end
             else false
         end
       else false)
      || (bool_decide (phase s = DAY_VOTING) && isAlive userPlayer
          && isAlive player && negb (player_id player =? player_id userPlayer))
  | None => false
  end.

(** The action button of a card exists for an alive participant with a
    label, and is enabled when [canAct]; the label is set with [canAct]. *)
Definition clickable (s : GameState) (ui : UiState) (player : Player) : bool :=
  isAlive player && canAct s ui player.

(** The session together with the component state. *)
Record App := mkApp {
  game : GameState;
  ui : UiState
}.

Definition initialApp : App := mkApp initialState resetUi.

(** [confirmVote] found a winner (past its guard, the phase tells). *)
Definition voteUi (s : GameState) (sel : option string)
    (botActions : list BotDayAction) (u : UiState) : UiState :=
  if bool_decide (phase (confirmVote s sel botActions) = GAME_OVER)
  then u else clearTarget u.

(** The events of the application: every button is taken with the
    condition under which the render shows and enables it, every effect
    with the phase that runs it. "Play Again" ([resetGame]) shows with a
    winner only. *)
Inductive appStep : App -> App -> Prop :=
  | app_start e selectedRole a :
      phase (game a) = SETUP -> fairShuffles e ->
      appStep a (mkApp (startGame e selectedRole) (ui a))
  | app_reset a :
      winner (game a) <> None ->
      appStep a (mkApp (resetGame (game a)) (ui a))
  | app_tick a :
      phase (game a) = NIGHT_INTRO ->
      appStep a (mkApp (tickDown (game a)) (ui a))
  | app_night_timer a :
      phase (game a) = NIGHT_INTRO ->
      appStep a (mkApp (setPhase NIGHT_ACTION (game a)) resetUi)
  | app_select a p :
      In p (players (game a)) ->
      clickable (game a) (ui a) p = true ->
      appStep a (mkApp (game a) (selectTarget (player_id p) (ui a)))
  | app_role_mode a :
      phase (game a) = NIGHT_ACTION -> userAlive (game a) = true ->
      appStep a (mkApp (game a) resetUi)
  | app_toggle a user rune :
      phase (game a) = NIGHT_ACTION ->
      userPlayerOf (game a) = Some user -> isAlive user = true ->
      In rune (runes user) -> currentCooldown rune = 0%Z ->
      appStep a (mkApp (game a) (toggleRuneMode rune (ui a)))
  | app_confirm_night a botActions g' :
      phase (game a) = NIGHT_ACTION -> userAlive (game a) = true ->
      truthy (selectedActionTarget (ui a)) = true ->
      confirmNightAction (game a) (ui a) botActions = Some g' ->
      appStep a (mkApp g' (afterNightUi (ui a)))
  | app_day_intro a :
      phase (game a) = DAY_INTRO ->
      appStep a (mkApp (processNightResults (game a)) (ui a))
  | app_discussion a :
      phase (game a) = DAY_DISCUSSION ->
      appStep a (mkApp (runDayDiscussion (game a)) (ui a))
  | app_confirm_vote a botActions :
      phase (game a) = DAY_VOTING -> userAlive (game a) = true ->
      truthy (selectedActionTarget (ui a)) = true ->
      appStep a (mkApp (confirmVote (game a) (selectedActionTarget (ui a)) botActions)
                       (voteUi (game a) (selectedActionTarget (ui a)) botActions (ui a))).

(** The states of a run of the application. *)
Inductive reachableApp : App -> Prop :=
  | reachableApp_init : reachableApp initialApp
  | reachableApp_step a a' : reachableApp a -> appStep a a' -> reachableApp a'.

(** The user has nothing to do at night: dead, or a Villager none of
    whose runes is ready. *)
Definition idleAtNight (s : GameState) : Prop :=
  userAlive s = false \/
  exists user, userPlayerOf s = Some user /\ role user = VILLAGER /\
               Forall (fun r => currentCooldown r <> 0%Z) (runes user).

(** ** Further notions used in the statements *)

(** How many participants are alive. *)
Definition aliveCount (ps : list Player) : nat :=
  length (List.filter (fun p => isAlive p) ps).

(** [p'] is alive only if [p] is. *)
Definition noRevival (p p' : Player) : Prop :=
  isAlive p' = true -> isAlive p = true.

(** [r'] is [r] up to its remaining cooldown. *)
Definition sameRuneIdentity (r r' : Rune) : Prop :=
  setCurrentCooldown (currentCooldown r) r' = r.

(** [p'] is [p] up to [isAlive], [votesAgainst] and the remaining
    cooldowns of its runes. *)
Definition samePlayerIdentity (p p' : Player) : Prop :=
  player_id p' = player_id p /\ player_name p' = player_name p /\
  role p' = role p /\ isBot p' = isBot p /\ avatar p' = avatar p /\
  Forall2 sameRuneIdentity (runes p) (runes p').

(** How many of the oracle's day actions vote for [k]. *)
Definition botVotesFor (k : string) (botActions : list BotDayAction) : nat :=
  length (List.filter (fun a => opt_eqb (voteTargetId a) (Some k)) botActions).

(** How many votes are cast for [k]: those of the oracle's day actions,
    and that of the living user. *)
Definition votesFor (s : GameState) (sel : option string)
    (botActions : list BotDayAction) (k : string) : nat :=
  botVotesFor k botActions + (if userAlive s && opt_eqb sel (Some k) then 1 else 0).

(** [k] is an id whose votes the tally counts: not empty, and not the
    name of a member of [Object.prototype]. *)
Definition counted (k : string) : Prop := k <> "" /\ inherited k = false.

(** The phase order of the running game. *)
Definition phaseNext (ph ph' : Phase) : Prop :=
  match ph with
  | NIGHT_INTRO => ph' = NIGHT_INTRO \/ ph' = NIGHT_ACTION
  | NIGHT_ACTION => ph' = NIGHT_ACTION \/ ph' = DAY_INTRO
  | DAY_INTRO => ph' = DAY_DISCUSSION \/ ph' = GAME_OVER
  | DAY_DISCUSSION => ph' = DAY_VOTING
  | DAY_VOTING => ph' = DAY_VOTING \/ ph' = NIGHT_INTRO \/ ph' = GAME_OVER
  | SETUP | GAME_OVER => False
  end.

(** The position is undecided: some werewolf is alive, and the alive
    werewolves are fewer than the others. *)
Definition undecided (ps : list Player) : Prop :=
  (1 <= aliveWerewolvesOf ps /\ aliveWerewolvesOf ps < aliveVillagersOf ps)%nat.

(** What holds of the session in every state of a run. *)
Definition gameInv (s : GameState) : Prop :=
  (phase s = GAME_OVER <-> winner s <> None) /\
  (winner s = Some Villagers -> aliveWerewolvesOf (players s) = 0%nat) /\
  (winner s = Some Werewolves ->
   (1 <= aliveWerewolvesOf (players s))%nat /\
   (aliveVillagersOf (players s) <= aliveWerewolvesOf (players s))%nat) /\
  (phase s <> SETUP -> phase s <> GAME_OVER -> undecided (players s)) /\
  (phase s = SETUP -> s = initialState) /\
  (phase s <> SETUP -> (1 <= dayCount s)%Z /\ length (players s) = 8%nat) /\
  In (moonPhase s) MOON_PHASES.

(** The oracle has the bot ["c"] cast its rune ["d"] (a Guardian Ward)
    on ["i"]. *)
Definition shieldBot : BotNightAction :=
  mkBotNightAction None None None [mkRuneAction "c" "d" "i"].

(** The roster of [demoNight] with everybody dead and the rune ["d"] on
    cooldown. *)
Definition spentRoster : list Player :=
  map (fun p => setIsAlive false (consumeRunesOf "d" p)) (players demoNight).

(** The selected target is the id of a participant whose card is
    enabled. *)
Definition targetLegal (a : App) : Prop :=
  forall t, selectedActionTarget (ui a) = Some t ->
    exists p, In p (players (game a)) /\ player_id p = t /\
              clickable (game a) (ui a) p = true.

(** The action mode and the selected rune agree, and the selected rune
    is a ready rune of the alive user. *)
Definition modeLegal (a : App) : Prop :=
  (activeActionType (ui a) = ROLE /\ selectedRuneId (ui a) = None) \/
  (activeActionType (ui a) = RUNE /\
   exists user rune, userPlayerOf (game a) = Some user /\ isAlive user = true /\
     In rune (runes user) /\ currentCooldown rune = 0%Z /\
     selectedRuneId (ui a) = Some (rune_id rune)).

(** What holds of the component state in every state of a run. *)
Definition uiInv (a : App) : Prop :=
  match phase (game a) with
  | NIGHT_ACTION => modeLegal a /\ targetLegal a
  | DAY_INTRO | DAY_DISCUSSION =>
      selectedActionTarget (ui a) = None /\ selectedRuneId (ui a) = None
  | DAY_VOTING => selectedRuneId (ui a) = None /\ targetLegal a
  | SETUP | NIGHT_INTRO | GAME_OVER => True
  end.

(** The first night of a game the user plays as a villager. *)
Definition villNight : GameState :=
  setPhase NIGHT_ACTION (tickDown (startGame demoEntropy VILLAGER)).

Definition villUser : Player := mkUserPlayer demoEntropy VILLAGER.

(** The second night of that game: the user cast the rune ["b"] on ["i"]
    in the first night, nobody died in it, and the user's vote alone
    had ["i"] executed. *)
Definition idleApp : App :=
  mkApp (setPhase NIGHT_ACTION
           (tickDown
              (confirmVote
                 (runDayDiscussion
                    (processNightResults
                       (resolveNight villNight villUser demoRuneUi demoBot)))
                 (Some "i") [])))
        resetUi.

(** The user cannot move the game on: at night with nothing to do, or
    dead at the vote. *)
Definition userIdle (s : GameState) : Prop :=
  (phase s = NIGHT_ACTION /\ idleAtNight s) \/
  (phase s = DAY_VOTING /\ userAlive s = false).

(** The two events of a vote that elects nobody, and the two of an
    execution, as [confirmVote] words them. *)
Definition noVerdict : list LogEvent :=
  [ mkLog "The village could not agree on who to execute." system None;
    mkLog "The sun sets without an execution. The village trembles." narrative None ].

Definition verdictOn (p : Player) : list LogEvent :=
  [ mkLog (player_name p +:+ " was voted out by the village.") system None;
    mkLog ("The village has spoken. " +:+ player_name p
           +:+ " is executed. They were a " +:+ roleName (role p) +:+ ".")
          narrative None ].

(** ** Basic facts about the helpers *)

(** The three outcomes of [checkWinCondition], for goals that hold in
    each of them by computation. *)
Ltac case_win :=
  unfold checkWinCondition;
  destruct (_ =? _)%nat; [done |]; by destruct (_ <=? _)%nat.

Lemma derefAll_seq (h1 h2 : Heap) :
  derefAll (h1 ++ h2) (seq (length h1) (length h2)) = h2.
Proof.
  revert h1. induction h2 as [| p h2 IH]; intros h1; [done |].
  cbn [length seq derefAll omap list_omap].
  change (omap (fun r => (h1 ++ p :: h2) !! r) (seq (S (length h1)) (length h2)))
    with (derefAll (h1 ++ p :: h2) (seq (S (length h1)) (length h2))).
  rewrite list_lookup_middle by done.
  replace (h1 ++ p :: h2) with ((h1 ++ [p]) ++ h2) by (by rewrite <- app_assoc).
  replace (S (length h1)) with (length (h1 ++ [p])) by (rewrite length_app; cbn; lia).
  by rewrite IH.
Qed.

Lemma derefAll_arrayOf (h : Heap) : derefAll h (arrayOf h) = h.
Proof. apply (derefAll_seq [] h). Qed.

Lemma findRef_elem (h : Heap) pid a r : findRef h pid a = Some r -> r ∈ a.
Proof.
  induction a as [| x a IH]; cbn; [done |].
  destruct (h !! x) as [p |]; [destruct (player_id p =? pid) |];
    intros H; try (injection H as ->; left); try (right; auto).
Qed.

Lemma markDead_seq (pid : string) (h1 h2 : Heap) :
  derefAll (markDead pid (seq (length h1) (length h2)) (h1 ++ h2))
           (seq (length h1) (length h2)) = killFirst pid h2.
Proof.
  revert h1. induction h2 as [| p h2 IH]; intros h1; [done |].
  unfold markDead. cbn [length seq findRef killFirst].
  rewrite list_lookup_middle by done.
  destruct (player_id p =? pid) eqn:E.
  - replace (alter (setIsAlive false) (length h1) (h1 ++ p :: h2))
      with (h1 ++ setIsAlive false p :: h2).
    + apply (derefAll_seq h1 (setIsAlive false p :: h2)).
    + rewrite alter_app_r_alt by lia. by rewrite Nat.sub_diag.
  - specialize (IH (h1 ++ [p])). unfold markDead in IH.
    rewrite <- app_assoc in IH. cbn [app] in IH.
    rewrite length_app in IH. cbn [length] in IH.
    rewrite Nat.add_1_r in IH.
    cbn [derefAll omap list_omap].
    destruct (findRef (h1 ++ p :: h2) pid (seq (S (length h1)) (length h2))) as [r |] eqn:F.
    + apply findRef_elem in F as Hr. apply elem_of_seq in Hr.
      rewrite list_lookup_alter_ne by lia.
      rewrite list_lookup_middle by done. cbn. f_equal. exact IH.
    + rewrite list_lookup_middle by done. cbn. f_equal. exact IH.
Qed.

Lemma markDead_arrayOf (pid : string) (h : Heap) :
  derefAll (markDead pid (arrayOf h) h) (arrayOf h) = killFirst pid h.
Proof. apply (markDead_seq pid [] h). Qed.

Lemma mark_absent (pid : string) (ps : list Player) :
  pid ∉ map player_id ps ->
  map (fun p => if player_id p =? pid then setIsAlive false p else p) ps = ps.
Proof.
  induction ps as [| q ps IH]; [done |].
  cbn [map]. intros [Hq Hp]%not_elem_of_cons.
  destruct (String.eqb_spec (player_id q) pid); [congruence |].
  f_equal. by apply IH.
Qed.

Lemma killFirst_map (pid : string) (ps : list Player) :
  NoDup (map player_id ps) ->
  killFirst pid ps =
  map (fun p => if player_id p =? pid then setIsAlive false p else p) ps.
Proof.
  induction ps as [| p ps IH]; [done |].
  cbn [map killFirst]. intros [Hp Hnd]%NoDup_cons.
  destruct (String.eqb_spec (player_id p) pid) as [E | Hne].
  - f_equal. symmetry. apply mark_absent. by rewrite <- E.
  - f_equal. by apply IH.
Qed.

Lemma killFirst_absent (pid : string) (ps : list Player) :
  pid ∉ map player_id ps -> killFirst pid ps = ps.
Proof.
  induction ps as [| q ps IH]; [done |].
  cbn [map killFirst]. intros [Hq Hp]%not_elem_of_cons.
  destruct (String.eqb_spec (player_id q) pid); [congruence |].
  f_equal. by apply IH.
Qed.

Lemma killFirst_ids (pid : string) (ps : list Player) :
  map player_id (killFirst pid ps) = map player_id ps.
Proof.
  induction ps as [| q ps IH]; [done |].
  cbn [map killFirst]. destruct (player_id q =? pid); cbn [map]; [done |].
  by rewrite IH.
Qed.

(** Marking an invalid target changes nobody's [isAlive]. *)
Lemma killFirst_invalid (t : string) (ps : list Player) :
  invalidTarget t ps -> map isAlive (killFirst t ps) = map isAlive ps.
Proof.
  induction ps as [| q ps IH]; [done |]. intros Hinv.
  cbn [map killFirst].
  destruct (String.eqb_spec (player_id q) t) as [E | _]; cbn [map].
  - f_equal. cbn. symmetry. apply Hinv; [by left | done].
  - f_equal. apply IH. intros p Hp. apply Hinv. by right.
Qed.

Lemma checkWinCondition_players (ps : list Player) (s : GameState) :
  players (snd (checkWinCondition ps s)) = players s.
Proof.
  case_win.
Qed.

Lemma checkWinCondition_knowledge (ps : list Player) (s : GameState) :
  seerKnowledge (snd (checkWinCondition ps s)) = seerKnowledge s.
Proof.
  case_win.
Qed.

Lemma checkWinCondition_userPlayerId (ps : list Player) (s : GameState) :
  userPlayerId (snd (checkWinCondition ps s)) = userPlayerId s.
Proof.
  case_win.
Qed.

(** The roster that [processNightResults] installs. *)
Lemma processNightResults_players (s : GameState) :
  players (processNightResults s) =
  if truthy (werewolf (targets s))
     && negb (opt_eqb (werewolf (targets s)) (doctor (targets s)))
  then killFirst (default "" (werewolf (targets s))) (players s)
  else players s.
Proof.
  unfold processNightResults. rewrite checkWinCondition_players. cbn.
  destruct (truthy (werewolf (targets s))); cbn; [| apply derefAll_arrayOf].
  destruct (opt_eqb _ _); cbn; [apply derefAll_arrayOf | apply markDead_arrayOf].
Qed.

Lemma truthy_Some (t : string) : truthy (Some t) = true <-> t <> "".
Proof.
  cbn. destruct (String.eqb_spec t ""); cbn; split; intros; congruence.
Qed.

(** Only truthy ids are pushed on [kills]. *)
Lemma nightKills_truthy (user : Player) (ui : UiState) (b : BotNightAction) (t : string) :
  In t (nightKills user ui b) -> truthy (Some t) = true.
Proof.
  unfold nightKills, botKills, userEffect. rewrite in_app_iff. intros [H | H].
  - destruct (werewolfKillTargetId b) as [k |]; [| done].
    destruct (truthy (Some k)) eqn:E; [| done].
    destruct H as [<- | []]. exact E.
  - destruct (selectedActionTarget ui) as [x |]; [| done].
    destruct (isAlive user); cbn [andb] in H; [| done].
    destruct (truthy (Some x)) eqn:E; [| done].
    destruct (activeActionType ui).
    + cbn in H. case_bool_decide; [| done]. destruct H as [<- | []]. exact E.
    + destruct (selectedRuneId ui) as [rid |]; [| done].
      destruct (truthy (Some rid)); [| done].
      by destruct (findRune rid (runes user)).
Qed.

(** The cooldown pass of the night touches runes only. *)
Lemma consumeRunesOf_frame (rid : string) (p : Player) :
  setRunes (runes p) (consumeRunesOf rid p) = p.
Proof. by destruct p. Qed.

Lemma updateCooldowns_frame user used b (p : Player) :
  setRunes (runes p) (updateCooldowns user used b p) = p.
Proof.
  unfold updateCooldowns, botCooldown.
  destruct used as [rid |];
    repeat (match goal with
            | |- context [if ?c then _ else _] => destruct c
            | |- context [match ?c with Some _ => _ | None => _ end] => destruct c
            end);
    by destruct p.
Qed.

Lemma updateCooldowns_isAlive user used b (ps : list Player) :
  map isAlive (map (updateCooldowns user used b) ps) = map isAlive ps.
Proof.
  rewrite map_map. apply map_ext. intros p.
  by rewrite <- (updateCooldowns_frame user used b p) at 2.
Qed.

Lemma updateCooldowns_ids user used b (ps : list Player) :
  map player_id (map (updateCooldowns user used b) ps) = map player_id ps.
Proof.
  rewrite map_map. apply map_ext. intros p.
  by rewrite <- (updateCooldowns_frame user used b p) at 2.
Qed.

Lemma confirmNightAction_resolves s user ui b :
  userPlayerOf s = Some user ->
  negb (truthy (selectedActionTarget ui)) && userAlive s = false ->
  confirmNightAction s ui b = Some (resolveNight s user ui b).
Proof. unfold confirmNightAction. by intros -> ->. Qed.

(** ** Properties of the win evaluation *)

(** C1: the win evaluation reports a Villagers win exactly when no alive
    participant is a werewolf, a Werewolves win exactly when there is at
    least one alive werewolf and the alive werewolves are at least as
    many as the alive non-werewolves, and no winner (state untouched)
    otherwise. *)
Theorem checkWinCondition_spec (ps : list Player) (s : GameState) :
  let w := aliveWerewolvesOf ps in
  let v := aliveVillagersOf ps in
  (checkWinCondition ps s = (true, setWinner Villagers s) <-> w = 0%nat) /\
  (checkWinCondition ps s = (true, setWinner Werewolves s) <-> (1 <= w /\ v <= w)%nat) /\
  (checkWinCondition ps s = (false, s) <-> (1 <= w /\ w < v)%nat).
Proof.
  intros w v. unfold checkWinCondition, setWinner. fold w v.
  destruct (Nat.eqb_spec w 0) as [Hw | Hw];
    [| destruct (Nat.leb_spec v w) as [Hv | Hv]];
    repeat split; intros; try lia; try congruence;
    try (destruct_and?; lia).
Qed.

(** C10: when no alive participant is a werewolf the win evaluation
    declares the Villagers, whatever the number of alive non-werewolves:
    the test for zero werewolves comes first, so neither a Werewolves win
    nor "no winner" can come out, also when everybody is dead. *)
Theorem zero_werewolves_villagers_win (ps : list Player) (s : GameState) :
  aliveWerewolvesOf ps = 0%nat ->
  checkWinCondition ps s = (true, setWinner Villagers s) /\
  checkWinCondition ps s <> (true, setWinner Werewolves s) /\
  checkWinCondition ps s <> (false, s) /\
  winner (snd (checkWinCondition ps s)) = Some Villagers.
Proof.
  intros Hw. unfold checkWinCondition. rewrite Hw. cbn.
  repeat split; [| discriminate]. unfold setWinner. congruence.
Qed.

Lemma zero_werewolves_villagers_win_witness :
  aliveWerewolvesOf allDeadRoster = 0%nat /\
  aliveVillagersOf allDeadRoster = 0%nat /\
  checkWinCondition allDeadRoster initialState
    = (true, setWinner Villagers initialState).
Proof.
  split; [reflexivity |]. split; [reflexivity |].
  apply (zero_werewolves_villagers_win allDeadRoster initialState).
  reflexivity.
Defined.

(** ** Night kill and its application at the day intro *)

Lemma primaryDocTargetOf_spec (saves : list string) (ww : option string) (d : string) :
  primaryDocTargetOf saves ww = Some d <-> ww = Some d /\ In d saves.
Proof.
  unfold primaryDocTargetOf. destruct (existsb _ saves) eqn:E.
  - apply existsb_exists in E as (x & Hx & Hxe).
    apply String.eqb_eq in Hxe as ->. split.
    + intros ->. by split.
    + by intros [-> _].
  - split; [done |]. intros [-> Hin].
    assert (existsb (fun x => x =? default "" (Some d)) saves = true) as E'.
    { apply existsb_exists. exists d. split; [done |]. cbn. apply String.eqb_refl. }
    congruence.
Qed.

Lemma opt_eqb_eq (a b : option string) : opt_eqb a b = true <-> a = b.
Proof.
  destruct a as [x |], b as [y |]; cbn; try (split; congruence).
  rewrite String.eqb_eq. split; congruence.
Qed.

(** C2: on the pair of pending targets that the night resolution leaves:
    the night resolution itself changes nobody's [isAlive]; the recorded
    doctor target is the primary kill target exactly when that id is
    among the protect proposals; at the day intro nobody dies when there
    is no werewolf target or when it equals the doctor target, and
    otherwise the participant carrying the werewolf target's id, and
    nobody else, gets [isAlive = false]. *)
Theorem night_kill_applied_at_day_intro
    (s : GameState) (user : Player) (ui : UiState) (b : BotNightAction) :
  userPlayerOf s = Some user ->
  negb (truthy (selectedActionTarget ui)) && userAlive s = false ->
  NoDup (map player_id (players s)) ->
  let s1 := resolveNight s user ui b in
  let s2 := processNightResults s1 in
  confirmNightAction s ui b = Some s1 /\
  phase s1 = DAY_INTRO /\
  map isAlive (players s1) = map isAlive (players s) /\
  (forall d, doctor (targets s1) = Some d <->
             werewolf (targets s1) = Some d /\
             In d (nightSaves (players s) user ui b)) /\
  (werewolf (targets s1) = None -> players s2 = players s1) /\
  (forall t, werewolf (targets s1) = Some t -> doctor (targets s1) = Some t ->
             players s2 = players s1) /\
  (forall t, werewolf (targets s1) = Some t -> doctor (targets s1) <> Some t ->
             players s2 =
             map (fun p => if player_id p =? t then setIsAlive false p else p)
                 (players s1)).
Proof.
  intros Hu Hg Hnd s1 s2.
  split; [by apply confirmNightAction_resolves |].
  split; [done |].
  split; [apply updateCooldowns_isAlive |].
  split; [intros d; apply primaryDocTargetOf_spec |].
  subst s2. rewrite processNightResults_players.
  split; [by intros -> |].
  split.
  - intros t Hw Hd. rewrite Hw, Hd. cbn [opt_eqb].
    rewrite String.eqb_refl, andb_false_r. done.
  - intros t Hw Hd. rewrite Hw.
    assert (truthy (Some t) = true) as ->.
    { apply (nightKills_truthy user ui b). cbn in Hw.
      unfold primaryWWTargetOf in Hw.
      destruct (nightKills user ui b); [done |]. injection Hw as ->. by left. }
    assert (opt_eqb (Some t) (doctor (targets s1)) = false) as ->.
    { destruct (opt_eqb _ _) eqn:E; [| done].
      apply opt_eqb_eq in E. congruence. }
    cbn [andb negb default]. apply killFirst_map.
    subst s1. cbn [players resolveNight]. by rewrite updateCooldowns_ids.
Qed.

Lemma night_kill_applied_at_day_intro_witness :
  map isAlive (players (processNightResults (resolveNight demoNight demoUser demoUi demoBot)))
  = [true; true; true; true; false; true; true; true].
Proof.
  assert (NoDup (map player_id (players demoNight))) as Hnd.
  { apply (bool_decide_unpack _). vm_compute. reflexivity. }
  pose proof (night_kill_applied_at_day_intro demoNight demoUser demoUi demoBot
                eq_refl eq_refl Hnd) as H.
  cbv zeta in H. destruct H as (_ & _ & _ & _ & _ & _ & H).
  rewrite (H "i"); [reflexivity | reflexivity | discriminate].
Defined.

(** ** Day vote: tally and elimination *)

Lemma setCount_keys (k x : string) (v : Count) (vc : list (string * Count)) :
  In x (map fst (setCount k v vc)) <-> x = k \/ In x (map fst vc).
Proof.
  induction vc as [| [k' c] vc IH]; cbn; [intuition congruence |].
  destruct (String.eqb_spec k' k) as [-> | Hne]; cbn; [intuition congruence |].
  rewrite IH. intuition congruence.
Qed.

Lemma setCount_NoDup (k : string) (v : Count) (vc : list (string * Count)) :
  NoDup (map fst vc) -> NoDup (map fst (setCount k v vc)).
Proof.
  induction vc as [| [k' c] vc IH]; cbn; intros Hnd.
  - apply NoDup_cons. split; [apply not_elem_of_nil | apply NoDup_nil_2].
  - apply NoDup_cons in Hnd as [Hk Hnd].
    destruct (String.eqb_spec k' k) as [-> | Hne]; cbn.
    + apply NoDup_cons. by split.
    + apply NoDup_cons. split; [| by apply IH].
      rewrite list_elem_of_In, setCount_keys, <- list_elem_of_In.
      intros [E | Hin]; [congruence | done].
Qed.

Lemma setCount_Forall (P : string * Count -> Prop) (k : string) (v : Count)
    (vc : list (string * Count)) :
  P (k, v) -> Forall P vc -> Forall P (setCount k v vc).
Proof.
  intros Hk. induction 1 as [| [k' c] vc Hc Hvc IH]; cbn.
  - by repeat constructor.
  - destruct (String.eqb_spec k' k) as [-> | _]; constructor; auto.
Qed.

Lemma ownCount_setCount (k k' : string) (v : Count) (vc : list (string * Count)) :
  ownCount k (setCount k' v vc) = if k' =? k then Some v else ownCount k vc.
Proof.
  induction vc as [| [x c] vc IH]; cbn; [done |].
  destruct (String.eqb_spec x k') as [-> | Hne]; cbn.
  - by destruct (k' =? k).
  - destruct (String.eqb_spec x k) as [-> | _]; [| exact IH].
    by destruct (String.eqb_spec k' k); [congruence |].
Qed.

Lemma ownCount_In (l : list (string * Count)) (k : string) (c : Count) :
  NoDup (map fst l) -> In (k, c) l -> ownCount k l = Some c.
Proof.
  induction l as [| [k' c'] l IH]; [done |].
  cbn. intros [Hk Hnd]%NoDup_cons [E | Hin].
  - injection E as -> ->. by rewrite String.eqb_refl.
  - destruct (String.eqb_spec k' k) as [-> | _]; [| by apply IH].
    exfalso. apply Hk. apply list_elem_of_In. apply (in_map fst _ _ Hin).
Qed.

Lemma ownCount_Some (l : list (string * Count)) (k : string) (c : Count) :
  ownCount k l = Some c -> In (k, c) l.
Proof.
  induction l as [| [k' c'] l IH]; [done |]. cbn.
  destruct (String.eqb_spec k' k) as [-> | _]; [intros [= ->]; by left | right; auto].
Qed.

Lemma ownCount_None (l : list (string * Count)) (k : string) :
  (forall c, ~ In (k, c) l) -> ownCount k l = None.
Proof.
  intros H. destruct (ownCount k l) as [c |] eqn:E; [| done].
  by apply ownCount_Some, H in E.
Qed.

Lemma countOf_In (l : list (string * Count)) (k : string) (c : Count) :
  NoDup (map fst l) -> In (k, c) l -> countOf k l = c.
Proof. intros Hnd Hin. unfold countOf. by rewrite (ownCount_In l k c Hnd Hin). Qed.

(** What [voteCounts[k] || 0] is, by the kind of [k]. *)
Lemma countOf_kind (k : string) (vc : list (string * Count)) :
  wfTally vc -> Forall keyOk vc ->
  (countOf k vc = NotNum <-> inherited k = true) /\
  (forall n, countOf k vc = Num n -> (0 <= n)%Z).
Proof.
  intros [_ Hpos] Hkeys. unfold countOf.
  destruct (ownCount k vc) as [c |] eqn:E.
  - apply ownCount_Some, list_elem_of_In in E.
    rewrite Forall_forall in Hpos, Hkeys.
    destruct (Hkeys _ E) as (_ & _ & Hkind). split; [exact Hkind |].
    intros n ->. specialize (Hpos _ E n eq_refl). lia.
  - destruct (inherited k); split; try done; intros n [= <-]; lia.
Qed.

Lemma castVote_ok (k : string) (vc : list (string * Count)) :
  k <> "" -> wfTally vc -> Forall keyOk vc ->
  wfTally (castVote k vc) /\ Forall keyOk (castVote k vc).
Proof.
  intros Hk Hwf Hkeys. unfold castVote.
  destruct (String.eqb_spec k "__proto__") as [| Hp]; [done |].
  destruct (countOf_kind k vc Hwf Hkeys) as [Hkind Hnum].
  destruct Hwf as [Hnd Hpos]. split; [split |].
  - by apply setCount_NoDup.
  - apply setCount_Forall; [| done]. cbn. intros n.
    destruct (countOf k vc) as [m |]; [| done]. intros [= <-].
    specialize (Hnum m eq_refl). lia.
  - apply setCount_Forall; [| done]. split; [done |]. split; [done |]. cbn.
    rewrite <- Hkind. by destruct (countOf k vc).
Qed.

Lemma castBotVote_ok (a : BotDayAction) (vc : list (string * Count)) :
  wfTally vc -> Forall keyOk vc ->
  wfTally (castBotVote vc a) /\ Forall keyOk (castBotVote vc a).
Proof.
  intros Hwf Hkeys. unfold castBotVote.
  destruct (voteTargetId a) as [t |]; [| done].
  destruct (truthy (Some t)) eqn:E; [| done].
  apply castVote_ok; [by apply truthy_Some | done | done].
Qed.

Lemma botVotes_ok (b : list BotDayAction) (vc : list (string * Count)) :
  wfTally vc -> Forall keyOk vc ->
  wfTally (fold_left castBotVote b vc) /\ Forall keyOk (fold_left castBotVote b vc).
Proof.
  revert vc. induction b as [| a b IH]; intros vc Hwf Hkeys; [done |].
  cbn [fold_left]. by apply IH; apply castBotVote_ok.
Qed.

Lemma wfTally_nil : wfTally [] /\ Forall keyOk [].
Proof. repeat split; constructor. Qed.

(** The tally of a vote is well formed, with the keys it can have. *)
Lemma tallyVotes_wf (s : GameState) (sel : option string) (b : list BotDayAction) :
  wfTally (tallyVotes s sel b) /\ Forall keyOk (tallyVotes s sel b).
Proof.
  unfold tallyVotes.
  destruct (botVotes_ok b [] (proj1 wfTally_nil) (proj2 wfTally_nil)) as [Hwf Hkeys].
  destruct sel as [t |]; [| done].
  destruct (userAlive s); cbn [andb]; [| done].
  destruct (truthy (Some t)) eqn:E; [| done].
  apply castVote_ok; [by apply truthy_Some | done | done].
Qed.

(** A vote for [k'] adds one to the value of [k'], and touches no other. *)
Lemma countOf_castVote (k k' : string) (vc : list (string * Count)) :
  Forall keyOk vc ->
  countOf k (castVote k' vc) = if k' =? k then plusOne (countOf k vc) else countOf k vc.
Proof.
  intros Hkeys. unfold castVote.
  destruct (String.eqb_spec k' "__proto__") as [-> | Hp].
  - destruct (String.eqb_spec "__proto__" k) as [<- | _]; [| done].
    unfold countOf. rewrite ownCount_None; [done |].
    intros c Hin%list_elem_of_In. rewrite Forall_forall in Hkeys.
    by destruct (Hkeys _ Hin) as (_ & ? & _).
  - unfold countOf at 1. rewrite ownCount_setCount.
    destruct (String.eqb_spec k' k) as [-> | _]; [| done].
    by destruct (plusOne (countOf k vc)).
Qed.

Lemma countOf_botVotes (k : string) (b : list BotDayAction) (vc : list (string * Count)) :
  k <> "" -> wfTally vc -> Forall keyOk vc ->
  countOf k (fold_left castBotVote b vc) = Nat.iter (botVotesFor k b) plusOne (countOf k vc).
Proof.
  intros Hk. unfold botVotesFor. revert vc.
  induction b as [| a b IH]; intros vc Hwf Hkeys; cbn [fold_left List.filter length];
    [done |].
  destruct (castBotVote_ok a vc Hwf Hkeys) as [Hwf' Hkeys'].
  rewrite IH by done. unfold castBotVote.
  destruct (voteTargetId a) as [t |]; cbn [opt_eqb]; [| done].
  destruct (String.eqb_spec t k) as [-> | Hne].
  - apply truthy_Some in Hk. rewrite Hk, countOf_castVote, String.eqb_refl by done.
    cbn [length]. by rewrite Nat.iter_succ_r.
  - destruct (truthy (Some t)); [| done]. rewrite countOf_castVote by done.
    by destruct (String.eqb_spec t k).
Qed.

Lemma iter_plusOne_Num (n : nat) (z : Z) :
  Nat.iter n plusOne (Num z) = Num (z + Z.of_nat n).
Proof.
  induction n as [| n IH]; [cbn; f_equal; lia |].
  rewrite Nat.iter_succ, IH. cbn. f_equal. lia.
Qed.

Lemma iter_plusOne_NotNum (n : nat) : Nat.iter n plusOne NotNum = NotNum.
Proof. induction n as [| n IH]; [done |]. by rewrite Nat.iter_succ, IH. Qed.

(** The value the tally gives [k]: that of the empty object, with one
    added for every vote for [k]. *)
Lemma countOf_tallyVotes (s : GameState) (sel : option string) (b : list BotDayAction)
    (k : string) :
  k <> "" ->
  countOf k (tallyVotes s sel b) = Nat.iter (votesFor s sel b k) plusOne (countOf k []).
Proof.
  intros Hk. unfold tallyVotes, votesFor.
  destruct (botVotes_ok b [] (proj1 wfTally_nil) (proj2 wfTally_nil)) as [Hwf Hkeys].
  pose proof (countOf_botVotes k b [] Hk (proj1 wfTally_nil) (proj2 wfTally_nil)) as Hb.
  destruct sel as [t |]; cbn [opt_eqb]; [| by rewrite andb_false_r, Nat.add_0_r].
  destruct (userAlive s); cbn [andb]; [| by rewrite Nat.add_0_r].
  destruct (String.eqb_spec t k) as [-> | Hne].
  - apply truthy_Some in Hk as Ht.
    rewrite Ht, countOf_castVote, String.eqb_refl, Hb by done.
    by rewrite Nat.add_1_r, Nat.iter_succ.
  - rewrite Nat.add_0_r. destruct (truthy (Some t)); [| done].
    rewrite countOf_castVote by done. by destruct (String.eqb_spec t k).
Qed.

Lemma tally_counted (s : GameState) (sel : option string) (b : list BotDayAction)
    (k : string) :
  counted k -> countOf k (tallyVotes s sel b) = Num (Z.of_nat (votesFor s sel b k)).
Proof.
  intros [Hk Hi]. rewrite countOf_tallyVotes by done.
  unfold countOf. cbn [ownCount]. rewrite Hi. by rewrite iter_plusOne_Num.
Qed.

Lemma inherited_nonempty (k : string) : inherited k = true -> k <> "".
Proof. by intros H ->. Qed.

Lemma tally_inherited (s : GameState) (sel : option string) (b : list BotDayAction)
    (k : string) :
  inherited k = true -> countOf k (tallyVotes s sel b) = NotNum.
Proof.
  intros Hi. rewrite countOf_tallyVotes by (by apply inherited_nonempty).
  unfold countOf. cbn [ownCount]. rewrite Hi. apply iter_plusOne_NotNum.
Qed.

(** The numbers of the tally: the counted ids that got a vote, each with
    the number of its votes. *)
Lemma tally_entry (s : GameState) (sel : option string) (b : list BotDayAction)
    (k : string) (n : Z) :
  In (k, Num n) (tallyVotes s sel b) <->
  counted k /\ n = Z.of_nat (votesFor s sel b k) /\ (1 <= n)%Z.
Proof.
  destruct (tallyVotes_wf s sel b) as [[Hnd Hpos] Hkeys]. split.
  - intros Hin. pose proof (countOf_In _ _ _ Hnd Hin) as Hc.
    apply list_elem_of_In in Hin. rewrite Forall_forall in Hpos, Hkeys.
    destruct (Hkeys _ Hin) as (Hk & _ & Hkind). cbn in Hk, Hkind.
    assert (counted k) as Hcounted.
    { split; [done |]. destruct (inherited k); [| done].
      by destruct Hkind as [_ H]; discriminate H. }
    split; [done |]. split; [| by apply (Hpos _ Hin)].
    rewrite tally_counted in Hc by done. by injection Hc.
  - intros (Hcounted & -> & Hn). pose proof (tally_counted s sel b k Hcounted) as Hc.
    unfold countOf in Hc. destruct (ownCount k _) as [c |] eqn:E.
    + subst c. by apply ownCount_Some.
    + destruct (inherited k); [done |]. injection Hc as Hc. lia.
Qed.

Lemma in_app_Num (l : list (string * Count)) (id k : string) (c : Z) :
  In (k, Num c) (l ++ [(id, NotNum)]) <-> In (k, Num c) l.
Proof.
  rewrite in_app_iff. split; [| by left].
  intros [H | [[=] | []]]. exact H.
Qed.

Lemma pickStep_inv (l : list (string * Count)) (acc : option string * Z)
    (e : string * Count) :
  wfTally (l ++ [e]) -> pickInv l acc -> pickInv (l ++ [e]) (pickStep acc e).
Proof.
  destruct acc as [el m], e as [id [count |]]; intros [Hnd Hpos] (Hm & Hmax & Hnil & Hel);
    cbn [fst snd] in *.
  2: { unfold pickStep, pickInv. cbn [fst snd]. split; [done |].
       split; [intros k c Hin%in_app_Num; by apply (Hmax k) |].
       split; [intros Hno; apply Hnil; intros k c Hin; apply (Hno k c), in_app_Num, Hin |].
       destruct el as [id0 |].
       - destruct Hel as [Hin0 Hothers]. split; [by apply in_app_Num |].
         intros k c Hin%in_app_Num. by apply Hothers.
       - destruct Hel as [Hno | (k1 & k2 & Hk & H1 & H2)].
         + left. intros k c Hin%in_app_Num. by apply (Hno k c).
         + right. exists k1, k2. repeat split; [done | |]; by apply in_app_Num. }
  assert (1 <= count)%Z as Hc.
  { apply Forall_app in Hpos as [_ Hpos]. apply Forall_cons in Hpos as [Hpos _].
    by apply (Hpos count). }
  assert (forall c, ~ In (id, c) l) as Hfresh.
  { intros c Hin. rewrite map_app in Hnd. apply NoDup_app in Hnd as (_ & Hdis & _).
    apply (Hdis id); [| by left].
    apply list_elem_of_In. apply (in_map fst _ _ Hin). }
  assert (~ (forall k c, ~ In (k, Num c) (l ++ [(id, Num count)]))) as Hsome.
  { intros Hno. apply (Hno id count), in_app_iff. right. by left. }
  unfold pickStep, pickInv.
  destruct (Z.ltb_spec m count) as [Hlt | Hge]; cbn [fst snd].
  - split; [lia |]. split; [| split; [done |]].
    + intros k c [Hin | [E | []]]%in_app_iff; [apply Hmax in Hin; lia |].
      injection E as _ <-. lia.
    + split; [apply in_app_iff; right; by left |].
      intros k c [Hin | [E | []]]%in_app_iff Hk; [apply Hmax in Hin; lia | congruence].
  - destruct (Z.eqb_spec count m) as [-> | Hne]; cbn [fst snd].
    + split; [lia |]. split; [| split; [done |]].
      * intros k c [Hin | [E | []]]%in_app_iff; [by apply Hmax in Hin |].
        injection E as _ <-. lia.
      * right. destruct el as [id0 |].
        -- destruct Hel as [Hin0 _]. exists id0, id. repeat split.
           ++ intros ->. by apply (Hfresh (Num m)).
           ++ apply in_app_iff. by left.
           ++ apply in_app_iff. right. by left.
        -- destruct Hel as [Hno | (k1 & k2 & Hk & H1 & H2)].
           ++ specialize (Hnil Hno). lia.
           ++ exists k1, k2. repeat split; [done | |]; apply in_app_iff; by left.
    + split; [lia |]. split; [| split; [done |]].
      * intros k c [Hin | [E | []]]%in_app_iff; [by apply Hmax in Hin |].
        injection E as _ <-. lia.
      * destruct el as [id0 |].
        -- destruct Hel as [Hin0 Hothers]. split; [apply in_app_iff; by left |].
           intros k c [Hin | [E | []]]%in_app_iff Hk; [by apply (Hothers k) |].
           injection E as _ <-. lia.
        -- right. destruct Hel as [Hno | (k1 & k2 & Hk & H1 & H2)].
           ++ specialize (Hnil Hno). lia.
           ++ exists k1, k2. repeat split; [done | |]; apply in_app_iff; by left.
Qed.

Lemma wfTally_app_l (l l' : list (string * Count)) : wfTally (l ++ l') -> wfTally l.
Proof.
  intros [Hnd Hpos]. split.
  - rewrite map_app in Hnd. by apply NoDup_app in Hnd as (? & _ & _).
  - by apply Forall_app in Hpos as [? _].
Qed.

Lemma pickEliminated_inv (l : list (string * Count)) :
  wfTally l -> pickInv l (fold_left pickStep l (None, 0%Z)).
Proof.
  induction l as [| e l IH] using rev_ind; intros Hwf.
  - unfold pickInv. cbn. repeat split; [lia | intros ? ? [] | left; intros ? ? []].
  - rewrite fold_left_app. cbn [fold_left].
    apply pickStep_inv; [done |]. apply IH. by apply wfTally_app_l in Hwf.
Qed.

(** What the scan returns on a well-formed tally. *)
Section WellFormedTally.

Variable l : list (string * Count).
Hypothesis Hwf : wfTally l.

(** The scan elects [id] exactly when [id] alone holds the largest
    number. *)
Lemma pickEliminated_Some (id : string) :
  pickEliminated l = Some id <->
  exists c, In (id, Num c) l /\ forall k c', In (k, Num c') l -> k <> id -> (c' < c)%Z.
Proof.
  pose proof (pickEliminated_inv l Hwf) as (Hm & Hmax & Hnil & Hel).
  unfold pickEliminated. destruct (fold_left pickStep l (None, 0%Z)) as [el m].
  cbn [fst snd] in *. split.
  - intros ->. exists m. exact Hel.
  - intros (c & Hin & Huniq). destruct el as [id' |].
    + destruct Hel as [Hin' Huniq'].
      destruct (decide (id' = id)) as [-> | Hne]; [done |].
      pose proof (Huniq _ _ Hin' Hne).
      pose proof (Huniq' _ _ Hin ltac:(congruence)). lia.
    + destruct Hel as [Hno | (k1 & k2 & Hk & H1 & H2)]; [by apply Hno in Hin |].
      pose proof (Hmax _ _ Hin).
      destruct (decide (k1 = id)) as [-> | Hne].
      * pose proof (Huniq _ _ H2 ltac:(congruence)). lia.
      * pose proof (Huniq _ _ H1 Hne). lia.
Qed.

Lemma pickEliminated_key (id : string) :
  pickEliminated l = Some id -> In id (map fst l).
Proof.
  intros (c & Hin & _)%pickEliminated_Some. apply (in_map fst _ _ Hin).
Qed.



End WellFormedTally.



(** [confirmVote] past its guard, with the object store read out. *)
Lemma confirmVote_unfold (s : GameState) (sel : option string) (b : list BotDayAction) :
  negb (truthy sel) && userAlive s = false ->
  confirmVote s sel b =
  let ps := votedRoster s sel b in
  let ps0 := map (setVotesAgainst 0) ps in
  if fst (checkWinCondition ps0 (setPlayers ps s))
  then snd (checkWinCondition ps0 (setPlayers ps s))
  else mkGameState ps0 NIGHT_INTRO (dayCount s + 1)%Z (moonPhase s) (winner s)
                   (userPlayerId s) noTargets (seerKnowledge s).
Proof.
  intros Hg. unfold confirmVote. rewrite Hg.
  assert (derefAll
            (if truthy (pickEliminated (tallyVotes s sel b))
             then markDead (default "" (pickEliminated (tallyVotes s sel b)))
                    (arrayOf (talliedRoster s sel b)) (talliedRoster s sel b)
             else talliedRoster s sel b)
            (arrayOf (talliedRoster s sel b)) = votedRoster s sel b) as Hd.
  { unfold votedRoster. destruct (truthy (pickEliminated _));
      [apply markDead_arrayOf | apply derefAll_arrayOf]. }
  fold (talliedRoster s sel b). cbv zeta. rewrite Hd.
  case_win.
Qed.

Lemma killFirst_frame (pid : string) (ps : list Player) :
  Forall2 sameButAliveVotes ps (killFirst pid ps).
Proof.
  induction ps as [| p ps IH]; cbn; [constructor |].
  destruct (player_id p =? pid); constructor; try done;
    try (by destruct p); apply Forall2_same_length_lookup_2; [done |];
    intros i x y Hx Hy; assert (x = y) as -> by congruence; by destruct y.
Qed.

Lemma votedRoster_frame (s : GameState) (sel : option string) (b : list BotDayAction) :
  Forall2 sameButAliveVotes (players s) (votedRoster s sel b).
Proof.
  assert (Forall2 sameButAliveVotes (players s) (talliedRoster s sel b)) as Ht.
  { unfold talliedRoster. apply Forall2_fmap_r, Forall_Forall2_diag, Forall_forall.
    intros p _. by destruct p. }
  unfold votedRoster. destruct (truthy _); [| done].
  pose proof (killFirst_frame (default "" (pickEliminated (tallyVotes s sel b)))
                (talliedRoster s sel b)) as Hk.
  revert Ht Hk. generalize (killFirst (default "" (pickEliminated (tallyVotes s sel b)))
                               (talliedRoster s sel b)) as ks.
  generalize (talliedRoster s sel b) as ts. generalize (players s) as ps.
  induction ps as [| p ps IH]; intros ts ks Ht Hk.
  - apply Forall2_nil_inv_l in Ht as ->. by apply Forall2_nil_inv_l in Hk as ->.
  - apply Forall2_cons_inv_l in Ht as (t & ts' & Hpt & Ht & ->).
    apply Forall2_cons_inv_l in Hk as (k & ks' & Htk & Hk & ->).
    constructor; [| by eapply IH].
    unfold sameButAliveVotes, setIsAlive, setVotesAgainst in *.
    destruct p, t, k. cbn in *. injection Hpt as -> -> -> -> -> ->.
    by injection Htk as -> -> -> -> -> ->.
Qed.

Lemma votedRoster_ids (s : GameState) (sel : option string) (b : list BotDayAction) :
  map player_id (votedRoster s sel b) = map player_id (players s).
Proof.
  assert (map player_id (talliedRoster s sel b) = map player_id (players s)) as Ht.
  { unfold talliedRoster. rewrite map_map. by apply map_ext. }
  unfold votedRoster. destruct (truthy _); [| done]. by rewrite killFirst_ids.
Qed.

(** The [isAlive] column after the vote, whether or not the game ends. *)
Lemma confirmVote_isAlive (s : GameState) (sel : option string) (b : list BotDayAction) :
  negb (truthy sel) && userAlive s = false ->
  map isAlive (players (confirmVote s sel b)) = map isAlive (votedRoster s sel b).
Proof.
  intros Hg. rewrite confirmVote_unfold by done. cbv zeta.
  destruct (fst _).
  - by rewrite checkWinCondition_players.
  - cbn. rewrite map_map. by apply map_ext.
Qed.

Lemma tallied_isAlive (s : GameState) (sel : option string) (b : list BotDayAction) :
  map isAlive (talliedRoster s sel b) = map isAlive (players s).
Proof. unfold talliedRoster. rewrite map_map. by apply map_ext. Qed.

Lemma tallied_ids (s : GameState) (sel : option string) (b : list BotDayAction) :
  map player_id (talliedRoster s sel b) = map player_id (players s).
Proof. unfold talliedRoster. rewrite map_map. by apply map_ext. Qed.


(** ** The demonstration game is a run of the program *)

Lemma fairShuffles_demo : fairShuffles demoEntropy.
Proof. split; intros l; reflexivity. Qed.

Lemma reachable_demoNight : reachable demoNight.
Proof.
  eapply reachable_step; [| apply step_play, play_night_timer; reflexivity].
  eapply reachable_step; [| apply step_play, play_tick; reflexivity].
  eapply reachable_step; [apply reachable_init |].
  apply step_start; [reflexivity | apply fairShuffles_demo].
Qed.

Lemma reachable_demoDawn : reachable demoDawn.
Proof.
  eapply reachable_step; [apply reachable_demoNight |].
  apply step_play, (play_night demoNight demoUi demoBot); reflexivity.
Qed.

Lemma reachable_demoRuneDawn : reachable demoRuneDawn.
Proof.
  eapply reachable_step; [apply reachable_demoNight |].
  apply step_play, (play_night demoNight demoRuneUi demoBot); reflexivity.
Qed.

Lemma reachable_demoDay : reachable demoDay.
Proof.
  eapply reachable_step; [| apply step_play, play_discussion; reflexivity].
  eapply reachable_step; [apply reachable_demoDawn |].
  apply step_play, play_day_intro; reflexivity.
Qed.



(** ** Vote accumulators *)

Lemma sameButAliveVotes_refl (ps : list Player) : Forall2 sameButAliveVotes ps ps.
Proof. apply Forall_Forall2_diag, Forall_forall. intros p _. by destruct p. Qed.

Lemma resetVotes_frame (ps ps' : list Player) :
  Forall2 sameButAliveVotes ps ps' ->
  Forall2 sameButAliveVotes ps (map (setVotesAgainst 0) ps').
Proof.
  intros H. apply Forall2_fmap_r. eapply Forall2_impl; [exact H |].
  intros p p' Hp. unfold sameButAliveVotes in *. by destruct p, p'.
Qed.

(** The day resolver leaves every field but [isAlive] and [votesAgainst]. *)
Lemma confirmVote_frame (s : GameState) (sel : option string) (b : list BotDayAction) :
  Forall2 sameButAliveVotes (players s) (players (confirmVote s sel b)).
Proof.
  destruct (negb (truthy sel) && userAlive s) eqn:Hg.
  - unfold confirmVote. rewrite Hg. apply sameButAliveVotes_refl.
  - rewrite confirmVote_unfold by done. cbv zeta. destruct (fst _).
    + rewrite checkWinCondition_players. apply votedRoster_frame.
    + cbn. apply resetVotes_frame, votedRoster_frame.
Qed.

Lemma confirmVote_phase (s : GameState) (sel : option string) (b : list BotDayAction) :
  negb (truthy sel) && userAlive s = false ->
  let ps0 := map (setVotesAgainst 0) (votedRoster s sel b) in
  phase (confirmVote s sel b) =
  if fst (checkWinCondition ps0 (setPlayers (votedRoster s sel b) s))
  then GAME_OVER else NIGHT_INTRO.
Proof.
  intros Hg. rewrite confirmVote_unfold by done. cbv zeta.
  case_win.
Qed.

(** C7: the day resolver changes no field of a participant other than
    [isAlive] and [votesAgainst], and when the vote does not end the game
    the session enters the next night with every [votesAgainst] at 0;
    but when the vote ends the game the reset roster is not stored: the
    demonstration vote (a run of the program) ends in [GAME_OVER] with
    the tally still in [votesAgainst]. *)
Theorem confirmVote_votesAgainst :
  (forall s sel b,
      Forall2 sameButAliveVotes (players s) (players (confirmVote s sel b))) /\
  (forall s sel b,
      negb (truthy sel) && userAlive s = false ->
      phase (confirmVote s sel b) <> GAME_OVER ->
      Forall (fun p => votesAgainst p = 0%Z) (players (confirmVote s sel b))) /\
  (reachable demoDay /\
   phase demoDay = DAY_VOTING /\
   phase (confirmVote demoDay (Some "e") demoVotes) = GAME_OVER /\
   winner (confirmVote demoDay (Some "e") demoVotes) = Some Werewolves /\
   map votesAgainst (players (confirmVote demoDay (Some "e") demoVotes))
   = map Num [0; 1; 3; 0; 0; 0; 0; 0]%Z).
Proof.
  split; [apply confirmVote_frame |]. split.
  - intros s sel b Hg Hph. rewrite confirmVote_phase in Hph by done.
    rewrite confirmVote_unfold by done. cbv zeta in *.
    destruct (fst _); [done |]. cbn.
    apply Forall_forall. intros p (q & -> & _)%list_elem_of_fmap. done.
  - split; [apply reachable_demoDay |]. by vm_compute.
Qed.

(** ** Rune cooldowns *)

Lemma tickRune_bound (r : Rune) : runeBound r -> runeBound (tickRune r).
Proof. unfold runeBound, tickRune. cbn. lia. Qed.

Lemma consumeRune_bound (rid : string) (r : Rune) :
  runeBound r -> runeBound (consumeRune rid r).
Proof.
  unfold runeBound, consumeRune. destruct (rune_id r =? rid); cbn; lia.
Qed.

Lemma allRunes_map (f : Player -> Player) (g : Rune -> Rune) (ps : list Player) :
  (forall p, runes (f p) = runes p \/ runes (f p) = map g (runes p)) ->
  (forall r, runeBound r -> runeBound (g r)) ->
  allRunes runeBound ps -> allRunes runeBound (map f ps).
Proof.
  intros Hf Hg Hps. unfold allRunes in *. apply Forall_fmap.
  eapply Forall_impl; [exact Hps |]. intros p Hp. cbn.
  destruct (Hf p) as [-> | ->]; [done |].
  apply Forall_fmap. eapply Forall_impl; [exact Hp |]. intros r. apply Hg.
Qed.

Lemma allRunes_frame (ps ps' : list Player) :
  Forall2 (fun p p' => runes p' = runes p) ps ps' ->
  allRunes runeBound ps -> allRunes runeBound ps'.
Proof.
  unfold allRunes. induction 1 as [| p p' ps ps' Hr _ IH]; [done |].
  intros [Hp Hps]%Forall_cons. constructor; [by rewrite Hr | by apply IH].
Qed.

Lemma killFirst_runes (pid : string) (ps : list Player) :
  Forall2 (fun p p' => runes p' = runes p) ps (killFirst pid ps).
Proof.
  eapply Forall2_impl; [apply killFirst_frame |].
  intros p p' Hp. unfold sameButAliveVotes in Hp. by destruct p, p'; injection Hp.
Qed.

Lemma tickDown_bound (s : GameState) :
  allRunes runeBound (players s) -> allRunes runeBound (players (tickDown s)).
Proof.
  cbn. apply (allRunes_map tickPlayer tickRune); [by right | apply tickRune_bound].
Qed.

Lemma updateCooldowns_runes user used b (p : Player) :
  runes (updateCooldowns user used b p) =
  match finalizedRune user used b p with
  | Some rid => map (consumeRune rid) (runes p)
  | None => runes p
  end.
Proof.
  unfold updateCooldowns, finalizedRune, botCooldown.
  destruct used as [rid |]; cbn [truthy].
  - destruct ((player_id p =? player_id user) && negb (rid =? "")); [done |].
    by destruct (List.find _ _).
  - rewrite andb_false_r. by destruct (List.find _ _).
Qed.

Lemma resolveNight_bound s user ui b :
  allRunes runeBound (players s) ->
  allRunes runeBound (players (resolveNight s user ui b)).
Proof.
  cbn. unfold allRunes. intros Hps. apply Forall_fmap.
  eapply Forall_impl; [exact Hps |]. intros p Hp. cbn.
  rewrite updateCooldowns_runes. destruct (finalizedRune _ _ _ _); [| done].
  apply Forall_fmap. eapply Forall_impl; [exact Hp |].
  intros r. apply consumeRune_bound.
Qed.

Lemma processNightResults_bound (s : GameState) :
  allRunes runeBound (players s) ->
  allRunes runeBound (players (processNightResults s)).
Proof.
  rewrite processNightResults_players. destruct (_ && _); [| done].
  apply allRunes_frame, killFirst_runes.
Qed.

Lemma confirmVote_bound s sel b :
  allRunes runeBound (players s) ->
  allRunes runeBound (players (confirmVote s sel b)).
Proof.
  apply allRunes_frame. eapply Forall2_impl; [apply confirmVote_frame |].
  intros p p' Hp. unfold sameButAliveVotes in Hp. by destruct p, p'; injection Hp.
Qed.

Lemma getRandomRune_bound (draw : nat) (u : string) :
  runeBound (getRandomRune draw u) /\ currentCooldown (getRandomRune draw u) = 0%Z.
Proof.
  unfold getRandomRune, runeBound.
  assert (draw mod length AVAILABLE_RUNES < 3)%nat as Hlt
    by (apply Nat.mod_upper_bound; discriminate).
  destruct (draw mod length AVAILABLE_RUNES)%nat as [| [| [| n]]]; cbn; lia.
Qed.

Lemma startGame_bound (e : SetupEntropy) (selectedRole : Role) :
  fairShuffles e -> allRunes runeBound (players (startGame e selectedRole)).
Proof.
  intros [_ Hsh]. cbn. unfold allRunes. rewrite (Hsh _).
  constructor.
  - cbn. constructor; [apply getRandomRune_bound | constructor].
  - apply Forall_forall. intros p Hp.
    apply elem_of_lookup_imap in Hp as (i & r & -> & _). cbn.
    constructor; [apply getRandomRune_bound | constructor].
Qed.

Lemma playStep_bound (s s' : GameState) :
  playStep s s' -> allRunes runeBound (players s) -> allRunes runeBound (players s').
Proof.
  intros Hstep Hs. destruct Hstep as [s _ | s _ | s ui b s' _ Hc | s _ | s _ | s sel b _].
  - by apply tickDown_bound.
  - done.
  - unfold confirmNightAction in Hc.
    destruct (negb _ && _); [by injection Hc as <- |].
    destruct (userPlayerOf s) as [user |]; [| done]. injection Hc as <-.
    by apply resolveNight_bound.
  - by apply processNightResults_bound.
  - done.
  - by apply confirmVote_bound.
Qed.

(** In every state of a run, every rune's remaining cooldown is between
    0 and its period plus one. *)
Lemma reachable_bound (s : GameState) :
  reachable s -> allRunes runeBound (players s).
Proof.
  induction 1 as [| s s' _ IH Hstep]; [constructor |].
  destruct Hstep as [e r s _ He | s | s s' Hplay].
  - by apply startGame_bound.
  - constructor.
  - by apply (playStep_bound s s').
Qed.

Lemma userEffect_rune (user : Player) (ui : UiState) (target rid : string) (rune : Rune) :
  isAlive user = true ->
  selectedActionTarget ui = Some target -> truthy (Some target) = true ->
  activeActionType ui = RUNE ->
  selectedRuneId ui = Some rid -> truthy (Some rid) = true ->
  findRune rid (runes user) = Some rune ->
  userUsedRuneId (userEffect user ui) = Some rid /\ rune_id rune = rid.
Proof.
  intros Ha Ht Htt Hty Hr Hrt Hf. unfold userEffect.
  rewrite Ht, Ha, Htt, Hty, Hr, Hrt, Hf. cbn.
  apply find_some in Hf as [_ E%String.eqb_eq]. by rewrite E.
Qed.

(** C4 (as the program has it): a rune whose use the night resolution
    finalizes, be it the rune the user selected or the rune named by the
    first oracle rune action of its owner, gets a remaining cooldown of
    exactly its period plus one; hence in every state of a run every
    rune's remaining cooldown lies between 0 and its period plus one. *)
Theorem rune_use_cooldown :
  (forall user ui target rid rune b,
      isAlive user = true ->
      selectedActionTarget ui = Some target -> truthy (Some target) = true ->
      activeActionType ui = RUNE ->
      selectedRuneId ui = Some rid -> truthy (Some rid) = true ->
      findRune rid (runes user) = Some rune ->
      finalizedRune user (userUsedRuneId (userEffect user ui)) b user
      = Some (rune_id rune)) /\
  (forall s user ui b (i : nat) p (j : nat) r,
      players s !! i = Some p ->
      runes p !! j = Some r ->
      finalizedRune user (userUsedRuneId (userEffect user ui)) b p
      = Some (rune_id r) ->
      exists p' r',
        players (resolveNight s user ui b) !! i = Some p' /\
        runes p' !! j = Some r' /\
        rune_id r' = rune_id r /\
        cooldown r' = cooldown r /\
        currentCooldown r' = (cooldown r + 1)%Z) /\
  (forall s, reachable s -> allRunes runeBound (players s)).
Proof.
  split; [| split].
  - intros user ui target rid rune b Ha Ht Htt Hty Hr Hrt Hf.
    destruct (userEffect_rune user ui target rid rune Ha Ht Htt Hty Hr Hrt Hf)
      as [-> ->].
    unfold finalizedRune. by rewrite String.eqb_refl, Hrt.
  - intros s user ui b i p j r Hp Hr Hfin.
    exists (updateCooldowns user (userUsedRuneId (userEffect user ui)) b p),
           (consumeRune (rune_id r) r).
    split; [cbn; by rewrite list_lookup_fmap, Hp |].
    split; [rewrite updateCooldowns_runes, Hfin; by rewrite list_lookup_fmap, Hr |].
    unfold consumeRune. by rewrite String.eqb_refl.
  - apply reachable_bound.
Qed.

Lemma rune_use_cooldown_witness :
  (exists p' r',
      players demoRuneDawn !! 0%nat = Some p' /\
      runes p' !! 0%nat = Some r' /\
      currentCooldown r' = 4%Z) /\
  allRunes runeBound (players demoRuneDawn).
Proof.
  destruct rune_use_cooldown as (Huser & Hset & Hbound).
  split; [| apply Hbound, reachable_demoRuneDawn].
  destruct (Hset demoNight demoUser demoRuneUi demoBot 0%nat demoUser 0%nat
              (getRandomRune 0 "b") eq_refl eq_refl)
    as (p' & r' & Hp & Hr & _ & _ & Hc).
  - apply (Huser demoUser demoRuneUi "i" "b" (getRandomRune 0 "b") demoBot);
      reflexivity.
  - exists p', r'. by repeat split.
Defined.

(** The rule as the specification words it (remaining cooldown set to
    the period, hence never above it) fails on the demonstration game:
    after the user casts the rune of period 3 its remaining cooldown is 4. *)
Lemma rune_use_cooldown_counterexample :
  reachable demoRuneDawn /\
  map (fun p => map currentCooldown (runes p)) (players demoRuneDawn)
  = [[4]; [0]; [0]; [0]; [0]; [0]; [0]; [0]]%Z /\
  map (fun p => map cooldown (runes p)) (players demoRuneDawn)
  = [[3]; [3]; [4]; [3]; [3]; [4]; [3]; [3]]%Z /\
  ~ (forall s, reachable s ->
       allRunes (fun r => (0 <= currentCooldown r <= cooldown r)%Z) (players s)).
Proof.
  split; [apply reachable_demoRuneDawn |].
  split; [reflexivity |]. split; [reflexivity |].
  intros H. specialize (H demoRuneDawn reachable_demoRuneDawn).
  apply Forall_cons in H as [H _]. apply Forall_cons in H as [H _].
  vm_compute in H. destruct H as [_ H]. by apply H.
Qed.

(** ** The cooldown cycle of one rune *)

Lemma tickRune_iter (n : nat) (r : Rune) :
  (0 <= currentCooldown r)%Z ->
  Nat.iter n tickRune r =
  setCurrentCooldown (Z.max 0 (currentCooldown r - Z.of_nat n)) r.
Proof.
  intros Hr. induction n as [| n IH].
  - cbn [Nat.iter nat_rect].
    replace (Z.max 0 (currentCooldown r - Z.of_nat 0)) with (currentCooldown r) by lia.
    by destruct r.
  - rewrite Nat.iter_succ, IH. unfold tickRune, setCurrentCooldown. cbn.
    f_equal. lia.
Qed.

Lemma tickRune_ready (r : Rune) : currentCooldown r = 0%Z -> tickRune r = r.
Proof. destruct r. cbn. intros ->. reflexivity. Qed.

Lemma tickDown_ready (s : GameState) :
  allRunes (fun r => currentCooldown r = 0%Z) (players s) ->
  players (tickDown s) = players s.
Proof.
  cbn. unfold allRunes. induction 1 as [| p ps Hp _ IH]; [done |].
  cbn [map]. rewrite IH. f_equal. unfold tickPlayer.
  replace (map tickRune (runes p)) with (runes p); [by destruct p |].
  induction Hp as [| r rs Hr _ IHr]; [done |].
  cbn [map]. by rewrite <- IHr, tickRune_ready.
Qed.

(** C6 (as the program has it): for a ready rune, the night-intro tick
    followed by its use leaves a remaining cooldown of the period plus
    one, so that [cooldown] ticks later it is 1 and one more tick makes
    it ready; using it a second time right after the first changes
    nothing (the remaining cooldown stays at the period plus one); and
    the tick leaves a roster of ready runes as it is. *)
Theorem cooldown_cycle (r : Rune) :
  currentCooldown r = 0%Z ->
  (0 <= cooldown r)%Z ->
  let used := consumeRune (rune_id r) (tickRune r) in
  currentCooldown used = (cooldown r + 1)%Z /\
  currentCooldown (Nat.iter (Z.to_nat (cooldown r)) tickRune used) = 1%Z /\
  currentCooldown (Nat.iter (S (Z.to_nat (cooldown r))) tickRune used) = 0%Z /\
  consumeRune (rune_id r) used = used /\
  (forall s, allRunes (fun x => currentCooldown x = 0%Z) (players s) ->
             players (tickDown s) = players s).
Proof.
  intros Hr Hc used.
  assert (used = setCurrentCooldown (cooldown r + 1) r) as Hused.
  { subst used. rewrite tickRune_ready by done. unfold consumeRune.
    by rewrite String.eqb_refl. }
  rewrite Hused. split; [done |].
  split; [rewrite tickRune_iter by (cbn; lia); cbn; lia |].
  split; [rewrite tickRune_iter by (cbn; lia); cbn; lia |].
  split; [| apply tickDown_ready].
  unfold consumeRune. cbn. by rewrite String.eqb_refl.
Qed.

Lemma cooldown_cycle_witness :
  currentCooldown
    (Nat.iter 4 tickRune (consumeRune "b" (tickRune (getRandomRune 0 "b")))) = 0%Z.
Proof.
  apply (cooldown_cycle (getRandomRune 0 "b")); [reflexivity | discriminate].
Defined.

(** The cycle as the specification words it fails on the rune of the
    demonstration user (period 3): three ticks after its use the
    remaining cooldown is 1, not 0, and a second use leaves 4, not 3. *)
Lemma cooldown_cycle_counterexample :
  let r := getRandomRune 0 "b" in
  currentCooldown r = 0%Z /\ cooldown r = 3%Z /\
  currentCooldown (Nat.iter 3 tickRune (consumeRune "b" (tickRune r))) = 1%Z /\
  currentCooldown (consumeRune "b" (consumeRune "b" (tickRune r))) = 4%Z /\
  ~ (forall x : Rune,
       currentCooldown x = 0%Z ->
       currentCooldown
         (Nat.iter (Z.to_nat (cooldown x)) tickRune
            (consumeRune (rune_id x) (tickRune x))) = 0%Z /\
       currentCooldown
         (consumeRune (rune_id x) (consumeRune (rune_id x) (tickRune x)))
       = cooldown x).
Proof.
  cbv zeta. repeat split; try reflexivity.
  intros H. destruct (H (getRandomRune 0 "b") eq_refl) as [H1 _]. discriminate H1.
Qed.

(** ** Game setup *)

Lemma findPlayer_NoDup (u : Player) (ps : list Player) :
  NoDup (map player_id ps) -> In u ps -> findPlayer (player_id u) ps = Some u.
Proof.
  induction ps as [| p ps IH]; [intros _ [] |].
  cbn [map]. intros [Hp Hnd]%NoDup_cons [-> | Hin]; cbn.
  - by rewrite String.eqb_refl.
  - destruct (String.eqb_spec (player_id p) (player_id u)) as [E | _].
    + exfalso. apply Hp. rewrite E. apply list_elem_of_In. by apply in_map.
    + by apply IH.
Qed.

Lemma bots_roles (e : SetupEntropy) (l : list Role) :
  role <$> imap (mkBot e) l = l.
Proof.
  rewrite fmap_imap.
  rewrite (imap_ext _ (const id)) by done. rewrite imap_const. apply list_fmap_id.
Qed.

Lemma filter_all {A} (P : A -> Prop) `{forall x, Decision (P x)} (l : list A) :
  Forall P l -> filter P l = l.
Proof.
  induction 1 as [| x l Hx _ IH]; [done |].
  by rewrite filter_cons_True, IH.
Qed.

Lemma bots_isBot (e : SetupEntropy) (l : list Role) :
  filter (fun p => isBot p = true) (imap (mkBot e) l) = imap (mkBot e) l.
Proof.
  apply filter_all, Forall_forall. intros p (i & r & -> & _)%elem_of_lookup_imap.
  done.
Qed.

Lemma roleCount_fmap (r : Role) (ps : list Player) :
  roleCount r ps = length (filter (fun x => x = r) (role <$> ps)).
Proof.
  unfold roleCount. induction ps as [| p ps IH]; [done |].
  rewrite fmap_cons, !filter_cons. destruct (decide (role p = r)); cbn; lia.
Qed.

(** C5 (as the program has it): the roster of [startGame] has eight
    participants whose roles are the chosen role together with the fixed
    seven roles of the bots (2 Werewolves, 1 Seer, 1 Doctor, 3
    Villagers), which gives 1 Seer, 1 Doctor, 2 Werewolves and 4
    Villagers when the user chooses Villager; the user has the chosen
    role and the bots' roles are the seven others in some order; no two
    participants share an id; each has exactly one rune, ready. *)
Theorem startGame_roster (e : SetupEntropy) (selectedRole : Role) :
  fairShuffles e ->
  freshUuids e ->
  let s := startGame e selectedRole in
  length (players s) = 8%nat /\
  Permutation (map role (players s))
              [selectedRole; WEREWOLF; SEER; DOCTOR; VILLAGER; VILLAGER; VILLAGER; WEREWOLF] /\
  (selectedRole = VILLAGER ->
   roleCount SEER (players s) = 1%nat /\ roleCount DOCTOR (players s) = 1%nat /\
   roleCount WEREWOLF (players s) = 2%nat /\ roleCount VILLAGER (players s) = 4%nat) /\
  (exists u, userPlayerOf s = Some u /\ role u = selectedRole /\ isBot u = false) /\
  Permutation (map role (filter (fun p => isBot p = true) (players s)))
              [WEREWOLF; SEER; DOCTOR; VILLAGER; VILLAGER; VILLAGER; WEREWOLF] /\
  NoDup (map player_id (players s)) /\
  Forall oneReadyRune (players s).
Proof.
  intros [Hroles Hplayers] Hfresh s.
  set (botRoles := shuffleRoles e (tail (rolesPoolOf selectedRole))).
  set (user := mkUserPlayer e selectedRole).
  assert (players s ≡ₚ user :: imap (mkBot e) botRoles) as Hperm by apply Hplayers.
  assert (botRoles ≡ₚ [WEREWOLF; SEER; DOCTOR; VILLAGER; VILLAGER; VILLAGER; WEREWOLF])
    as Hbots by apply Hroles.
  assert (role <$> players s ≡ₚ selectedRole :: botRoles) as Hr.
  { rewrite Hperm. rewrite fmap_cons. cbn [role user mkUserPlayer].
    by rewrite (bots_roles e botRoles). }
  assert (NoDup (map player_id (players s))) as Hnd.
  { change (NoDup (player_id <$> players s)). rewrite Hperm.
    assert (length botRoles = 7%nat) as Hlen by (by rewrite Hbots).
    destruct botRoles as [| r1 [| r2 [| r3 [| r4 [| r5 [| r6 [| r7 [| ? ?]]]]]]]];
      try discriminate Hlen.
    cbn. apply (sublist_NoDup _ (map (uuid e) (seq 0 16))); [exact Hfresh |]. cbn.
    repeat first [apply sublist_nil | apply sublist_skip | apply sublist_cons]. }
  split; [rewrite Hperm; cbn; rewrite length_imap; by rewrite Hbots |].
  split; [change (role <$> players s ≡ₚ
                  selectedRole :: [WEREWOLF; SEER; DOCTOR; VILLAGER; VILLAGER; VILLAGER; WEREWOLF]);
          by rewrite Hr, Hbots |].
  split.
  { intros ->. rewrite !roleCount_fmap, Hr, Hbots. by vm_compute. }
  split.
  { exists user. split; [| done].
    apply (findPlayer_NoDup user (players s) Hnd).
    apply list_elem_of_In. rewrite Hperm. by left. }
  split.
  { change (role <$> filter (fun p => isBot p = true) (players s) ≡ₚ
            [WEREWOLF; SEER; DOCTOR; VILLAGER; VILLAGER; VILLAGER; WEREWOLF]).
    rewrite Hperm, filter_cons. cbn [decide_rel].
    destruct (decide (isBot user = true)) as [E | _]; [discriminate E |].
    rewrite bots_isBot. rewrite <- Hbots. by rewrite (bots_roles e botRoles). }
  split; [exact Hnd |].
  rewrite Hperm. constructor.
  - eexists. split; [reflexivity | apply getRandomRune_bound].
  - apply Forall_forall. intros p (i & r & -> & _)%elem_of_lookup_imap.
    eexists. split; [reflexivity | apply getRandomRune_bound].
Qed.

Lemma freshUuids_demo : freshUuids demoEntropy.
Proof. apply (bool_decide_unpack _). by vm_compute. Qed.

Lemma startGame_roster_witness :
  roleCount SEER (players (startGame demoEntropy VILLAGER)) = 1%nat /\
  roleCount DOCTOR (players (startGame demoEntropy VILLAGER)) = 1%nat /\
  roleCount WEREWOLF (players (startGame demoEntropy VILLAGER)) = 2%nat /\
  roleCount VILLAGER (players (startGame demoEntropy VILLAGER)) = 4%nat.
Proof.
  pose proof (startGame_roster demoEntropy VILLAGER fairShuffles_demo freshUuids_demo) as H.
  cbv zeta in H. destruct H as (_ & _ & H & _). by apply H.
Defined.

(** The composition the specification words (1 Seer, 1 Doctor, 2
    Werewolves, 4 Villagers for every chosen role) fails when the user
    chooses Werewolf: the roster then has 3 Werewolves and 3 Villagers. *)
Lemma startGame_roster_counterexample :
  fairShuffles demoEntropy /\ freshUuids demoEntropy /\
  roleCount WEREWOLF (players (startGame demoEntropy WEREWOLF)) = 3%nat /\
  roleCount VILLAGER (players (startGame demoEntropy WEREWOLF)) = 3%nat /\
  ~ (roleCount SEER (players (startGame demoEntropy WEREWOLF)) = 1%nat /\
     roleCount DOCTOR (players (startGame demoEntropy WEREWOLF)) = 1%nat /\
     roleCount WEREWOLF (players (startGame demoEntropy WEREWOLF)) = 2%nat /\
     roleCount VILLAGER (players (startGame demoEntropy WEREWOLF)) = 4%nat).
Proof.
  split; [apply fairShuffles_demo |]. split; [apply freshUuids_demo |].
  split; [reflexivity |]. split; [reflexivity |].
  intros (_ & _ & H & _). discriminate H.
Qed.

(** ** The knowledge map *)

Lemma findPlayer_sameIdRole (x : string) (ps ps' : list Player) :
  Forall2 sameIdRole ps ps' ->
  role <$> findPlayer x ps' = role <$> findPlayer x ps.
Proof.
  induction 1 as [| p p' ps ps' [Hid Hrole] _ IH]; [done |].
  cbn. rewrite Hid. destruct (player_id p =? x); [cbn; by rewrite Hrole | exact IH].
Qed.

Lemma sameButAliveVotes_idRole (ps ps' : list Player) :
  Forall2 sameButAliveVotes ps ps' -> Forall2 sameIdRole ps ps'.
Proof.
  intros H. eapply Forall2_impl; [exact H |].
  intros p p' Hp. unfold sameButAliveVotes in Hp.
  destruct p, p'. by injection Hp as -> -> -> -> -> ->.
Qed.

Lemma sameIdRole_refl (ps : list Player) : Forall2 sameIdRole ps ps.
Proof. apply Forall_Forall2_diag, Forall_forall. by intros. Qed.

Lemma map_sameIdRole (f : Player -> Player) (ps : list Player) :
  (forall p, sameIdRole p (f p)) -> Forall2 sameIdRole ps (map f ps).
Proof.
  intros Hf. apply Forall2_fmap_r, Forall_Forall2_diag, Forall_forall. auto.
Qed.

Lemma confirmVote_knowledge (s : GameState) (sel : option string) (b : list BotDayAction) :
  seerKnowledge (confirmVote s sel b) = seerKnowledge s.
Proof.
  unfold confirmVote. destruct (negb (truthy sel) && userAlive s); [done |].
  cbv zeta. case_win.
Qed.

(** No transition of the running game changes an id or a role, or the
    order of the roster. *)
Lemma playStep_idRole (s s' : GameState) :
  playStep s s' -> Forall2 sameIdRole (players s) (players s').
Proof.
  intros [s0 _ | s0 _ | s0 ui b s1 _ Hc | s0 _ | s0 _ | s0 sel b _].
  - apply map_sameIdRole. by intros [].
  - apply sameIdRole_refl.
  - unfold confirmNightAction in Hc.
    destruct (negb _ && _).
    + injection Hc as <-. apply sameIdRole_refl.
    + destruct (userPlayerOf s0) as [user |]; [| done]. injection Hc as <-.
      apply map_sameIdRole. intros p.
      pose proof (updateCooldowns_frame user (userUsedRuneId (userEffect user ui)) b p) as E.
      destruct p, (updateCooldowns user _ b _). by injection E as -> -> -> -> -> -> ->.
  - apply sameButAliveVotes_idRole. rewrite processNightResults_players.
    destruct (_ && _); [apply killFirst_frame | apply sameButAliveVotes_refl].
  - apply sameIdRole_refl.
  - apply sameButAliveVotes_idRole, confirmVote_frame.
Qed.

Lemma reveal_extends (ps : list Player) (k : gmap string Role) (t : string) :
  (forall pid r, k !! pid = Some r -> role <$> findPlayer pid ps = Some r) ->
  (forall pid r, k !! pid = Some r -> reveal ps k t !! pid = Some r) /\
  (forall pid r, reveal ps k t !! pid = Some r ->
                 role <$> findPlayer pid ps = Some r).
Proof.
  intros Hk. unfold reveal.
  destruct (findPlayer t ps) as [target |] eqn:F; [| done].
  assert (player_id target = t) as Hid.
  { apply find_some in F as [_ E]. by apply String.eqb_eq in E. }
  rewrite Hid. split; intros pid r.
  - intros Hp. destruct (decide (t = pid)) as [<- | Hne].
    + rewrite lookup_insert_eq. apply Hk in Hp. rewrite F in Hp. exact Hp.
    + by rewrite lookup_insert_ne.
  - destruct (decide (t = pid)) as [<- | Hne].
    + rewrite lookup_insert_eq. intros [= <-]. by rewrite F.
    + rewrite lookup_insert_ne by done. apply Hk.
Qed.

Lemma processKnowledge_extends (ps : list Player) (reveals : list string)
    (k : gmap string Role) :
  (forall pid r, k !! pid = Some r -> role <$> findPlayer pid ps = Some r) ->
  (forall pid r, k !! pid = Some r -> processKnowledge ps k reveals !! pid = Some r) /\
  (forall pid r, processKnowledge ps k reveals !! pid = Some r ->
                 role <$> findPlayer pid ps = Some r).
Proof.
  revert k. induction reveals as [| t reveals IH]; intros k Hk; [done |].
  destruct (reveal_extends ps k t Hk) as [Hext Hok].
  destruct (IH (reveal ps k t) Hok) as [Hext' Hok'].
  split; [| exact Hok']. intros pid r Hp. apply Hext', Hext, Hp.
Qed.

(** A transition of the running game keeps every entry of the knowledge
    map, and keeps the map truthful. *)
Lemma playStep_knowledge (s s' : GameState) :
  playStep s s' ->
  knowledgeOk s ->
  (forall pid r, seerKnowledge s !! pid = Some r -> seerKnowledge s' !! pid = Some r) /\
  knowledgeOk s'.
Proof.
  intros Hstep Hok.
  assert (forall k' : gmap string Role,
             (forall pid r, k' !! pid = Some r ->
                            role <$> findPlayer pid (players s) = Some r) ->
             seerKnowledge s' = k' -> knowledgeOk s') as Hfrom.
  { intros k' Hk' E pid r Hp. rewrite E in Hp.
    rewrite (findPlayer_sameIdRole pid _ _ (playStep_idRole s s' Hstep)). by apply Hk'. }
  destruct Hstep as [s _ | s _ | s ui b s' _ Hc | s _ | s _ | s sel b _].
  - split; [done | by apply (Hfrom (seerKnowledge s))].
  - split; [done | by apply (Hfrom (seerKnowledge s))].
  - pose proof Hc as Hc'. unfold confirmNightAction in Hc'.
    destruct (negb _ && _); [injection Hc' as <-; by split |].
    destruct (userPlayerOf s) as [user |]; [| done]. injection Hc' as <-.
    destruct (processKnowledge_extends (players s) (nightReveals user ui)
                (seerKnowledge s) Hok) as [Hext Hok'].
    split; [exact Hext |]. by eapply Hfrom.
  - assert (seerKnowledge (processNightResults s) = seerKnowledge s) as E
      by (unfold processNightResults; by rewrite checkWinCondition_knowledge).
    split; [by rewrite E | by apply (Hfrom (seerKnowledge s))].
  - split; [done | by apply (Hfrom (seerKnowledge s))].
  - split; [by rewrite confirmVote_knowledge |].
    apply (Hfrom (seerKnowledge s)); [done | apply confirmVote_knowledge].
Qed.

Lemma reachable_knowledgeOk (s : GameState) : reachable s -> knowledgeOk s.
Proof.
  induction 1 as [| s s' _ IH Hstep]; [by intros pid r |].
  destruct Hstep as [e r s _ He | s | s s' Hplay]; [by intros pid r' | by intros pid r |].
  by apply (playStep_knowledge s s').
Qed.

(** C8: in a session, no sequence of transitions of the running game
    (anything but a restart) removes or changes an entry of the knowledge
    map: an id that the map sends to a role is still sent to that role
    afterwards. *)
Theorem knowledge_monotone (s s' : GameState) :
  reachable s ->
  rtc playStep s s' ->
  forall pid r,
    seerKnowledge s !! pid = Some r -> seerKnowledge s' !! pid = Some r.
Proof.
  intros Hreach Hrun. induction Hrun as [s | s s1 s' Hstep _ IH]; [done |].
  intros pid r Hp.
  apply IH; [eapply reachable_step; [exact Hreach | by apply step_play] |].
  by apply (playStep_knowledge s s1 Hstep (reachable_knowledgeOk s Hreach)).
Qed.

Lemma knowledge_monotone_witness :
  seerKnowledge (runDayDiscussion (processNightResults demoRuneDawn)) !! "i"
  = Some VILLAGER.
Proof.
  apply (knowledge_monotone demoRuneDawn _ reachable_demoRuneDawn).
  - eapply rtc_l; [apply play_day_intro; reflexivity |].
    apply rtc_once, play_discussion. reflexivity.
  - by vm_compute.
Defined.

(** ** Proposals that name an invalid target *)

Lemma invalidTarget_b (t : string) (ps : list Player) :
  invalidTarget t ps <-> validTargetb t ps = false.
Proof.
  unfold invalidTarget, validTargetb. split.
  - intros H. destruct (existsb _ ps) eqn:E; [| done].
    apply existsb_exists in E as (p & Hp & [Hid Ha]%andb_true_iff).
    apply String.eqb_eq in Hid. rewrite (H p Hp Hid) in Ha. discriminate.
  - intros H p Hp Hid. destruct (isAlive p) eqn:Ha; [| done].
    assert (existsb (fun p => (player_id p =? t) && isAlive p) ps = true) as E.
    { apply existsb_exists. exists p. split; [done |].
      by rewrite Hid, String.eqb_refl, Ha. }
    congruence.
Qed.

(** The [isAlive] column after [killFirst] depends on the ids and the
    [isAlive] column only. *)
Lemma killFirst_column (t : string) (ps ps' : list Player) :
  map player_id ps' = map player_id ps ->
  map isAlive ps' = map isAlive ps ->
  map isAlive (killFirst t ps') = map isAlive (killFirst t ps).
Proof.
  revert ps'. induction ps as [| p ps IH]; intros [| p' ps']; try done.
  cbn [map killFirst]. intros [= Hid Hids] [= Ha Has]. rewrite Hid.
  destruct (player_id p =? t); cbn [map]; f_equal; auto.
Qed.

(** The [isAlive] column once the night and the day intro are through. *)
Lemma night_column (s : GameState) (user : Player) (ui : UiState) (b : BotNightAction) :
  map isAlive (players (processNightResults (resolveNight s user ui b))) =
  match primaryWWTargetOf (nightKills user ui b) with
  | Some t =>
      if existsb (fun x => x =? t) (nightSaves (players s) user ui b)
      then map isAlive (players s)
      else map isAlive (killFirst t (players s))
  | None => map isAlive (players s)
  end.
Proof.
  rewrite processNightResults_players. cbn [targets resolveNight werewolf doctor players].
  destruct (primaryWWTargetOf (nightKills user ui b)) as [t |] eqn:W.
  - assert (truthy (Some t) = true) as ->.
    { apply (nightKills_truthy user ui b). unfold primaryWWTargetOf in W.
      destruct (nightKills user ui b); [done |]. injection W as ->. by left. }
    unfold primaryDocTargetOf. cbn [default].
    destruct (existsb _ _); cbn [opt_eqb andb negb].
    + rewrite String.eqb_refl. cbn. apply updateCooldowns_isAlive.
    + apply killFirst_column;
        [apply updateCooldowns_ids | apply updateCooldowns_isAlive].
  - cbn. apply updateCooldowns_isAlive.
Qed.

Lemma existsb_In (t : string) (l : list string) :
  existsb (fun x => x =? t) l = true <-> In t l.
Proof.
  rewrite existsb_exists. split.
  - by intros (x & Hx & ->%String.eqb_eq).
  - intros H. exists t. split; [done | apply String.eqb_refl].
Qed.

Lemma existsb_iff (t : string) (l l' : list string) :
  (In t l <-> In t l') ->
  existsb (fun x => x =? t) l = existsb (fun x => x =? t) l'.
Proof.
  intros H. apply eq_true_iff_eq. by rewrite !existsb_In.
Qed.

(** C9 (as the program has it): when the oracle names a target id that
    no alive participant carries, the resolution still completes, and
    that proposal gets nobody killed and adds nothing to the knowledge
    map: as the werewolf-kill target it leaves every [isAlive] as it
    was, as a save target it makes no difference to who dies, the
    knowledge map does not depend on the oracle's answer at all, and as
    the elected vote target it leaves every [isAlive] as it was. The
    proposal is not dropped, though: as the werewolf-kill target it is
    the recorded werewolf target, whatever the user selected, and its
    votes are counted in the tally like those of any id, unless it is
    the name of a member of [Object.prototype], whose votes never get a
    number. *)
Theorem invalid_target_harmless
    (s : GameState) (user : Player) (ui : UiState) (b : BotNightAction) (t : string) :
  userPlayerOf s = Some user ->
  negb (truthy (selectedActionTarget ui)) && userAlive s = false ->
  invalidTarget t (players s) ->
  confirmNightAction s ui b = Some (resolveNight s user ui b) /\
  (werewolfKillTargetId b = Some t -> truthy (Some t) = true ->
   map isAlive (players (processNightResults (resolveNight s user ui b)))
   = map isAlive (players s)) /\
  (forall b',
      werewolfKillTargetId b' = werewolfKillTargetId b ->
      (forall x, x <> t ->
                 (In x (nightSaves (players s) user ui b') <->
                  In x (nightSaves (players s) user ui b))) ->
      map isAlive (players (processNightResults (resolveNight s user ui b')))
      = map isAlive (players (processNightResults (resolveNight s user ui b)))) /\
  (forall b',
      seerKnowledge (resolveNight s user ui b')
      = seerKnowledge (resolveNight s user ui b)) /\
  (forall sel votes,
      negb (truthy sel) && userAlive s = false ->
      pickEliminated (tallyVotes s sel votes) = Some t ->
      map isAlive (players (confirmVote s sel votes)) = map isAlive (players s)) /\
  (werewolfKillTargetId b = Some t -> truthy (Some t) = true ->
   werewolf (targets (resolveNight s user ui b)) = Some t) /\
  (forall sel votes,
      counted t ->
      countOf t (tallyVotes s sel votes) = Num (Z.of_nat (votesFor s sel votes t))) /\
  (forall sel votes n,
      inherited t = true -> ~ In (t, Num n) (tallyVotes s sel votes)).
Proof.
  intros Hu Hg Hinv.
  split; [by apply confirmNightAction_resolves |].
  split; [| split; [| split; [done |]; split; [| split; [| split]]]].
  - intros Hk Ht. rewrite night_column. unfold nightKills, botKills.
    rewrite Hk, Ht. cbn [app primaryWWTargetOf head].
    destruct (existsb _ _); [done | by apply killFirst_invalid].
  - intros b' Hk Hsaves. rewrite !night_column.
    assert (nightKills user ui b' = nightKills user ui b) as ->
      by (unfold nightKills, botKills; by rewrite Hk).
    destruct (primaryWWTargetOf (nightKills user ui b)) as [x |]; [| done].
    destruct (decide (x = t)) as [-> | Hx].
    + rewrite (killFirst_invalid t (players s) Hinv). by do 2 destruct (existsb _ _).
    + by rewrite (existsb_iff x _ _ (Hsaves x Hx)).
  - intros sel votes Hgv Hpick. rewrite confirmVote_isAlive by done.
    unfold votedRoster. rewrite Hpick. cbn [default].
    destruct (truthy (Some t)); [| apply tallied_isAlive].
    rewrite (killFirst_column t (players s)); [by apply killFirst_invalid | |].
    + apply tallied_ids.
    + apply tallied_isAlive.
  - intros Hk Ht. cbn [targets resolveNight werewolf]. unfold nightKills, botKills.
    by rewrite Hk, Ht.
  - intros sel votes Hc. by apply tally_counted.
  - intros sel votes n Hi (Hc & _)%tally_entry. destruct Hc as [_ Hc]. congruence.
Qed.

Lemma invalid_zz_demoNight : invalidTarget "zz" (players demoNight).
Proof. apply invalidTarget_b. reflexivity. Qed.

Lemma invalid_target_harmless_witness :
  confirmNightAction demoNight demoUi ghostBot
  = Some (resolveNight demoNight demoUser demoUi ghostBot) /\
  map isAlive (players (processNightResults (resolveNight demoNight demoUser demoUi ghostBot)))
  = map isAlive (players demoNight).
Proof.
  destruct (invalid_target_harmless demoNight demoUser demoUi ghostBot "zz"
              eq_refl eq_refl invalid_zz_demoNight) as (H1 & H2 & _).
  split; [exact H1 | by apply H2].
Defined.

(** The rule as the specification words it (the proposal is dropped and
    contributes nothing to the kill outcome or to the vote tally) fails:
    the absent kill target ["zz"] takes the place of the user's kill, so
    that nobody dies where ["i"] would have died; and the votes for
    ["zz"] are counted, so that nobody is eliminated where ["e"] would
    have been. *)
Lemma invalid_target_counterexample :
  invalidTarget "zz" (players demoNight) /\
  invalidTarget "zz" (players demoDay) /\
  werewolf (targets (resolveNight demoNight demoUser demoUi ghostBot)) = Some "zz" /\
  map isAlive (players (processNightResults (resolveNight demoNight demoUser demoUi ghostBot)))
  = [true; true; true; true; true; true; true; true] /\
  map isAlive (players (processNightResults (resolveNight demoNight demoUser demoUi demoBot)))
  = [true; true; true; true; false; true; true; true] /\
  map isAlive (players (processNightResults (resolveNight demoNight demoUser demoUi ghostBot)))
  <> map isAlive (players (processNightResults (resolveNight demoNight demoUser demoUi demoBot))) /\
  tallyVotes demoDay (Some "e") ghostVotes = [("zz", Num 2); ("e", Num 1)] /\
  map isAlive (players (confirmVote demoDay (Some "e") ghostVotes))
  <> map isAlive (players (confirmVote demoDay (Some "e") ghostVotesDropped)) /\
  map isAlive (players (confirmVote demoDay (Some "e") ghostVotes))
  = [true; true; true; true; false; true; true; true] /\
  map isAlive (players (confirmVote demoDay (Some "e") ghostVotesDropped))
  = [true; true; false; true; false; true; true; true].
Proof.
  split; [apply invalid_zz_demoNight |].
  split; [apply invalidTarget_b; reflexivity |].
  repeat split; try reflexivity; by vm_compute.
Qed.

(** * Further properties of the engine *)

(** ** Deaths *)

Lemma noRevival_refl (ps : list Player) : Forall2 noRevival ps ps.
Proof. apply Forall_Forall2_diag, Forall_forall. intros q _ H. exact H. Qed.

Lemma killFirst_noRevival (t : string) (ps : list Player) :
  Forall2 noRevival ps (killFirst t ps).
Proof.
  induction ps as [| p ps IH]; cbn; [constructor |].
  destruct (player_id p =? t); constructor;
    [discriminate | apply noRevival_refl | intros H; exact H | exact IH].
Qed.

Lemma noRevival_column (ps ps' qs : list Player) :
  map isAlive ps' = map isAlive qs ->
  Forall2 noRevival ps qs -> Forall2 noRevival ps ps'.
Proof.
  intros Hcol H. revert ps' Hcol.
  induction H as [| p q ps qs Hpq _ IH]; intros [| p' ps'] Hcol; try done.
  injection Hcol as Hp Hcol. constructor; [| by apply IH].
  unfold noRevival in *. by rewrite Hp.
Qed.

Lemma noRevival_trans (ps qs rs : list Player) :
  Forall2 noRevival ps qs -> Forall2 noRevival qs rs -> Forall2 noRevival ps rs.
Proof.
  intros H. revert rs. induction H as [| p q ps qs Hpq _ IH]; intros rs Hr.
  - by apply Forall2_nil_inv_l in Hr as ->.
  - apply Forall2_cons_inv_l in Hr as (r & rs' & Hqr & Hr & ->).
    constructor; [| by apply IH]. unfold noRevival in *. auto.
Qed.

(** The [isAlive] column after a transition of the running game: as
    before, or as before with the first carrier of some id marked dead
    (day intro and vote only). *)
Lemma playStep_column (s s' : GameState) :
  playStep s s' ->
  map isAlive (players s') = map isAlive (players s) \/
  ((phase s = DAY_INTRO \/ phase s = DAY_VOTING) /\
   exists t, map isAlive (players s') = map isAlive (killFirst t (players s))).
Proof.
  intros [s0 _ | s0 _ | s0 u b s1 _ Hc | s0 Hph | s0 _ | s0 sel b Hph].
  - left. cbn. rewrite map_map. by apply map_ext.
  - by left.
  - left. unfold confirmNightAction in Hc.
    destruct (negb _ && _); [by injection Hc as <- |].
    destruct (userPlayerOf s0) as [user |]; [| done]. injection Hc as <-.
    apply updateCooldowns_isAlive.
  - rewrite processNightResults_players. destruct (_ && _); [| by left].
    right. split; [by left |]. by eexists.
  - by left.
  - destruct (negb (truthy sel) && userAlive s0) eqn:Hg.
    + left. unfold confirmVote. by rewrite Hg.
    + rewrite confirmVote_isAlive by done. unfold votedRoster.
      destruct (truthy (pickEliminated _)); [| left; apply tallied_isAlive].
      right. split; [by right |]. eexists.
      apply killFirst_column; [apply tallied_ids | apply tallied_isAlive].
Qed.

Lemma playStep_noRevival (s s' : GameState) :
  playStep s s' -> Forall2 noRevival (players s) (players s').
Proof.
  intros [Hcol | (_ & t & Hcol)]%playStep_column.
  - eapply noRevival_column; [exact Hcol | apply noRevival_refl].
  - eapply noRevival_column; [exact Hcol | apply killFirst_noRevival].
Qed.

(** X1: along a run of the game without a restart, the roster keeps its
    length and order, and a participant who is dead is never alive again. *)
Theorem deaths_are_final (s s' : GameState) :
  rtc playStep s s' ->
  Forall2 noRevival (players s) (players s').
Proof.
  induction 1 as [s | s s1 s' Hstep _ IH]; [apply noRevival_refl |].
  eapply noRevival_trans; [by apply playStep_noRevival | exact IH].
Qed.

Lemma rtc_demoDay_vote :
  rtc playStep demoNight (confirmVote demoDay (Some "e") demoVotes).
Proof.
  eapply rtc_l; [apply (play_night demoNight demoUi demoBot); reflexivity |].
  eapply rtc_l; [apply play_day_intro; reflexivity |].
  eapply rtc_l; [apply play_discussion; reflexivity |].
  apply rtc_once. apply (play_vote demoDay (Some "e") demoVotes). reflexivity.
Qed.

Lemma deaths_are_final_witness :
  Forall2 noRevival (players demoNight)
          (players (confirmVote demoDay (Some "e") demoVotes)).
Proof.
  apply (deaths_are_final demoNight _). apply rtc_demoDay_vote.
Defined.

Lemma aliveCount_column (ps ps' : list Player) :
  map isAlive ps' = map isAlive ps -> aliveCount ps' = aliveCount ps.
Proof.
  unfold aliveCount. revert ps'.
  induction ps as [| p ps IH]; intros [| p' ps'] H; try done.
  injection H as Hp H. cbn. rewrite Hp. destruct (isAlive p); cbn; by rewrite (IH ps').
Qed.

Lemma aliveCount_killFirst (t : string) (ps : list Player) :
  (aliveCount (killFirst t ps) <= aliveCount ps <= aliveCount (killFirst t ps) + 1)%nat.
Proof.
  unfold aliveCount. induction ps as [| p ps IH]; cbn; [lia |].
  destruct (player_id p =? t); cbn; destruct (isAlive p); cbn; lia.
Qed.

(** X2: a transition of the running game never raises the number of
    alive participants and lowers it by one at most; it can lower it at
    the day intro and at the vote only. *)
Theorem one_death_per_step (s s' : GameState) :
  playStep s s' ->
  (aliveCount (players s') <= aliveCount (players s))%nat /\
  (aliveCount (players s) <= aliveCount (players s') + 1)%nat /\
  (aliveCount (players s') < aliveCount (players s) ->
   phase s = DAY_INTRO \/ phase s = DAY_VOTING)%nat.
Proof.
  intros [Hcol | (Hph & t & Hcol)]%playStep_column.
  - rewrite (aliveCount_column _ _ Hcol). lia.
  - rewrite (aliveCount_column _ _ Hcol).
    pose proof (aliveCount_killFirst t (players s)). repeat split; try lia. done.
Qed.

Lemma one_death_per_step_witness :
  (aliveCount (players (processNightResults demoDawn)) <= aliveCount (players demoDawn))%nat /\
  (aliveCount (players demoDawn) <= aliveCount (players (processNightResults demoDawn)) + 1)%nat.
Proof.
  destruct (one_death_per_step demoDawn (processNightResults demoDawn)) as (H1 & H2 & _).
  - apply play_day_intro. reflexivity.
  - by split.
Defined.

(** ** Identity of the participants *)

Lemma sameRuneIdentity_map (g : Rune -> Rune) (rs : list Rune) :
  (forall r, sameRuneIdentity r (g r)) -> Forall2 sameRuneIdentity rs (map g rs).
Proof.
  intros Hg. apply Forall2_fmap_r, Forall_Forall2_diag, Forall_forall. auto.
Qed.

Lemma sameRuneIdentity_refl (rs : list Rune) : Forall2 sameRuneIdentity rs rs.
Proof. apply Forall_Forall2_diag, Forall_forall. intros r _. by destruct r. Qed.

Lemma sameRuneIdentity_trans (rs rs' rs'' : list Rune) :
  Forall2 sameRuneIdentity rs rs' -> Forall2 sameRuneIdentity rs' rs'' ->
  Forall2 sameRuneIdentity rs rs''.
Proof.
  intros H. revert rs''. induction H as [| r r' rs rs' Hr _ IH]; intros rs'' H'.
  - by apply Forall2_nil_inv_l in H' as ->.
  - apply Forall2_cons_inv_l in H' as (r'' & rs2 & Hr' & H' & ->).
    constructor; [| by apply IH].
    unfold sameRuneIdentity, setCurrentCooldown in *. destruct r, r', r''. cbn in *.
    injection Hr as -> -> -> -> ->. by injection Hr' as -> -> -> -> ->.
Qed.

Lemma samePlayerIdentity_refl (ps : list Player) : Forall2 samePlayerIdentity ps ps.
Proof.
  apply Forall_Forall2_diag, Forall_forall. intros p _.
  repeat split. apply sameRuneIdentity_refl.
Qed.

Lemma samePlayerIdentity_trans (ps qs rs : list Player) :
  Forall2 samePlayerIdentity ps qs -> Forall2 samePlayerIdentity qs rs ->
  Forall2 samePlayerIdentity ps rs.
Proof.
  intros H. revert rs. induction H as [| p q ps qs Hpq _ IH]; intros rs Hr.
  - by apply Forall2_nil_inv_l in Hr as ->.
  - apply Forall2_cons_inv_l in Hr as (r & rs' & Hqr & Hr & ->).
    constructor; [| by apply IH].
    destruct Hpq as (? & ? & ? & ? & ? & Hr1), Hqr as (? & ? & ? & ? & ? & Hr2).
    repeat split; try congruence. by eapply sameRuneIdentity_trans.
Qed.

Lemma sameButAliveVotes_identity (ps ps' : list Player) :
  Forall2 sameButAliveVotes ps ps' -> Forall2 samePlayerIdentity ps ps'.
Proof.
  intros H. eapply Forall2_impl; [exact H |].
  intros p p' Hp. unfold sameButAliveVotes in Hp.
  destruct p, p'. injection Hp as -> -> -> -> -> ->.
  repeat split. apply sameRuneIdentity_refl.
Qed.

Lemma tickPlayer_identity (p : Player) : samePlayerIdentity p (tickPlayer p).
Proof.
  repeat split. cbn. apply sameRuneIdentity_map. intros r. by destruct r.
Qed.

Lemma updateCooldowns_identity user used b (p : Player) :
  samePlayerIdentity p (updateCooldowns user used b p).
Proof.
  pose proof (updateCooldowns_frame user used b p) as E.
  pose proof (updateCooldowns_runes user used b p) as Er.
  destruct (updateCooldowns user used b p) as [i n r a bo av v rs].
  destruct p as [i0 n0 r0 a0 bo0 av0 v0 rs0]. cbn in *.
  injection E as -> -> -> -> -> -> ->. repeat split. cbn. rewrite Er.
  destruct (finalizedRune _ _ _ _) as [rid |]; [| apply sameRuneIdentity_refl].
  apply sameRuneIdentity_map. intros x. unfold consumeRune.
  destruct (rune_id x =? rid); by destruct x.
Qed.

Lemma playStep_identity (s s' : GameState) :
  playStep s s' ->
  Forall2 samePlayerIdentity (players s) (players s') /\
  userPlayerId s' = userPlayerId s.
Proof.
  intros [s0 _ | s0 _ | s0 u b s1 _ Hc | s0 _ | s0 _ | s0 sel b _].
  - split; [| done]. cbn. apply Forall2_fmap_r, Forall_Forall2_diag, Forall_forall.
    intros p _. apply tickPlayer_identity.
  - split; [apply samePlayerIdentity_refl | done].
  - unfold confirmNightAction in Hc.
    destruct (negb _ && _);
      [injection Hc as <-; split; [apply samePlayerIdentity_refl | done] |].
    destruct (userPlayerOf s0) as [user |]; [| done]. injection Hc as <-.
    split; [| done]. cbn. apply Forall2_fmap_r, Forall_Forall2_diag, Forall_forall.
    intros p _. apply updateCooldowns_identity.
  - split.
    + apply sameButAliveVotes_identity. rewrite processNightResults_players.
      destruct (_ && _); [apply killFirst_frame | apply sameButAliveVotes_refl].
    + unfold processNightResults. by rewrite checkWinCondition_userPlayerId.
  - split; [apply samePlayerIdentity_refl | done].
  - split; [apply sameButAliveVotes_identity, confirmVote_frame |].
    unfold confirmVote. destruct (negb (truthy sel) && userAlive s0); [done |].
    cbv zeta. case_win.
Qed.

(** X3: along a run of the game without a restart nothing changes who
    the participants are: each keeps its id, name, role, [isBot] and
    avatar, and each of its runes keeps its id, name, type, description
    and period (only [isAlive], [votesAgainst] and remaining cooldowns
    move); [userPlayerId] stays as well. *)
Theorem identity_is_kept (s s' : GameState) :
  rtc playStep s s' ->
  Forall2 samePlayerIdentity (players s) (players s') /\
  userPlayerId s' = userPlayerId s.
Proof.
  induction 1 as [s | s s1 s' Hstep _ [IH1 IH2]];
    [split; [apply samePlayerIdentity_refl | done] |].
  destruct (playStep_identity s s1 Hstep) as [H1 H2].
  split; [by eapply samePlayerIdentity_trans | congruence].
Qed.

Lemma identity_is_kept_witness :
  Forall2 samePlayerIdentity (players demoNight)
          (players (confirmVote demoDay (Some "e") demoVotes)).
Proof.
  apply (identity_is_kept demoNight _). apply rtc_demoDay_vote.
Defined.

(** ** Knowledge *)

(** X4: in every state of a run, each entry of the knowledge map names a
    participant of the roster and gives that participant's role. *)
Theorem knowledge_is_truthful (s : GameState) (pid : string) (r : Role) :
  reachable s ->
  seerKnowledge s !! pid = Some r ->
  exists p, findPlayer pid (players s) = Some p /\ player_id p = pid /\ role p = r.
Proof.
  intros Hreach Hk. pose proof (reachable_knowledgeOk s Hreach pid r Hk) as H.
  destruct (findPlayer pid (players s)) as [p |] eqn:F; [| done].
  exists p. split; [done |]. split; [| by injection H].
  apply find_some in F as [_ E]. by apply String.eqb_eq in E.
Qed.

Lemma knowledge_is_truthful_witness :
  exists p, findPlayer "i" (players demoRuneDawn) = Some p /\
            player_id p = "i" /\ role p = VILLAGER.
Proof.
  apply (knowledge_is_truthful demoRuneDawn "i" VILLAGER reachable_demoRuneDawn).
  by vm_compute.
Defined.

Lemma userEffect_reveals (user : Player) (ui : UiState) :
  nightReveals user ui = [] \/
  exists t, selectedActionTarget ui = Some t /\ nightReveals user ui = [t].
Proof.
  unfold nightReveals, userEffect.
  destruct (selectedActionTarget ui) as [t |]; [| by left].
  destruct (isAlive user && truthy (Some t)); [| by left].
  destruct (activeActionType ui).
  - cbn. case_bool_decide; [right; by exists t | by left].
  - destruct (selectedRuneId ui) as [rid |]; [| by left].
    destruct (truthy (Some rid)); [| by left].
    destruct (findRune rid (runes user)) as [rune |]; [| by left].
    cbn. destruct (rune_type rune); [right; by exists t | by left].
Qed.

(** X5: the night resolution writes at most one entry in the knowledge
    map, for the target the user selected: the map after it is the map
    before it, or the map before it with the selected target's id sent
    to the role of the participant that carries it. With the role
    action it is the latter exactly for an alive Seer whose target is in
    the roster; the oracle's own seer check is never recorded. *)
Theorem reveal_is_recorded
    (s : GameState) (user : Player) (ui : UiState) (b : BotNightAction) :
  (seerKnowledge (resolveNight s user ui b) = seerKnowledge s \/
   exists t p, selectedActionTarget ui = Some t /\
               findPlayer t (players s) = Some p /\
               seerKnowledge (resolveNight s user ui b)
               = <[t := role p]> (seerKnowledge s)) /\
  (forall t p,
      isAlive user = true -> role user = SEER -> activeActionType ui = ROLE ->
      selectedActionTarget ui = Some t -> t <> "" ->
      findPlayer t (players s) = Some p ->
      seerKnowledge (resolveNight s user ui b) = <[t := role p]> (seerKnowledge s)) /\
  (activeActionType ui = ROLE -> role user <> SEER ->
   seerKnowledge (resolveNight s user ui b) = seerKnowledge s).
Proof.
  assert (forall t p, findPlayer t (players s) = Some p ->
                      reveal (players s) (seerKnowledge s) t
                      = <[t := role p]> (seerKnowledge s)) as Hrev.
  { intros t p F. unfold reveal. rewrite F.
    apply find_some in F as [_ E]. apply String.eqb_eq in E. by rewrite E. }
  split; [| split].
  - cbn. destruct (userEffect_reveals user ui) as [-> | (t & Ht & ->)]; [by left |].
    cbn. destruct (findPlayer t (players s)) as [p |] eqn:F.
    + right. exists t, p. by rewrite (Hrev t p F).
    + left. unfold reveal. by rewrite F.
  - intros t p Ha Hr Hm Ht Hne F. cbn. unfold nightReveals, userEffect.
    rewrite Ht, Ha, Hm, Hr. cbn.
    destruct (String.eqb_spec t "") as [| _]; [done |]. cbn. by apply Hrev.
  - intros Hm Hr. cbn. unfold nightReveals, userEffect. rewrite Hm.
    destruct (selectedActionTarget ui) as [t |]; [| done].
    destruct (isAlive user && truthy (Some t)); [| done].
    cbn. by case_bool_decide.
Qed.

(** ** The primary kill *)

Lemma userEffect_no_kill (user : Player) (ui : UiState) :
  isAlive user = false \/ role user <> WEREWOLF \/ activeActionType ui = RUNE ->
  u_kills (userEffect user ui) = [].
Proof.
  intros Hcase. unfold userEffect.
  destruct (selectedActionTarget ui) as [x |]; [| done].
  destruct (isAlive user) eqn:Ha; cbn [andb]; [| done].
  destruct (truthy (Some x)); [| done].
  destruct (activeActionType ui) eqn:Hm.
  - cbn [u_kills]. case_bool_decide as Hw; [| done].
    destruct Hcase as [? | [? | ?]]; done.
  - destruct (selectedRuneId ui) as [rid |]; [| done].
    destruct (truthy (Some rid)); [| done]. by destruct (findRune _ _).
Qed.

(** X6: the recorded werewolf target is the oracle's kill target
    whenever the oracle names one, whatever the user does; without one it
    is the target of an alive Werewolf user acting with the role action,
    and there is none in every other case. The recorded doctor target is
    that same id or nothing, and no seer target is ever recorded. *)
Theorem primary_kill_precedence
    (s : GameState) (user : Player) (ui : UiState) (b : BotNightAction) :
  let tg := targets (resolveNight s user ui b) in
  (forall t, werewolfKillTargetId b = Some t -> t <> "" -> werewolf tg = Some t) /\
  (truthy (werewolfKillTargetId b) = false ->
   forall x, isAlive user = true -> role user = WEREWOLF ->
             activeActionType ui = ROLE ->
             selectedActionTarget ui = Some x -> x <> "" ->
             werewolf tg = Some x) /\
  (truthy (werewolfKillTargetId b) = false ->
   isAlive user = false \/ role user <> WEREWOLF \/ activeActionType ui = RUNE ->
   werewolf tg = None) /\
  (doctor tg = None \/ doctor tg = werewolf tg) /\
  seer tg = None.
Proof.
  cbn. unfold nightKills, botKills, primaryDocTargetOf.
  split; [| split; [| split; [| split; [| done]]]].
  - intros t -> Ht. apply truthy_Some in Ht. by rewrite Ht.
  - intros Hb x Ha Hr Hm Hx Hne.
    assert (u_kills (userEffect user ui) = [x]) as ->.
    { unfold userEffect. rewrite Hx, Ha, Hm, Hr. apply truthy_Some in Hne.
      by rewrite Hne. }
    destruct (werewolfKillTargetId b) as [t |]; [| done]. by rewrite Hb.
  - intros Hb Hcase. rewrite (userEffect_no_kill user ui Hcase).
    destruct (werewolfKillTargetId b) as [t |]; [| done]. by rewrite Hb.
  - destruct (existsb _ _); [by right | by left].
Qed.

(** ** The tally *)

(** X7: the tally gives every target id that is neither empty nor the
    name of a member of [Object.prototype] exactly the number of oracle
    actions that vote for it, plus one when the living user votes for
    it; who the voters are (their ids, alive or dead, in the roster or
    not, voting once or several times) plays no part. For the name of a
    member of [Object.prototype] the value is never a number, however
    many votes it gets, and the empty id is never counted. *)
Theorem tally_counts_votes
    (s : GameState) (sel : option string) (b : list BotDayAction) (k : string) :
  (k <> "" -> inherited k = false ->
   countOf k (tallyVotes s sel b) =
   Num (Z.of_nat (botVotesFor k b)
        + (if userAlive s && opt_eqb sel (Some k) then 1 else 0))) /\
  (inherited k = true -> countOf k (tallyVotes s sel b) = NotNum) /\
  countOf "" (tallyVotes s sel b) = Num 0.
Proof.
  split; [| split].
  - intros Hk Hi. rewrite tally_counted by (by split). unfold votesFor.
    f_equal. destruct (_ && _); lia.
  - apply tally_inherited.
  - destruct (tallyVotes_wf s sel b) as [_ Hkeys]. unfold countOf.
    rewrite ownCount_None; [done |].
    intros c Hin%list_elem_of_In. rewrite Forall_forall in Hkeys.
    by destruct (Hkeys _ Hin) as (? & _).
Qed.

(** ** Phases, day count and winner *)

Lemma checkWinCondition_cases (ps : list Player) (s : GameState) :
  (checkWinCondition ps s = (true, setWinner Villagers s) /\ aliveWerewolvesOf ps = 0%nat) \/
  (checkWinCondition ps s = (true, setWinner Werewolves s) /\
   (1 <= aliveWerewolvesOf ps)%nat /\ (aliveVillagersOf ps <= aliveWerewolvesOf ps)%nat) \/
  (checkWinCondition ps s = (false, s) /\ undecided ps).
Proof.
  unfold checkWinCondition, undecided.
  destruct (Nat.eqb_spec (aliveWerewolvesOf ps) 0); [by left |].
  destruct (Nat.leb_spec (aliveVillagersOf ps) (aliveWerewolvesOf ps));
    [right; left | right; right]; repeat split; lia.
Qed.

Lemma processNightResults_phase (s : GameState) :
  phase (processNightResults s) = DAY_DISCUSSION \/
  phase (processNightResults s) = GAME_OVER.
Proof.
  unfold processNightResults. cbv zeta.
  match goal with |- context [checkWinCondition ?ps ?st] =>
    destruct (checkWinCondition_cases ps st) as [[-> _] | [[-> _] | [-> _]]] end;
    cbn; auto.
Qed.

Lemma processNightResults_dayCount (s : GameState) :
  dayCount (processNightResults s) = dayCount s /\
  targets (processNightResults s) = targets s /\
  moonPhase (processNightResults s) = moonPhase s.
Proof.
  unfold processNightResults. cbv zeta.
  match goal with |- context [checkWinCondition ?ps ?st] =>
    destruct (checkWinCondition_cases ps st) as [[-> _] | [[-> _] | [-> _]]] end;
    by cbn.
Qed.

(** [confirmVote] past its guard: the two ways it ends. *)
Lemma confirmVote_ends (s : GameState) (sel : option string) (b : list BotDayAction) :
  negb (truthy sel) && userAlive s = false ->
  let s' := confirmVote s sel b in
  let ps := votedRoster s sel b in
  moonPhase s' = moonPhase s /\
  ((phase s' = GAME_OVER /\ dayCount s' = dayCount s /\
    targets s' = targets s /\ players s' = ps /\
    (winner s' = Some Villagers /\ aliveWerewolvesOf ps = 0%nat \/
     winner s' = Some Werewolves /\ (1 <= aliveWerewolvesOf ps)%nat /\
     (aliveVillagersOf ps <= aliveWerewolvesOf ps)%nat)) \/
   (phase s' = NIGHT_INTRO /\ winner s' = winner s /\
    dayCount s' = (dayCount s + 1)%Z /\ targets s' = noTargets /\
    players s' = map (setVotesAgainst 0) ps /\
    undecided (map (setVotesAgainst 0) ps))).
Proof.
  intros Hg. cbv zeta. rewrite confirmVote_unfold by done. cbv zeta.
  assert (aliveWerewolvesOf (map (setVotesAgainst 0) (votedRoster s sel b))
          = aliveWerewolvesOf (votedRoster s sel b) /\
          aliveVillagersOf (map (setVotesAgainst 0) (votedRoster s sel b))
          = aliveVillagersOf (votedRoster s sel b)) as [Hc1 Hc2].
  { unfold aliveWerewolvesOf, aliveVillagersOf.
    induction (votedRoster s sel b) as [| p ps [IH1 IH2]]; [done |]. cbn.
    destruct (isAlive p && isWerewolf (role p)); destruct (isAlive p && negb _);
      cbn; rewrite ?IH1, ?IH2; done. }
  destruct (checkWinCondition_cases (map (setVotesAgainst 0) (votedRoster s sel b))
              (setPlayers (votedRoster s sel b) s))
    as [[-> Hw] | [[-> Hw] | [-> Hw]]]; cbn [fst snd]; cbn.
  - split; [done |]. left. split; [done |]. split; [done |]. split; [done |].
    split; [done |]. left. split; [done |]. by rewrite <- Hc1.
  - split; [done |]. left. split; [done |]. split; [done |]. split; [done |].
    split; [done |]. right. split; [done |]. by rewrite <- Hc1, <- Hc2.
  - split; [done |]. right. split; [done |]. split; [done |]. split; [done |].
    split; [done |]. split; [done | exact Hw].
Qed.

(** X8: a transition of the running game moves the phase along the
    cycle night intro, night action, day intro, day discussion, day vote
    and back to the night intro, or into [GAME_OVER] from the day intro
    and the day vote only; nothing leaves [GAME_OVER] or [SETUP] but a
    restart. The day count moves at the step from the vote to the night
    intro only, by one. *)
Theorem phases_follow_the_cycle (s s' : GameState) :
  playStep s s' ->
  phaseNext (phase s) (phase s') /\
  (phase s = DAY_VOTING /\ phase s' = NIGHT_INTRO /\
   dayCount s' = (dayCount s + 1)%Z \/
   ~ (phase s = DAY_VOTING /\ phase s' = NIGHT_INTRO) /\ dayCount s' = dayCount s).
Proof.
  intros [s0 Hph | s0 Hph | s0 u b s1 Hph Hc | s0 Hph | s0 Hph | s0 sel b Hph];
    rewrite Hph; cbn [phaseNext].
  - split; [by left |]. right. by split; [intros [? _] |].
  - split; [by right |]. right. by split; [intros [? _] |].
  - unfold confirmNightAction in Hc.
    destruct (negb _ && _).
    + injection Hc as <-. split; [by left |]. right. by split; [intros [? _] |].
    + destruct (userPlayerOf s0) as [user |]; [| done]. injection Hc as <-.
      split; [by right |]. right. by split; [intros [? _] |].
  - split; [apply processNightResults_phase |]. right.
    split; [by intros [? _] | apply processNightResults_dayCount].
  - split; [done |]. right. by split; [intros [? _] |].
  - destruct (negb (truthy sel) && userAlive s0) eqn:Hg.
    + unfold confirmVote. rewrite Hg, Hph. split; [by left |]. right.
      by split; [intros [_ ?] |].
    + destruct (confirmVote_ends s0 sel b Hg)
        as (_ & [(-> & Hd & _) | (-> & _ & Hd & _)]).
      * split; [by right; right |]. right. by split; [intros [_ ?] |].
      * split; [by right; left |]. by left.
Qed.

Lemma phases_follow_the_cycle_witness :
  phaseNext (phase demoDay) (phase (confirmVote demoDay (Some "e") ghostVotes)) /\
  dayCount (confirmVote demoDay (Some "e") ghostVotes) = 2%Z.
Proof.
  destruct (phases_follow_the_cycle demoDay (confirmVote demoDay (Some "e") ghostVotes))
    as [H1 [(_ & _ & H2) | (H2 & _)]].
  - apply play_vote. reflexivity.
  - split; [exact H1 | exact H2].
  - exfalso. apply H2. by vm_compute.
Defined.

(** ** The winner and the position *)

Lemma filter_length_perm {A} (f : A -> bool) (l l' : list A) :
  Permutation l l' -> length (List.filter f l) = length (List.filter f l').
Proof.
  induction 1 as [| x l l' _ IH | x y l | l l' l'' _ IH1 _ IH2]; cbn.
  - done.
  - destruct (f x); cbn; by rewrite IH.
  - by destruct (f x), (f y).
  - congruence.
Qed.

(** The two counts of the win evaluation read the [isAlive] and [role]
    columns only. *)
Lemma counts_columns (ps ps' : list Player) :
  map isAlive ps' = map isAlive ps -> map role ps' = map role ps ->
  aliveWerewolvesOf ps' = aliveWerewolvesOf ps /\
  aliveVillagersOf ps' = aliveVillagersOf ps.
Proof.
  unfold aliveWerewolvesOf, aliveVillagersOf. revert ps'.
  induction ps as [| p ps IH]; intros [| p' ps'] Ha Hr; try done.
  injection Ha as Ha1 Ha. injection Hr as Hr1 Hr.
  destruct (IH ps' Ha Hr) as [IH1 IH2]. cbn. rewrite Ha1, Hr1.
  destruct (isAlive p && isWerewolf (role p)); destruct (isAlive p && negb _);
    cbn; by rewrite ?IH1, ?IH2.
Qed.

Lemma identity_roles (ps ps' : list Player) :
  Forall2 samePlayerIdentity ps ps' -> map role ps' = map role ps.
Proof.
  induction 1 as [| p p' ps ps' (_ & _ & Hr & _) _ IH]; [done |].
  cbn. by rewrite Hr, IH.
Qed.

Lemma undecided_columns (ps ps' : list Player) :
  map isAlive ps' = map isAlive ps -> map role ps' = map role ps ->
  undecided ps -> undecided ps'.
Proof.
  intros Ha Hr. unfold undecided. by destruct (counts_columns ps ps' Ha Hr) as [-> ->].
Qed.

(** The state after [checkWinCondition]. *)
Lemma checkWinCondition_state (ps : list Player) (st : GameState) :
  let s' := snd (checkWinCondition ps st) in
  (phase s' = GAME_OVER /\
   (winner s' = Some Villagers /\ aliveWerewolvesOf ps = 0%nat \/
    winner s' = Some Werewolves /\ (1 <= aliveWerewolvesOf ps)%nat /\
    (aliveVillagersOf ps <= aliveWerewolvesOf ps)%nat)) \/
  (s' = st /\ undecided ps).
Proof.
  cbv zeta. destruct (checkWinCondition_cases ps st) as [[-> H] | [[-> H] | [-> H]]]; cbn.
  - left. split; [done |]. by left.
  - left. split; [done |]. right. by split.
  - right. by split.
Qed.

Lemma filter_imap_alive (g : nat -> Role -> Player) (f : Role -> bool) (l : list Role) :
  (forall i r, isAlive (g i r) = true /\ role (g i r) = r) ->
  length (List.filter (fun p => isAlive p && f (role p)) (imap g l))
  = length (List.filter f l).
Proof.
  revert g. induction l as [| r l IH]; intros g Hg; [done |].
  rewrite imap_cons. cbn [List.filter]. destruct (Hg 0%nat r) as [-> ->]. cbn [andb].
  assert (length (List.filter (fun p => isAlive p && f (role p)) (imap (g ∘ S) l))
          = length (List.filter f l)) as E by (apply IH; intros i x; apply Hg).
  destruct (f r); cbn [length]; by rewrite E.
Qed.

Lemma startGame_undecided (e : SetupEntropy) (selectedRole : Role) :
  fairShuffles e ->
  undecided (players (startGame e selectedRole)) /\
  length (players (startGame e selectedRole)) = 8%nat.
Proof.
  intros [Hroles Hplayers].
  set (botRoles := shuffleRoles e (tail (rolesPoolOf selectedRole))).
  assert (Permutation (players (startGame e selectedRole))
                      (mkUserPlayer e selectedRole :: imap (mkBot e) botRoles)) as Hperm
    by apply Hplayers.
  assert (Permutation botRoles
            [WEREWOLF; SEER; DOCTOR; VILLAGER; VILLAGER; VILLAGER; WEREWOLF]) as Hbots
    by apply Hroles.
  assert (length botRoles = 7%nat) as Hlen by (by rewrite Hbots).
  assert (forall f : Role -> bool,
             length (List.filter (fun p => isAlive p && f (role p))
                                 (imap (mkBot e) botRoles))
             = length (List.filter f botRoles)) as Hcount
    by (intros f; by apply filter_imap_alive).
  split.
  - unfold undecided, aliveWerewolvesOf, aliveVillagersOf.
    rewrite !(filter_length_perm _ _ _ Hperm). cbn [List.filter mkUserPlayer isAlive role andb].
    assert (length (List.filter isWerewolf botRoles) = 2%nat) as Hw
      by (by rewrite (filter_length_perm _ _ _ Hbots)).
    assert (length (List.filter (fun r => negb (isWerewolf r)) botRoles) = 5%nat) as Hv
      by (by rewrite (filter_length_perm _ _ _ Hbots)).
    destruct (isWerewolf selectedRole); cbn [negb length];
      rewrite (Hcount isWerewolf), (Hcount (fun r => negb (isWerewolf r))), Hw, Hv; lia.
  - rewrite (Permutation_length Hperm). cbn. by rewrite length_imap, Hlen.
Qed.

Lemma moonAt_valid (d : Z) :
  (1 <= d)%Z ->
  moonAt (Z.rem (d - 1) (Z.of_nat (length MOON_PHASES)))
  = nth (Z.to_nat ((d - 1) mod 8)) MOON_PHASES "" /\
  In (moonAt (Z.rem (d - 1) (Z.of_nat (length MOON_PHASES)))) MOON_PHASES.
Proof.
  intros Hd. change (Z.of_nat (length MOON_PHASES)) with 8%Z.
  rewrite Z.rem_mod_nonneg by lia. unfold moonAt.
  pose proof (Z.mod_pos_bound (d - 1) 8 ltac:(lia)) as Hb.
  destruct (Z.ltb_spec ((d - 1) mod 8) 0); [lia |]. split; [done |].
  apply nth_In. cbn. lia.
Qed.

Lemma running_no_winner (s : GameState) :
  (phase s = GAME_OVER <-> winner s <> None) -> phase s <> GAME_OVER -> winner s = None.
Proof.
  intros Hgo Hph. destruct (winner s) as [w |]; [| done].
  exfalso. by apply Hph, Hgo.
Qed.

Lemma gameInv_columns (s s' : GameState) :
  map isAlive (players s') = map isAlive (players s) ->
  map role (players s') = map role (players s) ->
  winner s' = winner s ->
  dayCount s' = dayCount s ->
  phase s <> SETUP -> phase s <> GAME_OVER ->
  phase s' <> SETUP -> phase s' <> GAME_OVER ->
  In (moonPhase s') MOON_PHASES ->
  gameInv s -> gameInv s'.
Proof.
  intros Ha Hr Hw Hd Hp1 Hp2 Hp1' Hp2' Hmoon (Hgo & Hv & Hww & Hu & Hsetup & Hday & _).
  destruct (counts_columns _ _ Ha Hr) as [Hc1 Hc2].
  assert (winner s = None) as Hnone by (by apply running_no_winner).
  unfold gameInv. rewrite Hw, Hd, Hnone.
  split; [split; [done | by intros []] |].
  split; [done |]. split; [done |].
  split; [intros _ _; apply (undecided_columns (players s)); auto |].
  split; [done |]. split; [| done]. intros _. destruct (Hday Hp1) as [? Hl].
  split; [done |]. rewrite <- Hl.
  by rewrite <- (length_map isAlive), Ha, length_map.
Qed.

Lemma processNightResults_unfold (s : GameState) :
  let ps :=
    if truthy (werewolf (targets s))
       && negb (opt_eqb (werewolf (targets s)) (doctor (targets s)))
    then killFirst (default "" (werewolf (targets s))) (players s)
    else players s in
  processNightResults s
  = snd (checkWinCondition ps (setPhase DAY_DISCUSSION (setPlayers ps s))).
Proof.
  cbv zeta. unfold processNightResults. cbv zeta.
  assert (derefAll
            (if truthy (werewolf (targets s))
             then if opt_eqb (werewolf (targets s)) (doctor (targets s))
                  then players s
                  else markDead (default "" (werewolf (targets s)))
                         (arrayOf (players s)) (players s)
             else players s)
            (arrayOf (players s))
          = if truthy (werewolf (targets s))
               && negb (opt_eqb (werewolf (targets s)) (doctor (targets s)))
            then killFirst (default "" (werewolf (targets s))) (players s)
            else players s) as ->; [| done].
  destruct (truthy (werewolf (targets s))); cbn [andb]; [| apply derefAll_arrayOf].
  destruct (opt_eqb _ _); cbn [negb]; [apply derefAll_arrayOf | apply markDead_arrayOf].
Qed.

Lemma playStep_gameInv (s s' : GameState) :
  playStep s s' -> gameInv s -> gameInv s'.
Proof.
  intros Hstep Hinv.
  pose proof (playStep_identity s s' Hstep) as [Hid _].
  pose proof (identity_roles _ _ Hid) as Hroles.
  pose proof Hinv as (Hgo & Hv & Hww & Hu & Hsetup & Hday & Hmoon).
  destruct Hstep as [s Hph | s Hph | s u b s' Hph Hc | s Hph | s Hph | s sel b Hph].
  - apply (gameInv_columns s); try done; try (cbn; rewrite Hph; done).
    + cbn. rewrite map_map. by apply map_ext.
    + cbn. apply moonAt_valid. apply Hday. by rewrite Hph.
  - apply (gameInv_columns s); try done; try (cbn; rewrite ?Hph; done).
  - unfold confirmNightAction in Hc.
    destruct (negb _ && _); [by injection Hc as <- |].
    destruct (userPlayerOf s) as [user |]; [| done]. injection Hc as <-.
    apply (gameInv_columns s); try done; try (cbn; rewrite ?Hph; done).
    apply updateCooldowns_isAlive.
  - assert (winner s = None) as Hnone
      by (apply running_no_winner; [done | by rewrite Hph]).
    destruct (Hday ltac:(by rewrite Hph)) as [Hd Hl].
    pose proof (processNightResults_dayCount s) as (Hd' & _ & Hm').
    assert (length (players (processNightResults s)) = 8%nat) as Hl'
      by (by rewrite <- Hl, <- (length_map role), Hroles, length_map).
    pose proof (processNightResults_unfold s) as Hun.
    rewrite <- processNightResults_players in Hun.
    destruct (checkWinCondition_state (players (processNightResults s))
                (setPhase DAY_DISCUSSION
                   (setPlayers (players (processNightResults s)) s)))
      as [(Hgo' & Hwin) | (Heq & Hund)]; cbv zeta in *; rewrite <- Hun in *.
    + unfold gameInv. rewrite Hd', Hm', Hgo', Hl'.
      split; [split; [intros _; by destruct Hwin as [[-> _] | [-> _]] | done] |].
      split; [intros Hv'; destruct Hwin as [[_ ?] | [E _]]; [done | congruence] |].
      split; [intros Hv'; destruct Hwin as [[E _] | [_ ?]]; [congruence | done] |].
      repeat split; first [done | lia].
    + assert (phase (processNightResults s) = DAY_DISCUSSION) as Hp'
        by (by rewrite Heq).
      assert (winner (processNightResults s) = None) as Hw'
        by (rewrite Heq; exact Hnone).
      unfold gameInv. rewrite Hd', Hm', Hl', Hp', Hw'.
      split; [split; [done | by intros []] |].
      split; [done |]. split; [done |]. split; [by intros _ _ |].
      split; [done |]. by split.
  - apply (gameInv_columns s); try done; try (cbn; rewrite ?Hph; done).
  - destruct (negb (truthy sel) && userAlive s) eqn:Hg;
      [unfold confirmVote; by rewrite Hg |].
    assert (winner s = None) as Hnone
      by (apply running_no_winner; [done | by rewrite Hph]).
    destruct (Hday ltac:(by rewrite Hph)) as [Hd Hl].
    assert (length (players (confirmVote s sel b)) = 8%nat) as Hl'
      by (by rewrite <- Hl, <- (length_map role), Hroles, length_map).
    destruct (confirmVote_ends s sel b Hg) as
      (Hm' & [(Hp' & Hd' & _ & Hps' & Hwin) | (Hp' & Hw' & Hd' & _ & Hps' & Hund)]);
      cbv zeta in *.
    + rewrite <- Hps' in Hwin. unfold gameInv. rewrite Hm', Hp', Hl', Hd'.
      split; [split; [intros _; by destruct Hwin as [[-> _] | [-> _]] | done] |].
      split; [intros Hv'; destruct Hwin as [[_ ?] | [E _]]; [done | congruence] |].
      split; [intros Hv'; destruct Hwin as [[E _] | [_ ?]]; [congruence | done] |].
      split; [done |]. split; [done |]. by split.
    + unfold gameInv. rewrite Hm', Hp', Hl', Hd', Hps', Hw', Hnone.
      split; [split; [done | by intros []] |].
      split; [done |]. split; [done |]. split; [by intros _ _ |].
      split; [done |]. split; [| done]. intros _. split; [lia | done].
Qed.

Lemma reachable_gameInv (s : GameState) : reachable s -> gameInv s.
Proof.
  induction 1 as [| s s' _ IH Hstep].
  - unfold gameInv. cbn. repeat split; try done; try (by intros []); by left.
  - destruct Hstep as [e r s _ He | s | s s' Hplay].
    + destruct (startGame_undecided e r He) as [Hu Hl].
      unfold gameInv. cbn [phase winner dayCount moonPhase startGame].
      split; [split; [done | by intros []] |].
      split; [done |]. split; [done |]. split; [by intros _ _ |].
      split; [done |]. split; [by intros _ | by left].
    + unfold gameInv. cbn. repeat split; try done; try (by intros []); by left.
    + by apply (playStep_gameInv s s').
Qed.

(** X9: in every state of a run the session is in [GAME_OVER] exactly
    when a winner is recorded, and the recorded winner is right for the
    stored roster: no werewolf is alive when the Villagers have won, and
    some werewolf is alive and the alive werewolves are at least as many
    as the others when the Werewolves have won. *)
Theorem winner_matches_roster (s : GameState) :
  reachable s ->
  (phase s = GAME_OVER <-> winner s <> None) /\
  (winner s = Some Villagers -> aliveWerewolvesOf (players s) = 0%nat) /\
  (winner s = Some Werewolves ->
   (1 <= aliveWerewolvesOf (players s))%nat /\
   (aliveVillagersOf (players s) <= aliveWerewolvesOf (players s))%nat).
Proof.
  intros (H1 & H2 & H3 & _)%reachable_gameInv. split; [exact H1 |]. by split.
Qed.

(** X10: in every state of a run between setup and game over the stored
    position is undecided (some werewolf is alive and the alive
    werewolves are fewer than the others), the roster has its eight
    participants and the day count is at least 1. *)
Theorem game_goes_on_undecided (s : GameState) :
  reachable s ->
  phase s <> SETUP -> phase s <> GAME_OVER ->
  undecided (players s) /\ length (players s) = 8%nat /\ (1 <= dayCount s)%Z.
Proof.
  intros (_ & _ & _ & Hu & _ & Hd & _)%reachable_gameInv H1 H2.
  destruct (Hd H1). split; [by apply Hu |]. by split.
Qed.

(** X11: in every state of a run the moon phase is one of the eight
    names (the lookup never misses), and the night intro of day [d]
    shows the name of index [(d - 1) mod 8]. *)
Theorem moon_phase_cycles (s : GameState) :
  reachable s ->
  In (moonPhase s) MOON_PHASES /\
  (phase s = NIGHT_INTRO ->
   moonPhase (tickDown s) = nth (Z.to_nat ((dayCount s - 1) mod 8)) MOON_PHASES "").
Proof.
  intros (_ & _ & _ & _ & _ & Hd & Hm)%reachable_gameInv. split; [done |].
  intros Hph. cbn. apply moonAt_valid. apply Hd. by rewrite Hph.
Qed.

Lemma reachable_demoEnd : reachable (confirmVote demoDay (Some "e") demoVotes).
Proof.
  eapply reachable_step; [apply reachable_demoDay |].
  apply step_play, play_vote. reflexivity.
Qed.

Lemma reachable_demoNight2 : reachable (confirmVote demoDay (Some "e") ghostVotes).
Proof.
  eapply reachable_step; [apply reachable_demoDay |].
  apply step_play, play_vote. reflexivity.
Qed.

Lemma winner_matches_roster_witness :
  (1 <= aliveWerewolvesOf (players (confirmVote demoDay (Some "e") demoVotes)))%nat /\
  (aliveVillagersOf (players (confirmVote demoDay (Some "e") demoVotes))
   <= aliveWerewolvesOf (players (confirmVote demoDay (Some "e") demoVotes)))%nat.
Proof.
  destruct (winner_matches_roster _ reachable_demoEnd) as (_ & _ & H).
  apply H. reflexivity.
Defined.

Lemma game_goes_on_undecided_witness : undecided (players demoDay).
Proof.
  destruct (game_goes_on_undecided demoDay reachable_demoDay) as (H & _);
    [discriminate | discriminate | exact H].
Defined.

Lemma moon_phase_cycles_witness :
  moonPhase (tickDown (confirmVote demoDay (Some "e") ghostVotes)) = "Waxing Crescent".
Proof.
  destruct (moon_phase_cycles _ reachable_demoNight2) as (_ & H).
  rewrite H; reflexivity.
Defined.

(** ** The user's action *)

Ltac one_action :=
  cbn; repeat case_bool_decide; try congruence; cbn; split; [lia |];
  split; [intros y Hy; repeat (destruct Hy as [<- | Hy]; [done |]); destruct Hy |];
  split; [done |]; split; [done |]; split; done.

(** X12: the user's night action is one action at most: it puts at most
    one id on the kill, save and reveal lists taken together, and that
    id is the selected target of an alive user; casting a rune never
    kills (a Werewolf who casts a rune forgoes the kill), the role
    action uses no rune, and a Villager's role action, like any action
    of a dead user, does nothing at all. *)
Theorem one_action_per_night (user : Player) (ui : UiState) :
  let ef := userEffect user ui in
  (length (u_kills ef) + length (u_saves ef) + length (u_reveals ef) <= 1)%nat /\
  (forall x, In x (u_kills ef ++ u_saves ef ++ u_reveals ef) ->
             selectedActionTarget ui = Some x /\ x <> "" /\ isAlive user = true) /\
  (activeActionType ui = RUNE -> u_kills ef = []) /\
  (activeActionType ui = ROLE -> userUsedRuneId ef = None) /\
  (activeActionType ui = ROLE -> role user = VILLAGER -> ef = noUserEffect) /\
  (isAlive user = false -> ef = noUserEffect).
Proof.
  cbv zeta. unfold userEffect.
  destruct (selectedActionTarget ui) as [x |]; [| one_action].
  destruct (isAlive user) eqn:Ha; cbn [andb]; [| one_action].
  destruct (truthy (Some x)) eqn:Ht; [| one_action].
  apply truthy_Some in Ht.
  destruct (activeActionType ui).
  - destruct (role user); one_action.
  - destruct (selectedRuneId ui) as [rid |]; [| one_action].
    destruct (truthy (Some rid)); [| one_action].
    destruct (findRune rid (runes user)) as [rune |]; [| one_action].
    destruct (rune_type rune); one_action.
Qed.

(** ** Runes of the bots *)

Lemma find_Forall2 {A} (R : A -> A -> Prop) (f : A -> bool) (l l' : list A) :
  Forall2 R l l' -> (forall x y, R x y -> f y = f x) ->
  match List.find f l, List.find f l' with
  | Some x, Some y => R x y
  | None, None => True
  | _, _ => False
  end.
Proof.
  intros H Hf. induction H as [| x y l l' Hxy _ IH]; [done |].
  cbn. rewrite (Hf x y Hxy). by destruct (f x).
Qed.

Lemma botRuneSave_identity (ps ps' : list Player) (ra : RuneAction) :
  Forall2 samePlayerIdentity ps ps' -> botRuneSave ps' ra = botRuneSave ps ra.
Proof.
  intros H. unfold botRuneSave, findPlayer, findRune.
  assert (forall x y, sameRuneIdentity x y ->
                      rune_id y = rune_id x /\ rune_type y = rune_type x) as Hsame.
  { intros x y E. unfold sameRuneIdentity in E. destruct x, y. cbn in *.
    by injection E as -> -> -> -> ->. }
  assert (Hp := find_Forall2 samePlayerIdentity
                  (fun p => player_id p =? ra_playerId ra) ps ps' H).
  lapply Hp; [clear Hp; intros Hp | by intros x y (-> & _)].
  destruct (List.find _ ps) as [p |], (List.find _ ps') as [p' |]; try done.
  destruct Hp as (_ & _ & _ & _ & _ & Hr).
  assert (Hq := find_Forall2 sameRuneIdentity
                  (fun r => rune_id r =? ra_runeId ra) (runes p) (runes p') Hr).
  lapply Hq; [clear Hq; intros Hq | by intros x y [-> _]%Hsame].
  destruct (List.find _ (runes p)) as [r |], (List.find _ (runes p')) as [r' |];
    try done.
  by destruct (Hsame _ _ Hq) as [_ ->].
Qed.

(** X13: whether a bot's rune saves depends on who owns which rune
    only: the saves that the oracle's rune actions produce are the same
    on any roster with the same participants and runes, whatever the
    remaining cooldowns and whoever is alive. So a Shield rune on
    cooldown, or owned by a dead bot, still saves. *)
Theorem bot_runes_are_unchecked (ps ps' : list Player) (b : BotNightAction) :
  Forall2 samePlayerIdentity ps ps' ->
  botRuneSaves ps' b = botRuneSaves ps b.
Proof.
  intros H. unfold botRuneSaves.
  induction (runeActions b) as [| ra ras IH]; [done |].
  cbn. by rewrite IH, (botRuneSave_identity ps ps' ra H).
Qed.

Lemma bot_runes_are_unchecked_witness :
  botRuneSaves spentRoster shieldBot = ["i"].
Proof.
  rewrite (bot_runes_are_unchecked (players demoNight) spentRoster shieldBot);
    [reflexivity |].
  unfold spentRoster. apply Forall2_fmap_r, Forall_Forall2_diag, Forall_forall.
  intros p _. repeat split. cbn. apply sameRuneIdentity_map.
  intros r. unfold consumeRune. destruct (rune_id r =? "d"); by destruct r.
Defined.

(** ** The log and the roster *)

Lemma killFirst_found (t : string) (ps : list Player) (p : Player) :
  findPlayer t ps = Some p ->
  exists i, ps !! i = Some p /\
            map isAlive (killFirst t ps) = <[i := false]> (map isAlive ps).
Proof.
  induction ps as [| q ps IH]; [done |]. cbn.
  destruct (player_id q =? t).
  - intros [= ->]. by exists 0%nat.
  - intros (i & Hi & Hcol)%IH. exists (S i). split; [done |]. cbn. by rewrite Hcol.
Qed.

Lemma killFirst_not_found (t : string) (ps : list Player) :
  findPlayer t ps = None -> killFirst t ps = ps.
Proof.
  induction ps as [| q ps IH]; [done |]. cbn.
  destruct (player_id q =? t); [done |]. intros H. by rewrite IH.
Qed.

Lemma column_lookup (ps : list Player) (j : nat) (p : Player) :
  ps !! j = Some p -> map isAlive ps !! j = Some (isAlive p).
Proof. intros H. change (map isAlive ps) with (isAlive <$> ps). by rewrite list_lookup_fmap, H. Qed.

Lemma died_at (ps ps' : list Player) (i j : nat) (p p' : Player) :
  map isAlive ps' = <[i := false]> (map isAlive ps) ->
  ps !! j = Some p -> ps' !! j = Some p' ->
  isAlive p = true -> isAlive p' = false -> j = i.
Proof.
  intros Hcol Hp%column_lookup Hp'%column_lookup Ha Hd.
  destruct (decide (j = i)) as [-> | Hne]; [done |].
  rewrite Hcol, list_lookup_insert_ne in Hp' by done. congruence.
Qed.

Lemma dead_at (ps ps' : list Player) (i : nat) (p : Player) :
  map isAlive ps' = <[i := false]> (map isAlive ps) ->
  ps !! i = Some p -> exists p', ps' !! i = Some p' /\ isAlive p' = false.
Proof.
  intros Hcol Hp.
  assert (i < length ps)%nat as Hlt by (by eapply lookup_lt_Some).
  assert (length ps' = length ps) as Hlen.
  { rewrite <- (length_map isAlive ps'), Hcol, length_insert. apply length_map. }
  destruct (lookup_lt_is_Some_2 ps' i) as [p' Hp']; [lia |].
  exists p'. split; [done |].
  apply column_lookup in Hp'. rewrite Hcol, list_lookup_insert_eq in Hp'
    by (rewrite length_map; lia).
  congruence.
Qed.

Lemma same_column (ps ps' : list Player) (j : nat) (p p' : Player) :
  map isAlive ps' = map isAlive ps ->
  ps !! j = Some p -> ps' !! j = Some p' -> isAlive p' = isAlive p.
Proof. intros Hcol Hp%column_lookup Hp'%column_lookup. rewrite Hcol in Hp'. congruence. Qed.



Lemma findPlayer_tallied (t : string) (s : GameState) (sel : option string)
    (b : list BotDayAction) :
  findPlayer t (talliedRoster s sel b) =
  (fun p => setVotesAgainst (countOf (player_id p) (tallyVotes s sel b)) p)
    <$> findPlayer t (players s).
Proof.
  unfold talliedRoster, findPlayer.
  induction (players s) as [| p ps IH]; [done |]. cbn.
  by destruct (player_id p =? t).
Qed.

(** The three ways a vote ends. *)
Lemma vote_outcome (s : GameState) (sel : option string) (b : list BotDayAction) :
  negb (truthy sel) && userAlive s = false ->
  (truthy (pickEliminated (tallyVotes s sel b)) = false /\
   verdictLogs s sel b = noVerdict /\
   map isAlive (players (confirmVote s sel b)) = map isAlive (players s)) \/
  (truthy (pickEliminated (tallyVotes s sel b)) = true /\
   findPlayer (default "" (pickEliminated (tallyVotes s sel b))) (players s) = None /\
   verdictLogs s sel b = [] /\
   map isAlive (players (confirmVote s sel b)) = map isAlive (players s)) \/
  (exists i p, players s !! i = Some p /\
     map isAlive (players (confirmVote s sel b)) = <[i := false]> (map isAlive (players s)) /\
     verdictLogs s sel b = verdictOn p).
Proof.
  intros Hg. rewrite (confirmVote_isAlive s sel b Hg).
  unfold verdictLogs, votedRoster. cbv zeta.
  destruct (truthy (pickEliminated _)) eqn:Ht.
  - right. rewrite findPlayer_tallied.
    destruct (findPlayer _ (players s)) as [p |] eqn:Hf; cbn.
    + right. destruct (killFirst_found _ _ _ Hf) as (i & Hi & Hcol).
      exists i, p. split; [done |]. split; [| done].
      rewrite <- Hcol. apply killFirst_column; [apply tallied_ids | apply tallied_isAlive].
    + left. repeat (split; [done |]).
      rewrite killFirst_not_found; [apply tallied_isAlive |].
      by rewrite findPlayer_tallied, Hf.
  - left. repeat (split; [done |]). apply tallied_isAlive.
Qed.

(** X15: the verdict of the day vote follows the roster. A participant
    who was alive at the vote and is dead after it is announced by the
    two events of an execution, which give the participant's name and
    true role; every system event of the verdict either says that the
    village could not agree, and then nobody died, or names a
    participant who is dead after the vote; and the verdict is silent
    exactly when the elected id names no participant. *)
Theorem verdict_matches_roster
    (s : GameState) (sel : option string) (b : list BotDayAction) :
  negb (truthy sel) && userAlive s = false ->
  let s' := confirmVote s sel b in
  (forall i p p', players s !! i = Some p -> players s' !! i = Some p' ->
     isAlive p = true -> isAlive p' = false ->
     verdictLogs s sel b = verdictOn p) /\
  (forall e, In e (verdictLogs s sel b) -> log_type e = system ->
     (e = mkLog "The village could not agree on who to execute." system None /\
      map isAlive (players s') = map isAlive (players s)) \/
     (exists i p p', players s !! i = Some p /\ players s' !! i = Some p' /\
        isAlive p' = false /\
        e = mkLog (player_name p +:+ " was voted out by the village.") system None)) /\
  (verdictLogs s sel b = [] <->
   exists t, pickEliminated (tallyVotes s sel b) = Some t /\ t <> "" /\
             findPlayer t (players s) = None).
Proof.
  intros Hg. cbv zeta.
  destruct (vote_outcome s sel b Hg)
    as [(Ht & -> & Hcol) | [(Ht & Hf & -> & Hcol) | (i & q & Hi & Hcol & Hv)]].
  - split; [| split].
    + intros j p p' Hp Hp' Ha Hd. rewrite (same_column _ _ _ _ _ Hcol Hp Hp') in Hd.
      congruence.
    + intros e [<- | [<- | []]]; [by left | discriminate].
    + split; [discriminate |]. intros (t & Et & Hne & _).
      rewrite Et in Ht. apply truthy_Some in Hne. congruence.
  - split; [| split].
    + intros j p p' Hp Hp' Ha Hd. rewrite (same_column _ _ _ _ _ Hcol Hp Hp') in Hd.
      congruence.
    + intros e [].
    + split; [intros _ | done].
      destruct (pickEliminated _) as [t |]; [| discriminate].
      exists t. split; [done |]. split; [by apply truthy_Some | exact Hf].
  - split; [| split].
    + intros j p p' Hp Hp' Ha Hd.
      assert (j = i) as -> by (by eapply died_at). congruence.
    + rewrite Hv. intros e [<- | [<- | []]]; [intros _ | discriminate]. right.
      destruct (dead_at _ _ _ _ Hcol Hi) as (p' & Hp' & Hd).
      by exists i, q, p'.
    + split; [by rewrite Hv |]. intros (t & Et & Hne & Hf).
      exfalso. revert Hv. unfold verdictLogs, verdictOn. cbv zeta.
      rewrite Et. change (default "" (Some t)) with t.
      rewrite findPlayer_tallied, Hf.
      apply truthy_Some in Hne. by rewrite Hne.
Qed.

Lemma verdict_matches_roster_witness :
  verdictLogs demoDay (Some "e") demoVotes =
  [ mkLog "Elara was voted out by the village." system None;
    mkLog "The village has spoken. Elara is executed. They were a Seer." narrative None ].
Proof.
  destruct (verdict_matches_roster demoDay (Some "e") demoVotes eq_refl) as (H & _).
  specialize (H 2%nat). vm_compute in H.
  exact (H _ _ eq_refl eq_refl eq_refl eq_refl).
Defined.

(** X16: in the discussion only the living speak: every chat event is
    the message of one of the oracle's moves, signed with the name of
    the participant whose id the move carries, and that participant is
    alive; moves of dead or unknown actors are dropped, so there are at
    most as many events as moves. With no bot alive the oracle is not
    asked and nobody speaks. The roster is as it was. *)
Theorem only_the_living_speak (s : GameState) (botMoves : list BotDayAction) :
  Forall (fun e =>
            log_type e = chat /\
            exists move p, In move botMoves /\
              findPlayer (bd_playerId move) (players s) = Some p /\
              isAlive p = true /\
              e = mkLog (chatMessage move) chat (Some (player_name p)))
         (discussionLogs s botMoves) /\
  (length (discussionLogs s botMoves) <= length botMoves)%nat /\
  (Forall (fun p => isAlive p && isBot p = false) (players s) ->
   forall response,
     discussionLogs s (generateBotDayActions (players s) response) = []) /\
  players (runDayDiscussion s) = players s.
Proof.
  split; [| split; [| split; [| done]]].
  - unfold discussionLogs. apply List.Forall_forall. intros e (m & Hm & He)%in_flat_map.
    unfold discussionLog in He.
    destruct (findPlayer _ _) as [p |] eqn:Hf; [| destruct He].
    destruct (isAlive p) eqn:Ha; [| destruct He].
    destruct He as [<- | []]. split; [done |]. by exists m, p.
  - unfold discussionLogs. induction botMoves as [| m ms IH]; [done |].
    cbn [flat_map]. rewrite length_app. cbn [length].
    assert (length (discussionLog s m) <= 1)%nat; [| lia].
    unfold discussionLog. destruct (findPlayer _ _) as [p |]; [| cbn; lia].
    destruct (isAlive p); cbn; lia.
  - intros Hnone response. unfold generateBotDayActions. cbv zeta.
    assert (List.filter (fun p => isAlive p && isBot p) (players s) = []) as ->; [| done].
    induction Hnone as [| p ps Hp _ IH]; [done |]. cbn. by rewrite Hp.
Qed.

(** ** The component state *)

Lemma appStep_step (a a' : App) :
  appStep a a' -> game a' = game a \/ step (game a) (game a').
Proof.
  destruct 1; cbn [game]; auto; right.
  - by apply step_start.
  - apply step_reset.
  - by apply step_play, play_tick.
  - by apply step_play, play_night_timer.
  - eapply step_play, play_night; eassumption.
  - by apply step_play, play_day_intro.
  - by apply step_play, play_discussion.
  - by apply step_play, play_vote.
Qed.

Lemma reachableApp_game (a : App) : reachableApp a -> reachable (game a).
Proof.
  induction 1 as [| a a' _ IH Hstep]; [apply reachable_init |].
  destruct (appStep_step a a' Hstep) as [-> | Hs]; [done |].
  by eapply reachable_step.
Qed.

Lemma canAct_phase (s : GameState) (u : UiState) (p : Player) :
  canAct s u p = true ->
  (phase s = NIGHT_ACTION \/ phase s = DAY_VOTING) /\ userAlive s = true.
Proof.
  unfold canAct, userAlive. destruct (userPlayerOf s) as [user |]; [| done].
  destruct (isAlive user); [| by rewrite !andb_false_r].
  destruct (decide (phase s = NIGHT_ACTION)) as [E | E]; [auto |].
  destruct (decide (phase s = DAY_VOTING)) as [E' | E']; [auto |].
  rewrite (bool_decide_eq_false_2 (phase s = NIGHT_ACTION)) by done.
  by rewrite (bool_decide_eq_false_2 (phase s = DAY_VOTING)) by done.
Qed.

Lemma startGame_phase (e : SetupEntropy) (r : Role) : phase (startGame e r) = NIGHT_INTRO.
Proof. reflexivity. Qed.

Lemma confirmVote_phases (s : GameState) (sel : option string) (b : list BotDayAction) :
  truthy sel = true ->
  phase (confirmVote s sel b) = GAME_OVER \/ phase (confirmVote s sel b) = NIGHT_INTRO.
Proof.
  intros Ht. rewrite confirmVote_phase by (by rewrite Ht).
  cbv zeta. destruct (fst _); auto.
Qed.

Lemma uiInv_step (a a' : App) : uiInv a -> appStep a a' -> uiInv a'.
Proof.
  intros Hinv Hstep. unfold uiInv in *.
  destruct Hstep as [e r a Hph Hfair | a Hw | a Hph | a Hph | a p Hin Hc
                     | a Hph Hal | a user rune Hph Hu Hal Hin Hready
                     | a b g' Hph Hal Ht Hc | a Hph | a Hph | a b Hph Hal Ht];
    cbn [game ui] in *.
  - by rewrite startGame_phase.
  - done.
  - change (phase (tickDown (game a))) with (phase (game a)). by rewrite Hph.
  - cbn. split; [by left |]. intros t. by cbn.
  - assert (targetLegal (mkApp (game a) (selectTarget (player_id p) (ui a)))) as Htl.
    { intros t [= <-]. by exists p. }
    assert (Hcan : canAct (game a) (ui a) p = true)
      by (unfold clickable in Hc; by apply andb_true_iff in Hc as [_ ?]).
    destruct (canAct_phase _ _ _ Hcan) as [[E | E] _]; rewrite E in *.
    + split; [| exact Htl]. exact (proj1 Hinv).
    + split; [| exact Htl]. exact (proj1 Hinv).
  - rewrite Hph. split; [by left |]. intros t. by cbn.
  - rewrite Hph. unfold toggleRuneMode.
    rewrite Hready. cbn [Z.ltb Z.compare].
    destruct (opt_eqb _ _).
    + split; [by left |]. intros t. by cbn.
    + split; [| intros t; by cbn]. right. split; [done |]. by exists user, rune.
  - unfold confirmNightAction in Hc. rewrite Ht in Hc. cbn in Hc.
    destruct (userPlayerOf (game a)); [| done]. by injection Hc as <-.
  - rewrite Hph in Hinv. destruct (processNightResults_phase (game a)) as [-> | ->]; done.
  - rewrite Hph in Hinv. cbn. split; [apply Hinv |]. intros t. cbn [ui].
    by rewrite (proj1 Hinv).
  - by destruct (confirmVote_phases (game a) _ b Ht) as [-> | ->].
Qed.

Lemma reachableApp_uiInv (a : App) : reachableApp a -> uiInv a.
Proof. induction 1; [done | by eapply uiInv_step]. Qed.


Lemma canAct_night (s : GameState) (u : UiState) (p user : Player) :
  userPlayerOf s = Some user -> phase s = NIGHT_ACTION -> canAct s u p = true ->
  isAlive user = true /\ isAlive p = true /\
  match activeActionType u with
  | ROLE => (role user = WEREWOLF /\ role p <> WEREWOLF) \/ role user = DOCTOR \/
            (role user = SEER /\ player_id p <> player_id user)
  | RUNE => exists rid rune, selectedRuneId u = Some rid /\ rid <> "" /\
              findRune rid (runes user) = Some rune /\
              (rune_type rune = SIGHT -> player_id p <> player_id user)
  end.
Proof.
  intros Hu Hph. unfold canAct. rewrite Hu, Hph.
  rewrite (bool_decide_eq_true_2 (NIGHT_ACTION = NIGHT_ACTION)) by done.
  rewrite (bool_decide_eq_false_2 (NIGHT_ACTION = DAY_VOTING)) by done.
  cbn [andb]. rewrite orb_false_r.
  destruct (isAlive user); [| done]. intros H. split; [done |].
  destruct (activeActionType u).
  - destruct (isAlive p); [| by rewrite !andb_false_r in H]. split; [done |].
    rewrite !andb_true_r in H.
    apply orb_true_iff in H as [[H | H]%orb_true_iff | H].
    + apply andb_true_iff in H as [H1%bool_decide_eq_true H2%negb_true_iff].
      left. split; [done |]. by apply bool_decide_eq_false in H2.
    + right. left. by apply bool_decide_eq_true in H.
    + apply andb_true_iff in H as [H1%bool_decide_eq_true H2%negb_true_iff].
      right. right. split; [done |]. by apply String.eqb_neq.
  - destruct (selectedRuneId u) as [rid |]; [| done].
    destruct (truthy (Some rid)) eqn:Ht; [| done].
    change (default "" (Some rid)) with rid in H.
    destruct (findRune rid (runes user)) as [rune |] eqn:Hf; [| done].
    destruct (isAlive p); [| done]. split; [done |].
    exists rid, rune. split; [done |]. split; [by apply truthy_Some |]. split; [done |].
    intros E. rewrite E in H. by apply negb_true_iff, String.eqb_neq in H.
Qed.

Lemma canAct_vote (s : GameState) (u : UiState) (p user : Player) :
  userPlayerOf s = Some user -> phase s = DAY_VOTING -> canAct s u p = true ->
  isAlive user = true /\ isAlive p = true /\ player_id p <> player_id user.
Proof.
  intros Hu Hph. unfold canAct. rewrite Hu, Hph.
  rewrite (bool_decide_eq_false_2 (DAY_VOTING = NIGHT_ACTION)) by done.
  rewrite (bool_decide_eq_true_2 (DAY_VOTING = DAY_VOTING)) by done.
  cbn. destruct (isAlive user), (isAlive p); try done.
  cbn. intros H%negb_true_iff%String.eqb_neq. done.
Qed.

Lemma findRune_id (rid : string) (rs : list Rune) (r : Rune) :
  findRune rid rs = Some r -> rune_id r = rid.
Proof. intros [_ H%String.eqb_eq]%find_some. exact H. Qed.

(** X17: what the user can do with the buttons the page offers. In
    every state of a run of the application, the night action the
    [confirmNightAction] button submits kills only an alive participant
    who is no werewolf, saves only an alive participant, reveals only
    an alive participant other than the user, and casts only a rune of
    the user that is ready; and the vote the [confirmVote] button
    submits names an alive participant other than the user. *)
Theorem user_action_is_legal (a : App) (user : Player) :
  reachableApp a -> userPlayerOf (game a) = Some user ->
  (phase (game a) = NIGHT_ACTION ->
   let ef := userEffect user (ui a) in
   (forall x, In x (u_kills ef) ->
      exists p, In p (players (game a)) /\ player_id p = x /\
                isAlive p = true /\ role p <> WEREWOLF) /\
   (forall x, In x (u_saves ef) ->
      exists p, In p (players (game a)) /\ player_id p = x /\ isAlive p = true) /\
   (forall x, In x (u_reveals ef) ->
      x <> player_id user /\
      exists p, In p (players (game a)) /\ player_id p = x /\ isAlive p = true) /\
   (forall rid, userUsedRuneId ef = Some rid ->
      exists rune, In rune (runes user) /\ rune_id rune = rid /\
                   currentCooldown rune = 0%Z)) /\
  (phase (game a) = DAY_VOTING ->
   forall t, selectedActionTarget (ui a) = Some t ->
     t <> player_id user /\
     exists p, In p (players (game a)) /\ player_id p = t /\ isAlive p = true).
Proof.
  intros Hinv%reachableApp_uiInv Hu. unfold uiInv in Hinv. split; intros Hph.
  - rewrite Hph in Hinv. destruct Hinv as [Hmode Htarget]. cbv zeta.
    unfold userEffect.
    destruct (selectedActionTarget (ui a)) as [t |] eqn:Et;
      [| cbn; split; [intros ? [] |]; split; [intros ? [] |]; split; [intros ? [] | intros ? [=]]].
    destruct (Htarget t Et) as (p & Hin & Hid & Hc).
    apply andb_true_iff in Hc as [_ Hc].
    destruct (canAct_night _ _ _ _ Hu Hph Hc) as (_ & Hp & Hrule).
    destruct (isAlive user && truthy (Some t));
      [| cbn; split; [intros ? [] |]; split; [intros ? [] |]; split; [intros ? [] | intros ? [=]]].
    destruct (activeActionType (ui a)) eqn:Em.
    + cbn [u_kills u_saves u_reveals userUsedRuneId].
      split; [| split; [| split; [| done]]].
      * case_bool_decide as Er; [| intros ? []]. intros x [<- | []].
        exists p. destruct Hrule as [[_ ?] | [? | [? _]]]; by try congruence.
      * case_bool_decide as Er; [| intros ? []]. intros x [<- | []]. by exists p.
      * case_bool_decide as Er; [| intros ? []]. intros x [<- | []].
        destruct Hrule as [[? _] | [? | [_ ?]]]; try congruence.
        split; [congruence | by exists p].
    + destruct Hrule as (rid & rune & Erid & Hne & Hfind & Hsight).
      rewrite Erid. apply truthy_Some in Hne. rewrite Hne, Hfind.
      cbn [u_kills u_saves u_reveals userUsedRuneId].
      split; [intros ? [] |]. split; [| split].
      * destruct (rune_type rune); [intros ? [] |]. intros x [<- | []]. by exists p.
      * destruct (rune_type rune) eqn:Ety; [| intros ? []]. intros x [<- | []].
        split; [rewrite <- Hid; by apply Hsight | by exists p].
      * intros ? [= <-].
        destruct Hmode as [[? _] | (_ & user' & rune' & Hu' & _ & Hin' & Hready & Esel)];
          [congruence |].
        exists rune'. assert (user' = user) as -> by congruence.
        split; [done |]. split; [| done].
        rewrite (findRune_id _ _ _ Hfind). congruence.
  - rewrite Hph in Hinv. destruct Hinv as [_ Htarget]. intros t Et.
    destruct (Htarget t Et) as (p & Hin & Hid & Hc).
    apply andb_true_iff in Hc as [_ Hc].
    destruct (canAct_vote _ _ _ _ Hu Hph Hc) as (_ & Hp & Hne).
    split; [congruence | by exists p].
Qed.

Lemma reachableApp_demoNight : reachableApp (mkApp demoNight resetUi).
Proof.
  eapply reachableApp_step; [| by apply (app_night_timer (mkApp _ resetUi))].
  eapply reachableApp_step; [| by apply (app_tick (mkApp _ resetUi))].
  eapply reachableApp_step; [apply reachableApp_init |].
  apply (app_start demoEntropy WEREWOLF initialApp); [done | apply fairShuffles_demo].
Qed.

Lemma reachableApp_demoUi : reachableApp (mkApp demoNight demoUi).
Proof.
  eapply reachableApp_step; [apply reachableApp_demoNight |].
  apply (app_select (mkApp demoNight resetUi) (nth 4 (players demoNight) demoUser)).
  - vm_compute. tauto.
  - reflexivity.
Qed.

Lemma user_action_is_legal_witness :
  exists p, In p (players demoNight) /\ player_id p = "i" /\
            isAlive p = true /\ role p <> WEREWOLF.
Proof.
  destruct (user_action_is_legal (mkApp demoNight demoUi) demoUser
              reachableApp_demoUi eq_refl) as [H _].
  destruct (H eq_refl) as [Hk _]. apply Hk. by left.
Defined.

Lemma truthy_is_Some (o : option string) : truthy o = true -> exists t, o = Some t.
Proof. destruct o as [t |]; [by exists t | done]. Qed.

Lemma idle_step (a a' : App) :
  reachableApp a -> userIdle (game a) -> appStep a a' -> game a' = game a.
Proof.
  intros Hreach Hidle Hstep.
  assert (winner (game a) = None) as Hnow.
  { destruct (reachable_gameInv _ (reachableApp_game a Hreach)) as (Hiff & _).
    apply (running_no_winner _ Hiff). destruct Hidle as [[-> _] | [-> _]]; done. }
  pose proof (reachableApp_uiInv a Hreach) as Hinv. unfold uiInv in Hinv.
  destruct Hstep as [e r a Hph Hfair | a Hw | a Hph | a Hph | a p Hin Hc
                     | a Hph Hal | a user rune Hph Hu Hal Hin Hready
                     | a b g' Hph Hal Ht Hc | a Hph | a Hph | a b Hph Hal Ht];
    cbn [game ui] in *; try done;
    try (destruct Hidle as [[E _] | [E _]]; congruence).
  - destruct Hidle as [[_ Hidle] | [E _]]; [| congruence]. exfalso.
    rewrite Hph in Hinv. destruct Hinv as [Hmode Htarget].
    destruct Hidle as [Hdead | (user & Hu & Hvil & Hrunes)]; [congruence |].
    destruct (truthy_is_Some _ Ht) as [t Et].
    destruct (Htarget t Et) as (p & _ & _ & Hcan).
    apply andb_true_iff in Hcan as [_ Hcan].
    destruct (canAct_night _ _ _ _ Hu Hph Hcan) as (_ & _ & Hrule).
    destruct Hmode as [[Em _] | (Em & user' & rune & Hu' & _ & Hin & Hready & _)].
    + rewrite Em in Hrule. destruct Hrule as [[? _] | [? | [? _]]]; congruence.
    + assert (user' = user) as -> by congruence.
      rewrite List.Forall_forall in Hrunes. by apply (Hrunes rune Hin).
  - destruct Hidle as [[E _] | [_ Hdead]]; congruence.
Qed.

(** X18: the game stops for a user who has nothing to do. In a state of
    a run where it is night and the user is dead, or is a Villager none
    of whose runes is ready, or where the vote is open and the user is
    dead, nothing the application can do changes the session any more:
    no timer or effect is due, the page offers no button that submits
    an action, and "Play Again" shows with a winner only. *)
Theorem idle_user_halts_the_game (a : App) :
  reachableApp a -> userIdle (game a) ->
  forall a', rtc appStep a a' -> game a' = game a.
Proof.
  intros Hreach Hidle a' Hrun. revert Hreach Hidle.
  induction Hrun as [a | a a1 a' Hstep _ IH]; [done |].
  intros Hreach Hidle.
  pose proof (idle_step a a1 Hreach Hidle Hstep) as E.
  rewrite <- E. apply IH; [by eapply reachableApp_step | by rewrite E].
Qed.

Lemma reachableApp_idleApp : reachableApp idleApp.
Proof.
  set (dawn := resolveNight villNight villUser demoRuneUi demoBot).
  set (u := afterNightUi demoRuneUi).
  set (day := runDayDiscussion (processNightResults dawn)).
  set (u' := selectTarget "i" u).
  set (night := confirmVote day (Some "i") []).
  apply (reachableApp_step (mkApp (tickDown night) (clearTarget u')));
    [| apply (app_night_timer (mkApp (tickDown night) (clearTarget u'))); by vm_compute].
  apply (reachableApp_step (mkApp night (clearTarget u')));
    [| apply (app_tick (mkApp night (clearTarget u'))); by vm_compute].
  apply (reachableApp_step (mkApp day u'));
    [| apply (app_confirm_vote (mkApp day u') []); by vm_compute].
  apply (reachableApp_step (mkApp day u));
    [| apply (app_select (mkApp day u) (nth 4 (players day) villUser));
       [vm_compute; tauto | by vm_compute]].
  apply (reachableApp_step (mkApp (processNightResults dawn) u));
    [| apply (app_discussion (mkApp (processNightResults dawn) u)); by vm_compute].
  apply (reachableApp_step (mkApp dawn u));
    [| apply (app_day_intro (mkApp dawn u)); by vm_compute].
  apply (reachableApp_step (mkApp villNight demoRuneUi));
    [| apply (app_confirm_night (mkApp villNight demoRuneUi) demoBot dawn);
       by vm_compute].
  apply (reachableApp_step (mkApp villNight (mkUi None RUNE (Some "b"))));
    [| apply (app_select (mkApp villNight (mkUi None RUNE (Some "b")))
                (nth 4 (players villNight) villUser));
       [vm_compute; tauto | by vm_compute]].
  apply (reachableApp_step (mkApp villNight resetUi));
    [| apply (app_toggle (mkApp villNight resetUi) (nth 0 (players villNight) villUser)
                (nth 0 (runes (nth 0 (players villNight) villUser))
                     (getRandomRune 0 "")));
       try (by vm_compute); vm_compute; tauto].
  set (start := startGame demoEntropy VILLAGER).
  apply (reachableApp_step (mkApp (tickDown start) resetUi));
    [| apply (app_night_timer (mkApp (tickDown start) resetUi)); by vm_compute].
  apply (reachableApp_step (mkApp start resetUi));
    [| apply (app_tick (mkApp start resetUi)); by vm_compute].
  apply (reachableApp_step initialApp); [apply reachableApp_init |].
  apply (app_start demoEntropy VILLAGER initialApp); [done | apply fairShuffles_demo].
Qed.

Lemma idle_user_halts_the_game_witness :
  game (mkApp (game idleApp) resetUi) = game idleApp.
Proof.
  apply (idle_user_halts_the_game idleApp reachableApp_idleApp).
  - left. split; [by vm_compute |]. right.
    exists (nth 0 (players (game idleApp)) villUser).
    split; [by vm_compute |]. split; [by vm_compute |].
    vm_compute. by repeat constructor.
  - apply rtc_once. apply (app_role_mode idleApp); by vm_compute.
Defined.

(** ** The oracle fails *)

Lemma randomId_alive (ps : list Player) (draw : nat) (t : string) :
  randomId (List.filter (fun p => isAlive p) ps) draw = Some t ->
  t <> "" /\ exists p, In p ps /\ player_id p = t /\ isAlive p = true.
Proof.
  unfold randomId.
  destruct (nth_error _ _) as [p |] eqn:Hn; [| done].
  destruct (truthy (Some (player_id p))) eqn:Ht; [| done].
  intros [= <-]. split; [by apply truthy_Some |].
  apply nth_error_In, filter_In in Hn as [Hin Ha]. by exists p.
Qed.

Lemma randomId_some (ps : list Player) (draw : nat) :
  Forall (fun p => player_id p <> "") ps -> ps <> [] -> randomId ps draw <> None.
Proof.
  intros Hids Hne. unfold randomId.
  assert (draw mod length ps < length ps)%nat as Hlt.
  { apply Nat.mod_upper_bound. by destruct ps. }
  destruct (nth_error ps (draw mod length ps)) as [p |] eqn:Hn;
    [| by apply nth_error_None in Hn; lia].
  apply nth_error_In in Hn. rewrite List.Forall_forall in Hids.
  apply Hids, truthy_Some in Hn. by rewrite Hn.
Qed.

Lemma randomId_nil (draw : nat) : randomId [] draw = None.
Proof. unfold randomId. cbn [length]. by destruct (draw mod 0)%nat. Qed.

(** X19: when the oracle of the night fails, the stand-in actions cast
    no rune, and each of their three targets is the id of a participant
    who is alive (any one of them: the kill can fall on a werewolf, or
    on the target of the save); no target is left out while somebody is
    alive, and with nobody alive there is none. *)
Theorem fallback_targets_the_living (ps : list Player) (d1 d2 d3 : nat) :
  let b := generateBotNightActions ps None d1 d2 d3 in
  runeActions b = [] /\
  (forall o t,
     In o [werewolfKillTargetId b; doctorSaveTargetId b; seerCheckTargetId b] ->
     o = Some t ->
     t <> "" /\ exists p, In p ps /\ player_id p = t /\ isAlive p = true) /\
  (Forall (fun p => player_id p <> "") ps -> aliveCount ps <> 0%nat ->
   forall o,
     In o [werewolfKillTargetId b; doctorSaveTargetId b; seerCheckTargetId b] ->
     o <> None) /\
  (aliveCount ps = 0%nat -> b = mkBotNightAction None None None []).
Proof.
  cbv zeta. cbn [generateBotNightActions]. unfold fallbackNightActions. cbv zeta.
  cbn [runeActions werewolfKillTargetId doctorSaveTargetId seerCheckTargetId].
  split; [done |]. split; [| split].
  - intros o t [<- | [<- | [<- | []]]]; apply randomId_alive.
  - intros Hids Hsome o.
    assert (Forall (fun p => player_id p <> "") (List.filter (fun p => isAlive p) ps)) as Hf.
    { apply List.Forall_forall. intros p [Hin _]%filter_In.
      rewrite List.Forall_forall in Hids. by apply Hids. }
    assert (List.filter (fun p => isAlive p) ps <> []) as Hne.
    { intros E. apply Hsome. unfold aliveCount. by rewrite E. }
    intros [<- | [<- | [<- | []]]]; by apply randomId_some.
  - unfold aliveCount. intros E%length_zero_iff_nil. rewrite E.
    by rewrite !randomId_nil.
Qed.

Lemma lone_tally (b : list BotDayAction) (vc : list (string * Count)) :
  Forall (fun a => truthy (voteTargetId a) = false) b ->
  fold_left castBotVote b vc = vc.
Proof.
  intros H. revert vc. induction H as [| a b Ha _ IH]; [done |]. intros vc. cbn.
  rewrite <- (IH vc) at 2. f_equal. unfold castBotVote.
  destruct (voteTargetId a) as [k |]; [| done]. by rewrite Ha.
Qed.

(** X20: a vote in which every bot abstains is decided by the user
    alone: the target of the living user's vote (the id of a
    participant, which is not the name of a member of
    [Object.prototype]) is elected with its one vote. It is so in
    particular when the oracle of the day fails, for then the bots cast
    no vote at all. *)
Theorem lone_vote_decides (s : GameState) (t : string) :
  userAlive s = true -> t <> "" -> inherited t = false ->
  (forall b, Forall (fun a => truthy (voteTargetId a) = false) b ->
             pickEliminated (tallyVotes s (Some t) b) = Some t) /\
  pickEliminated (tallyVotes s (Some t) (generateBotDayActions (players s) None))
  = Some t.
Proof.
  intros Ha Hne Hi. apply truthy_Some in Hne as Ht.
  assert (forall b, Forall (fun a => truthy (voteTargetId a) = false) b ->
                    pickEliminated (tallyVotes s (Some t) b) = Some t) as H.
  { intros b Hb. unfold tallyVotes. cbv zeta. rewrite Ha, Ht. cbn [andb].
    rewrite (lone_tally b [] Hb). unfold castVote, countOf. cbn [ownCount].
    rewrite Hi. destruct (String.eqb_spec t "__proto__") as [-> | _]; [done |].
    reflexivity. }
  split; [exact H |]. apply H.
  unfold generateBotDayActions. cbv zeta. by destruct (_ =? _)%nat.
Qed.

Lemma lone_vote_decides_witness :
  pickEliminated (tallyVotes demoDay (Some "e") [mkBotDayAction "c" "I pass." None])
  = Some "e".
Proof.
  destruct (lone_vote_decides demoDay "e") as [H _]; [reflexivity | done | reflexivity |].
  apply H. by repeat constructor.
Defined.

Lemma findPlayer_In (t : string) (ps : list Player) (p : Player) :
  In p ps -> player_id p = t ->
  exists q, findPlayer t ps = Some q /\ player_id q = t.
Proof.
  intros Hin Hid. unfold findPlayer.
  destruct (List.find _ ps) as [q |] eqn:Hf.
  - exists q. split; [done |]. by apply find_some in Hf as [_ ?%String.eqb_eq].
  - exfalso. apply (find_none _ _ Hf) in Hin. rewrite Hid, String.eqb_refl in Hin.
    discriminate.
Qed.

(** X21: the event of the user's own vote always names somebody. In
    every state of a run of the application in which the vote is open,
    the vote the page lets the user submit is logged as "You voted for
    <name>", with the name of the participant carrying the selected id;
    the [undefined] of a target that matches no participant never shows.
    A dead user's vote is not logged. *)
Theorem vote_event_names_the_target (a : App) :
  reachableApp a -> phase (game a) = DAY_VOTING ->
  (forall t, selectedActionTarget (ui a) = Some t -> t <> "" ->
     userAlive (game a) = true ->
     exists p, findPlayer t (players (game a)) = Some p /\ player_id p = t /\
       userVoteLogs (game a) (Some t)
       = [mkLog ("You voted for " +:+ player_name p) action (Some "You")]) /\
  (userAlive (game a) = false ->
   forall sel, userVoteLogs (game a) sel = []).
Proof.
  intros Hinv%reachableApp_uiInv Hph. unfold uiInv in Hinv. rewrite Hph in Hinv.
  destruct Hinv as [_ Htarget]. split.
  - intros t Et Hne%truthy_Some Hal.
    destruct (Htarget t Et) as (p & Hin & Hid & _).
    destruct (findPlayer_In t _ p Hin Hid) as (q & Hq & Hqid).
    exists q. split; [done |]. split; [done |].
    unfold userVoteLogs. by rewrite Hal, Hne, Hq.
  - intros Hdead [t |]; unfold userVoteLogs; by rewrite ?Hdead.
Qed.

Lemma reachableApp_demoVote :
  reachableApp (mkApp demoDay (selectTarget "e" (afterNightUi demoUi))).
Proof.
  set (u := afterNightUi demoUi).
  apply (reachableApp_step (mkApp demoDay u));
    [| apply (app_select (mkApp demoDay u) (nth 2 (players demoDay) demoUser));
       [vm_compute; tauto | by vm_compute]].
  apply (reachableApp_step (mkApp (processNightResults demoDawn) u));
    [| apply (app_discussion (mkApp (processNightResults demoDawn) u)); by vm_compute].
  apply (reachableApp_step (mkApp demoDawn u));
    [| apply (app_day_intro (mkApp demoDawn u)); by vm_compute].
  apply (reachableApp_step (mkApp demoNight demoUi)); [apply reachableApp_demoUi |].
  apply (app_confirm_night (mkApp demoNight demoUi) demoBot demoDawn); by vm_compute.
Qed.

Lemma vote_event_names_the_target_witness :
  exists p, findPlayer "e" (players demoDay) = Some p /\ player_id p = "e" /\
    userVoteLogs demoDay (Some "e")
    = [mkLog ("You voted for " +:+ player_name p) action (Some "You")].
Proof.
  destruct (vote_event_names_the_target _ reachableApp_demoVote eq_refl) as [H _].
  apply H; [reflexivity | done | reflexivity].
Defined.
